(** * go-practice: the [concepts/json] and [concepts/net/http] packages

    A shallow embedding of the two packages of the repository whose
    behaviour the specification talks about:

    - [concepts/json/json.go]: [testJSON] and [marshal];
    - [concepts/net/http/main.go]: [NewHandler], [newServeMux],
      [parentChildMux], [RequestTimer], [TerribleSecurityProvider],
      [muxWithMiddleware].

    Both packages are thin clients of the Go standard library
    ([encoding/json], [net/http], [path], [strings], [time], [log]).  The
    library is not part of the repository, so the parts the repository calls
    are modelled here, package by package, in modules named after the Go
    packages.  The model follows the library as of go1.17.6, the release the
    comments of [main.go] link to.  What the model leaves out is said where
    it is left out; two library functions are not modelled but taken as
    they are, as the fields of [http.Library].

    The file has three parts: the library and the repository's code, the
    vocabulary of the statements, and the lemmas and theorems. *)

From Stdlib Require Import ZArith NArith Ascii String List Lia Bool Sorted.
From stdpp Require Import base option list strings gmap.

Local Open Scope Z_scope.
Set Warnings "-register-all".

(** ** Bytes

    A Go [byte] is an [ascii] (eight bits), a [[]byte] or a Go [string] is a
    [string]; inside the scanners a byte sequence under construction is a
    [list ascii]. *)

Definition code (c : ascii) : N := N_of_ascii c.
Definition byte_of (n : N) : ascii := ascii_of_N n.

Definition between (lo hi : N) (c : ascii) : bool :=
  ((lo <=? code c) && (code c <=? hi))%N.

Definition LF : string := String (byte_of 10) EmptyString.
Definition QUOTE : ascii := byte_of 34.
Definition BACKSLASH : ascii := byte_of 92.

Definition bytes (s : string) : list ascii := list_ascii_of_string s.
Definition text (l : list ascii) : string := string_of_list_ascii l.

Definition isDigit (c : ascii) : bool := between 48 57 c.
Definition isLower (c : ascii) : bool := between 97 122 c.
Definition isUpper (c : ascii) : bool := between 65 90 c.

(** ** Go [error] values that the modelled code can produce. *)

Inductive error : Type :=
| io_EOF                                   (* io.EOF *)
| io_ErrUnexpectedEOF                      (* io.ErrUnexpectedEOF *)
| SyntaxError (offending : ascii)          (* *json.SyntaxError *)
| UnmarshalTypeError (value : string)      (* *json.UnmarshalTypeError{Value: value} *)
| UnknownField (key : string)              (* "json: unknown field %q" *)
| phasePanic                               (* json's phasePanicMsg; unreachable *)
| ErrBodyNotAllowed                        (* http.ErrBodyNotAllowed *)
| ErrContentLength.                        (* http.ErrContentLength *)

(** ** What the standard logger of package [log] has been asked to print:
    one entry per call, with the call's arguments. *)

Inductive LogArg : Type :=
| ArgString (s : string)
| ArgDuration (nanoseconds : Z)
| ArgError (e : error)
| ArgCaller.                               (* runtime caller information *)

Inductive LogEntry : Type :=
| LogPrintf (format : string) (args : list LogArg)
| LogPrintln (args : list LogArg).

(** ** Package [unicode/utf8] and [unicode/utf16], as far as
    [encoding/json] uses them to unquote a string literal. *)

Module utf8.

Definition RuneError : N := 65533.       (* U+FFFD *)

Definition cont (c : ascii) : bool := between 128 191 c.

(** [utf8.EncodeRune]. *)
Definition EncodeRune (r : N) : list ascii :=
  let r := if ((1114111 <? r) || ((55296 <=? r) && (r <=? 57343)))%N
           then RuneError else r in
  if (r <=? 127)%N then [byte_of r]
  else if (r <=? 2047)%N then
    [byte_of (N.lor 192 (N.shiftr r 6));
     byte_of (N.lor 128 (N.land r 63))]
  else if (r <=? 65535)%N then
    [byte_of (N.lor 224 (N.shiftr r 12));
     byte_of (N.lor 128 (N.land (N.shiftr r 6) 63));
     byte_of (N.lor 128 (N.land r 63))]
  else
    [byte_of (N.lor 240 (N.shiftr r 18));
     byte_of (N.lor 128 (N.land (N.shiftr r 12) 63));
     byte_of (N.lor 128 (N.land (N.shiftr r 6) 63));
     byte_of (N.lor 128 (N.land r 63))].

(** [utf8.DecodeRune], reduced to what its caller needs: the number of
    bytes of the well-formed encoding that starts [s], or [None] when
    [s] does not start with one (Go then returns [(RuneError, 1)]).
    The bounds on the second byte are [utf8]'s [acceptRanges]. *)
Definition DecodeRune_size (s : list ascii) : option nat :=
  match s with
  | c0 :: c1 :: tl =>
      if between 194 223 c0 then
        if cont c1 then Some 2%nat else None
      else
        match tl with
        | c2 :: tl' =>
            let second3 :=
              if (code c0 =? 224)%N then between 160 191 c1
              else if (code c0 =? 237)%N then between 128 159 c1
              else between 225 239 c0 && cont c1 in
            if between 224 239 c0 then
              if second3 && cont c2 then Some 3%nat else None
            else
              match tl' with
              | c3 :: _ =>
                  let second4 :=
                    if (code c0 =? 240)%N then between 144 191 c1
                    else if (code c0 =? 244)%N then between 128 143 c1
                    else between 241 243 c0 && cont c1 in
                  if between 240 244 c0 && second4 && cont c2 && cont c3
                  then Some 4%nat else None
              | [] => None
              end
        | [] => None
        end
  | _ => None
  end.

(** [utf16.IsSurrogate] and [utf16.DecodeRune]. *)
Definition IsSurrogate (r : N) : bool := ((55296 <=? r) && (r <? 57344))%N.

Definition DecodeSurrogates (r1 r2 : N) : N :=
  if ((55296 <=? r1) && (r1 <? 56320) && (56320 <=? r2) && (r2 <? 57344))%N
  then (N.lor (N.shiftl (r1 - 55296) 10) (r2 - 56320) + 65536)%N
  else RuneError.

End utf8.

(** ** Package [encoding/json]: the scanner ([scanner.go]), the reader of
    one value ([Decoder.readValue], [stream.go]) and [unquoteBytes]
    ([decode.go]).

    Go scans the input twice, once to find the end of the value and to
    reject malformed input, once to store the value.  Both passes run the
    same state machine, so the model runs it once and lets the parse stack
    carry the values read so far. *)

Module json.

Inductive Value : Type :=
| Null
| Bool (b : bool)
| Number (literal : string)
| Str (s : string)
| Array (elems : list Value)
| Object (members : list (string * Value)).

Definition isSpace (c : ascii) : bool :=
  (code c =? 32)%N || (code c =? 9)%N || (code c =? 13)%N || (code c =? 10)%N.

(** *** [unquoteBytes], on the bytes between the quotes. *)

Definition hexval (c : ascii) : option N :=
  if isDigit c then Some (code c - 48)%N
  else if between 97 102 c then Some (code c - 87)%N
  else if between 65 70 c then Some (code c - 55)%N
  else None.

Definition getu4 (s : list ascii) : option N :=
  match s with
  | b :: u :: h1 :: h2 :: h3 :: h4 :: _ =>
      if (b =? BACKSLASH)%char && (u =? "u")%char then
        match hexval h1, hexval h2, hexval h3, hexval h4 with
        | Some x1, Some x2, Some x3, Some x4 =>
            Some (((x1 * 16 + x2) * 16 + x3) * 16 + x4)%N
        | _, _, _, _ => None
        end
      else None
  | _ => None
  end.

(** The byte an escape letter stands for; [None] for a letter that is
    not an escape ([u] is handled by the caller). *)
Definition escaped (e : ascii) : option ascii :=
  if (e =? QUOTE)%char || (e =? BACKSLASH)%char || (e =? "/")%char
     || (e =? "'")%char then Some e
  else if (e =? "b")%char then Some (byte_of 8)
  else if (e =? "f")%char then Some (byte_of 12)
  else if (e =? "n")%char then Some (byte_of 10)
  else if (e =? "r")%char then Some (byte_of 13)
  else if (e =? "t")%char then Some (byte_of 9)
  else None.

(** The loop of [unquoteBytes].  [skip] counts bytes that an earlier
    iteration has consumed already (Go advances its read index [r] by
    more than one there). *)
Fixpoint unquote_from (skip : nat) (s : list ascii) : option (list ascii) :=
  match s with
  | [] => Some []
  | c :: rest =>
      match skip with
      | S k => unquote_from k rest
      | O =>
          if (c =? BACKSLASH)%char then
            match rest with
            | [] => None
            | e :: _ =>
                if (e =? "u")%char then
                  match getu4 s with
                  | None => None
                  | Some rr =>
                      if utf8.IsSurrogate rr then
                        let dec :=
                          match getu4 (drop 6 s) with
                          | Some rr1 => utf8.DecodeSurrogates rr rr1
                          | None => utf8.RuneError
                          end in
                        if (dec =? utf8.RuneError)%N
                        then app (utf8.EncodeRune utf8.RuneError)
                               <$> unquote_from 5 rest
                        else app (utf8.EncodeRune dec)
                               <$> unquote_from 11 rest
                      else app (utf8.EncodeRune rr) <$> unquote_from 5 rest
                  end
                else
                  match escaped e with
                  | Some x => cons x <$> unquote_from 1 rest
                  | None => None
                  end
            end
          else if (c =? QUOTE)%char || (code c <? 32)%N then None
          else if (code c <? 128)%N then cons c <$> unquote_from 0 rest
          else
            match utf8.DecodeRune_size s with
            | Some n => app (take n s) <$> unquote_from (n - 1) rest
            | None => app (utf8.EncodeRune utf8.RuneError)
                        <$> unquote_from 0 rest
            end
      end
  end.

Definition unquoteBytes (s : list ascii) : option string :=
  text <$> unquote_from 0 s.

(** *** The scanner. *)

(** Go's [parseState] stack holds [parseObjectKey], [parseObjectValue]
    and [parseArrayValue]; here each entry also holds what has been read
    of its container (members and elements, last read first).
    [parseObjectKey ms None] waits for a key, [parseObjectKey ms (Some k)]
    for the colon after it; [parseObjectValue ms (Some k)] reads the value
    of [k], [parseObjectValue ms None] has stored it and waits for a comma
    or the closing brace. *)
Inductive frame : Type :=
| parseObjectKey (members : list (string * Value)) (key : option string)
| parseObjectValue (members : list (string * Value)) (key : option string)
| parseArrayValue (elems : list Value).

(** Go's step functions.  The byte accumulators hold the literal read
    so far, last byte first.  [stateLiteral expect v] stands for
    [stateT], [stateTr], ..., [stateNul]: the bytes still expected of
    [true], [false] or [null]. *)
Inductive state : Type :=
| stateBeginValueOrEmpty
| stateBeginValue
| stateBeginStringOrEmpty
| stateBeginString
| stateEndValue
| stateInString (acc : list ascii)
| stateInStringEsc (acc : list ascii)
| stateInStringEscU (seen : nat) (acc : list ascii)
| stateNeg (acc : list ascii)
| state1 (acc : list ascii)
| state0 (acc : list ascii)
| stateDot (acc : list ascii)
| stateDot0 (acc : list ascii)
| stateE (acc : list ascii)
| stateESign (acc : list ascii)
| stateE0 (acc : list ascii)
| stateLiteral (expect : list ascii) (v : Value).

Record scanner : Type := { step : state; parseState : list frame }.

Inductive scanned : Type :=
| scanContinue (s : scanner)
| scanEnd (v : Value)
| scanError (e : error).

Definition maxNestingDepth : N := 10000.

Definition pushParseState (c : ascii) (f : frame) (ps : list frame)
    (successState : state) : scanned :=
  if (N.of_nat (length (f :: ps)) <=? maxNestingDepth)%N
  then scanContinue {| step := successState; parseState := f :: ps |}
  else scanError (SyntaxError c).

(** A value is complete: it is the top-level value, or it goes into the
    container on top of the stack and the scanner moves to
    [stateEndValue]. *)
Definition endValue (v : Value) (ps : list frame) : scanned :=
  match ps with
  | [] => scanEnd v
  | parseArrayValue es :: ps' =>
      scanContinue {| step := stateEndValue;
                      parseState := parseArrayValue (v :: es) :: ps' |}
  | parseObjectKey ms None :: ps' =>
      match v with
      | Str k => scanContinue {| step := stateEndValue;
                     parseState := parseObjectKey ms (Some k) :: ps' |}
      | _ => scanError phasePanic
      end
  | parseObjectValue ms (Some k) :: ps' =>
      scanContinue {| step := stateEndValue;
                      parseState := parseObjectValue ((k, v) :: ms) None :: ps' |}
  | _ => scanError phasePanic
  end.

Definition stepEndValue (c : ascii) (ps : list frame) : scanned :=
  match ps with
  | [] => scanError phasePanic
  | top :: ps' =>
      if isSpace c then scanContinue {| step := stateEndValue; parseState := ps |}
      else
        match top with
        | parseObjectKey ms (Some k) =>
            if (c =? ":")%char
            then scanContinue {| step := stateBeginValue;
                     parseState := parseObjectValue ms (Some k) :: ps' |}
            else scanError (SyntaxError c)
        | parseObjectValue ms None =>
            if (c =? ",")%char
            then scanContinue {| step := stateBeginString;
                     parseState := parseObjectKey ms None :: ps' |}
            else if (c =? "}")%char then endValue (Object (rev ms)) ps'
            else scanError (SyntaxError c)
        | parseArrayValue es =>
            if (c =? ",")%char
            then scanContinue {| step := stateBeginValue; parseState := ps |}
            else if (c =? "]")%char then endValue (Array (rev es)) ps'
            else scanError (SyntaxError c)
        | _ => scanError phasePanic
        end
  end.

(** A number ends at the first byte [c] that cannot continue it; Go
    then hands [c] to [stateEndValue]. *)
Definition endNumber (acc : list ascii) (c : ascii) (ps : list frame) : scanned :=
  match endValue (Number (text (rev acc))) ps with
  | scanContinue s => stepEndValue c (parseState s)
  | r => r
  end.

Definition endString (acc : list ascii) (ps : list frame) : scanned :=
  match unquoteBytes (rev acc) with
  | Some s => endValue (Str s) ps
  | None => scanError phasePanic
  end.

Definition stepBeginString (c : ascii) (ps : list frame) : scanned :=
  if isSpace c then scanContinue {| step := stateBeginString; parseState := ps |}
  else if (c =? QUOTE)%char
  then scanContinue {| step := stateInString []; parseState := ps |}
  else scanError (SyntaxError c).

Definition stepBeginValue (c : ascii) (ps : list frame) : scanned :=
  let goto st := scanContinue {| step := st; parseState := ps |} in
  if isSpace c then goto stateBeginValue
  else if (c =? "{")%char
  then pushParseState c (parseObjectKey [] None) ps stateBeginStringOrEmpty
  else if (c =? "[")%char
  then pushParseState c (parseArrayValue []) ps stateBeginValueOrEmpty
  else if (c =? QUOTE)%char then goto (stateInString [])
  else if (c =? "-")%char then goto (stateNeg [c])
  else if (c =? "0")%char then goto (state0 [c])
  else if (c =? "t")%char then goto (stateLiteral (bytes "rue") (Bool true))
  else if (c =? "f")%char then goto (stateLiteral (bytes "alse") (Bool false))
  else if (c =? "n")%char then goto (stateLiteral (bytes "ull") Null)
  else if between 49 57 c then goto (state1 [c])
  else scanError (SyntaxError c).

Definition isHex (c : ascii) : bool :=
  isDigit c || between 97 102 c || between 65 70 c.

(** [s.step(s, c)]. *)
Definition stepOn (s : scanner) (c : ascii) : scanned :=
  let ps := parseState s in
  let goto st := scanContinue {| step := st; parseState := ps |} in
  let bad := scanError (SyntaxError c) in
  match step s with
  | stateBeginValueOrEmpty =>
      if isSpace c then goto stateBeginValueOrEmpty
      else if (c =? "]")%char then stepEndValue c ps
      else stepBeginValue c ps
  | stateBeginValue => stepBeginValue c ps
  | stateBeginStringOrEmpty =>
      if isSpace c then goto stateBeginStringOrEmpty
      else if (c =? "}")%char then
        match ps with
        | parseObjectKey ms None :: ps' =>
            stepEndValue c (parseObjectValue ms None :: ps')
        | _ => scanError phasePanic
        end
      else stepBeginString c ps
  | stateBeginString => stepBeginString c ps
  | stateEndValue => stepEndValue c ps
  | stateInString acc =>
      if (c =? QUOTE)%char then endString acc ps
      else if (c =? BACKSLASH)%char then goto (stateInStringEsc (c :: acc))
      else if (code c <? 32)%N then bad
      else goto (stateInString (c :: acc))
  | stateInStringEsc acc =>
      if (c =? "b")%char || (c =? "f")%char || (c =? "n")%char
         || (c =? "r")%char || (c =? "t")%char || (c =? BACKSLASH)%char
         || (c =? "/")%char || (c =? QUOTE)%char
      then goto (stateInString (c :: acc))
      else if (c =? "u")%char then goto (stateInStringEscU 0 (c :: acc))
      else bad
  | stateInStringEscU seen acc =>
      if isHex c then
        if (seen <? 3)%nat then goto (stateInStringEscU (S seen) (c :: acc))
        else goto (stateInString (c :: acc))
      else bad
  | stateNeg acc =>
      if (c =? "0")%char then goto (state0 (c :: acc))
      else if between 49 57 c then goto (state1 (c :: acc))
      else bad
  | state1 acc =>
      if isDigit c then goto (state1 (c :: acc))
      else if (c =? ".")%char then goto (stateDot (c :: acc))
      else if (c =? "e")%char || (c =? "E")%char then goto (stateE (c :: acc))
      else endNumber acc c ps
  | state0 acc =>
      if (c =? ".")%char then goto (stateDot (c :: acc))
      else if (c =? "e")%char || (c =? "E")%char then goto (stateE (c :: acc))
      else endNumber acc c ps
  | stateDot acc =>
      if isDigit c then goto (stateDot0 (c :: acc)) else bad
  | stateDot0 acc =>
      if isDigit c then goto (stateDot0 (c :: acc))
      else if (c =? "e")%char || (c =? "E")%char then goto (stateE (c :: acc))
      else endNumber acc c ps
  | stateE acc =>
      if (c =? "+")%char || (c =? "-")%char then goto (stateESign (c :: acc))
      else if isDigit c then goto (stateE0 (c :: acc))
      else bad
  | stateESign acc =>
      if isDigit c then goto (stateE0 (c :: acc)) else bad
  | stateE0 acc =>
      if isDigit c then goto (stateE0 (c :: acc)) else endNumber acc c ps
  | stateLiteral expect v =>
      match expect with
      | e :: more =>
          if (c =? e)%char then
            match more with
            | [] => endValue v ps
            | _ => goto (stateLiteral more v)
            end
          else bad
      | [] => scanError phasePanic
      end
  end.

Fixpoint scan (s : scanner) (input : list ascii) : scanned :=
  match input with
  | [] => scanContinue s
  | c :: rest =>
      match stepOn s c with
      | scanContinue s' => scan s' rest
      | r => r
      end
  end.

(** [Decoder.readValue] on a reader that holds [input]: the first JSON
    value of the input, whatever follows it.  At the end of the input Go
    feeds the scanner one space; if that does not complete a value the
    error is [io.ErrUnexpectedEOF], or [io.EOF] when the input held
    nothing but white space. *)
Definition readValue (input : string) : error + Value :=
  match scan {| step := stateBeginValue; parseState := [] |} (bytes input) with
  | scanEnd v => inr v
  | scanError e => inl e
  | scanContinue s =>
      match stepOn s " "%char with
      | scanEnd v => inr v
      | _ => inl (if forallb isSpace (bytes input)
                  then io_EOF else io_ErrUnexpectedEOF)
      end
  end.

(** [decodeState.saveError]: the first error stays. *)
Definition saveError (saved : option error) (e : error) : option error :=
  match saved with
  | Some _ => saved
  | None => Some e
  end.

(** What [d.value] stores into a destination of kind [string]:
    [literalStore] for literals, [d.array] and [d.object] for
    containers.  Only a string literal is stored; [null] leaves the
    destination alone; everything else saves an [UnmarshalTypeError]
    and is skipped. *)
Definition storeString (v : Value) (dst : string) (saved : option error)
    : string * option error :=
  match v with
  | Str s => (s, saved)
  | Null => (dst, saved)
  | Bool _ => (dst, saveError saved (UnmarshalTypeError "bool"))
  | Number _ => (dst, saveError saved (UnmarshalTypeError "number"))
  | Array _ => (dst, saveError saved (UnmarshalTypeError "array"))
  | Object _ => (dst, saveError saved (UnmarshalTypeError "object"))
  end.

(** [simpleLetterEqualFold] ([fold.go]), the function [foldFunc] picks
    for a field name made of the letters other than [k] and [s]. *)
Definition caseMask (c : ascii) : N := N.land (code c) 223.

Fixpoint simpleLetterEqualFold (s t : list ascii) : bool :=
  match s, t with
  | [], [] => true
  | b :: s', c :: t' => (caseMask b =? caseMask c)%N && simpleLetterEqualFold s' t'
  | _, _ => false
  end.

(** [json.NewDecoder(bytes.NewReader(b))] and
    [Decoder.DisallowUnknownFields]. *)
Record Decoder : Type := { reader : string; disallowUnknownFields : bool }.

Definition NewDecoder (b : string) : Decoder :=
  {| reader := b; disallowUnknownFields := false |}.

Definition DisallowUnknownFields (d : Decoder) : Decoder :=
  {| reader := reader d; disallowUnknownFields := true |}.

End json.

(** ** Package [encoding/json]: the comparison of keys with field names
    ([fold.go]) *)

Module fold.

Definition kelvin : N := 8490.            (* U+212A *)
Definition smallLongEss : N := 383.       (* U+017F *)

(** [utf8.DecodeRune] on bytes that start with a byte above 127: the
    rune and the number of bytes of a well-formed encoding,
    [(RuneError, 1)] when there is none. *)
Definition DecodeRune (s : list ascii) : N * nat :=
  match utf8.DecodeRune_size s, s with
  | Some 2%nat, c0 :: c1 :: _ =>
      (N.lor (N.shiftl (N.land (code c0) 31) 6) (N.land (code c1) 63), 2%nat)
  | Some 3%nat, c0 :: c1 :: c2 :: _ =>
      (N.lor (N.lor (N.shiftl (N.land (code c0) 15) 12)
                    (N.shiftl (N.land (code c1) 63) 6))
             (N.land (code c2) 63), 3%nat)
  | Some 4%nat, c0 :: c1 :: c2 :: c3 :: _ =>
      (N.lor (N.lor (N.lor (N.shiftl (N.land (code c0) 7) 18)
                           (N.shiftl (N.land (code c1) 63) 12))
                    (N.shiftl (N.land (code c2) 63) 6))
             (N.land (code c3) 63), 4%nat)
  | _, _ => (utf8.RuneError, 1%nat)
  end.

Definition isUpperCode (n : N) : bool := ((65 <=? n) && (n <=? 90))%N.

(** [equalFoldRight(s, t)]: [s] is the field name, in ASCII; [t] may
    hold the Kelvin sign for a [k] and the long s for an [s]. *)
Fixpoint equalFoldRight (s t : list ascii) : bool :=
  match s with
  | [] => match t with [] => true | _ :: _ => false end
  | sb :: s' =>
      match t with
      | [] => false
      | tb :: t' =>
          if (code tb <? 128)%N then
            if (sb =? tb)%char then equalFoldRight s' t'
            else if isUpperCode (json.caseMask sb)
            then if (json.caseMask sb =? json.caseMask tb)%N
                 then equalFoldRight s' t' else false
            else false
          else
            let '(tr, size) := DecodeRune t in
            if (sb =? "s")%char || (sb =? "S")%char then
              if (tr =? smallLongEss)%N then equalFoldRight s' (drop size t)
              else false
            else if (sb =? "k")%char || (sb =? "K")%char then
              if (tr =? kelvin)%N then equalFoldRight s' (drop size t)
              else false
            else false
      end
  end.

(** [asciiEqualFold(s, t)] *)
Fixpoint asciiEqualFold (s t : list ascii) : bool :=
  match s, t with
  | [], [] => true
  | sb :: s', tb :: t' =>
      (if (sb =? tb)%char then true
       else if isLower sb || isUpper sb
       then (json.caseMask sb =? json.caseMask tb)%N
       else false)
      && asciiEqualFold s' t'
  | _, _ => false
  end.

(** [foldFunc(s)]: the comparison for the field name [s]; [None] where
    Go picks [bytes.EqualFold], for a name that is not in ASCII. *)
Definition foldFunc (s : list ascii) : option (list ascii -> list ascii -> bool) :=
  if existsb (fun b => (128 <=? code b)%N) s then None
  else if existsb (fun b => (json.caseMask b =? 75)%N || (json.caseMask b =? 83)%N) s
  then Some equalFoldRight
  else if existsb (fun b => negb (isUpperCode (json.caseMask b))) s
  then Some asciiEqualFold
  else Some json.simpleLetterEqualFold.

End fold.


(** ** [concepts/json/json.go] *)

(** [type testJSON struct { Name string `json:"name"` }] *)
Record testJSON : Type := { Name : string }.

(** The field of [testJSON] an object key selects: [decodeState.object]
    looks the key up in the name index of the struct type and falls back to
    the case-folding comparison of [foldFunc]. *)
Definition isNameKey (key : string) : bool :=
  String.eqb key "name"
  || json.simpleLetterEqualFold (bytes "name") (bytes key).

(** [decodeState.object] with a [testJSON] as destination: the members
    are stored one after the other; an error is saved and decoding goes
    on. *)
Fixpoint decodeObject (d : json.Decoder) (members : list (string * json.Value))
    (tj : testJSON) (saved : option error) : testJSON * option error :=
  match members with
  | [] => (tj, saved)
  | (key, v) :: rest =>
      if isNameKey key then
        let '(s, saved') := json.storeString v (Name tj) saved in
        decodeObject d rest {| Name := s |} saved'
      else if json.disallowUnknownFields d then
        decodeObject d rest tj (json.saveError saved (UnknownField key))
      else decodeObject d rest tj saved
  end.

(** [decodeState.value] with a [testJSON] as destination. *)
Definition decodeValue (d : json.Decoder) (v : json.Value)
    (tj : testJSON) : testJSON * option error :=
  match v with
  | json.Object ms => decodeObject d ms tj None
  | json.Null => (tj, None)
  | json.Bool _ => (tj, Some (UnmarshalTypeError "bool"))
  | json.Number _ => (tj, Some (UnmarshalTypeError "number"))
  | json.Str _ => (tj, Some (UnmarshalTypeError "string"))
  | json.Array _ => (tj, Some (UnmarshalTypeError "array"))
  end.

(** [d.Decode(tj)] for a non-nil [tj *testJSON]: the struct after the
    call, and the error returned. *)
Definition Decode (d : json.Decoder) (tj : testJSON) : testJSON * option error :=
  match json.readValue (json.reader d) with
  | inl e => (tj, Some e)
  | inr v => decodeValue d v tj
  end.

(** [func marshal(b []byte, tj *testJSON) error]: the error returned (Go's
    [nil] is [None]), the struct [tj] points to after the call, and the
    lines written to the standard logger. *)
Record marshalled : Type := {
  returned : option error;
  pointee : testJSON;
  logged : list LogEntry
}.

Definition marshal (b : string) (tj : testJSON) : marshalled :=
  let d := json.NewDecoder b in
  let d := json.DisallowUnknownFields d in
  let '(tj', err) := Decode d tj in
  match err with
  | Some e =>
      {| returned := Some e; pointee := tj';
         logged := [LogPrintln [ArgString "got an err "; ArgError e]] |}
  | None =>
      {| returned := None; pointee := tj';
         logged := [LogPrintln [ArgString "no error"]] |}
  end.

(** [concepts/json/json_test.go] *)

Definition quoted (s : string) : string :=
  String QUOTE (s +:+ String QUOTE EmptyString).

(** [{"name":"michael"}] *)
Definition goodJSONString : string :=
  "{" +:+ quoted "name" +:+ ":" +:+ quoted "michael" +:+ "}".

(** [{"name":"michael","address": "1234 Shady Lane Boston, MA"}] *)
Definition badJSONString : string :=
  "{" +:+ quoted "name" +:+ ":" +:+ quoted "michael" +:+ ","
      +:+ quoted "address" +:+ ": " +:+ quoted "1234 Shady Lane Boston, MA" +:+ "}".


(** ** Package [io]: the interface [io.Reader].

    [Read(p)] fills a prefix of [p] and returns its length and an error.
    Here [Read r len] is a call with a buffer of [len] bytes on the reader
    in state [r]: the bytes written to the buffer, the error, and the
    state the reader is left in. *)

Module io.

Class Reader (R : Type) : Type :=
  Read : R -> nat -> string * option error * R.

End io.

(** ** Package [strings] *)

Module strings.

Fixpoint HasPrefix (s prefix : string) {struct prefix} : bool :=
  match prefix with
  | EmptyString => true
  | String p prefix' =>
      match s with
      | String c s' => (c =? p)%char && HasPrefix s' prefix'
      | EmptyString => false
      end
  end.

Fixpoint drop (n : nat) (s : string) : string :=
  match n, s with
  | S n', String _ s' => drop n' s'
  | _, _ => s
  end.

Definition TrimPrefix (s prefix : string) : string :=
  if HasPrefix s prefix then drop (String.length prefix) s else s.

(** [s[0]] and [s[len(s)-1]] of a string that may be empty. *)
Definition first (s : string) : option ascii :=
  match s with
  | String c _ => Some c
  | EmptyString => None
  end.

Fixpoint last (s : string) : option ascii :=
  match s with
  | EmptyString => None
  | String c EmptyString => Some c
  | String _ s' => last s'
  end.

Definition startsWithSlash (s : string) : bool :=
  match first s with Some c => (c =? "/")%char | None => false end.

Definition endsWithSlash (s : string) : bool :=
  match last s with Some c => (c =? "/")%char | None => false end.

Fixpoint take (n : nat) (s : string) : string :=
  match n, s with
  | S n', String c s' => String c (take n' s')
  | _, _ => EmptyString
  end.

(** [strings.Reader]: the string [s] and the read index [i].
    [Read] returns [io.EOF] once the index has reached the end, and
    otherwise copies as much of the rest as the buffer takes. *)
Record Reader : Type := { s : string; i : nat }.

Definition NewReader (str : string) : Reader := {| s := str; i := 0 |}.

#[global] Instance Reader_Read : io.Reader Reader := fun r len =>
  if (String.length (s r) <=? i r)%nat then (EmptyString, Some io_EOF, r)
  else
    let chunk := take len (drop (i r) (s r)) in
    (chunk, None, {| s := s r; i := i r + String.length chunk |}).

End strings.

(** ** Package [path]: [Clean].

    Go's [Clean] works on the bytes of the path with a read and a write
    index; the model does the same work element by element: empty elements
    and [.] are dropped, [..] removes the element before it, a [..] that has
    nothing to remove is dropped in a rooted path and kept otherwise. *)

Module path.

Fixpoint elements (cur : list ascii) (s : list ascii) : list string :=
  match s with
  | [] => [text (rev cur)]
  | c :: rest =>
      if (c =? "/")%char then text (rev cur) :: elements [] rest
      else elements (c :: cur) rest
  end.

(** [out] holds the elements written so far, last written first. *)
Definition cleanElement (rooted : bool) (out : list string) (e : string)
    : list string :=
  if String.eqb e "" || String.eqb e "." then out
  else if String.eqb e ".." then
    match out with
    | top :: out' => if String.eqb top ".." then e :: out else out'
    | [] => if rooted then [] else [e]
    end
  else e :: out.

Definition join (elems : list string) : string :=
  match elems with
  | [] => ""
  | e :: rest => fold_left (fun acc x => acc +:+ "/" +:+ x) rest e
  end.

Definition Clean (p : string) : string :=
  if String.eqb p "" then "."
  else
    let rooted := strings.startsWithSlash p in
    let out := fold_left (cleanElement rooted) (elements [] (bytes p)) [] in
    let body := join (rev out) in
    if rooted then "/" +:+ body
    else if String.eqb body "" then "." else body.

End path.

(** ** Package [net/url]: the fields of [url.URL] the server-side code
    reads. *)

Module url.

Record URL : Type := { Host : string; Path : string; RawPath : string; RawQuery : string }.

Definition withPath (u : URL) (p rp : string) : URL :=
  {| Host := Host u; Path := p; RawPath := rp; RawQuery := RawQuery u |}.

End url.

(** ** The state a handler runs in.

    A handler gets an [http.ResponseWriter] and a [*http.Request], and it
    can read the clock and write to the standard logger.  [response] is the
    server's implementation of [http.ResponseWriter] ([response] in
    [net/http/server.go]), reduced to what handlers can observe or change
    through [Header], [WriteHeader] and [Write]; hijacking, trailers and
    [Expect: 100-continue] are left out, as no handler of the repository
    uses them.  The clock is an oracle: [clock w n] is what the [n]-th call
    of [time.Now] returns. *)

Abbreviation MIMEHeader := (gmap string (list string)).

Record response : Type := {
  reqMethod : string;            (* w.req.Method *)
  handlerHeader : MIMEHeader;    (* what w.Header() returns *)
  wroteHeader : bool;
  status : Z;
  contentLength : Z;             (* declared Content-Length, -1 for none *)
  written : Z;                   (* body bytes handed to Write so far *)
  body : string                  (* body bytes passed on to the connection *)
}.

Record World : Type := {
  resp : response;
  stdlog : list LogEntry;
  clock : nat -> Z;
  reads : nat
}.

Definition withResp (w : World) (r : response) : World :=
  {| resp := r; stdlog := stdlog w; clock := clock w; reads := reads w |}.

Definition withLog (w : World) (l : list LogEntry) : World :=
  {| resp := resp w; stdlog := l; clock := clock w; reads := reads w |}.

(** A call returns, with a result and the state it leaves, or panics. *)
Inductive Outcome (A : Type) : Type :=
| Returned (a : A) (w : World)
| Panicked (v : string) (w : World).
Arguments Returned {A} a w.
Arguments Panicked {A} v w.

Definition Go (A : Type) : Type := World -> Outcome A.

#[global] Instance Go_ret : MRet Go := fun A a w => Returned a w.

#[global] Instance Go_bind : MBind Go := fun A B f c w =>
  match c w with
  | Returned a w' => f a w'
  | Panicked v w' => Panicked v w'
  end.

Definition panic {A : Type} (v : string) : Go A := fun w => Panicked v w.

(** ** Package [time] *)

Module time.

Definition Second : Z := 1000000000.
Definition minDuration : Z := - 2 ^ 63.
Definition maxDuration : Z := 2 ^ 63 - 1.

(** [time.Now()], as nanoseconds on the monotonic clock. *)
Definition Now : Go Z := fun w =>
  Returned (clock w (reads w))
    {| resp := resp w; stdlog := stdlog w; clock := clock w; reads := S (reads w) |}.

(** [t.Sub(u)]: the difference, saturated to the range of [Duration]. *)
Definition Sub (t u : Z) : Z := Z.max minDuration (Z.min maxDuration (t - u)).

End time.

(** ** Package [log] *)

Module log.

Definition Printf (format : string) (args : list LogArg) : Go unit := fun w =>
  Returned tt (withLog w (stdlog w ++ [LogPrintf format args])).

End log.

(** ** Package [net/textproto]: canonical header keys *)

Module textproto.

(** [validHeaderFieldByte]: the token bytes of RFC 7230. *)
Definition validHeaderFieldByte (c : ascii) : bool :=
  isDigit c || isLower c || isUpper c
  || existsb (fun n => (code c =? n)%N)
       [33; 35; 36; 37; 38; 39; 42; 43; 45; 46; 94; 95; 96; 124; 126]%N.

(** The loop of [canonicalMIMEHeaderKey]: upper case at the start and
    after a hyphen, lower case elsewhere. *)
Fixpoint canonical (upper : bool) (a : list ascii) : list ascii :=
  match a with
  | [] => []
  | c :: rest =>
      let c' :=
        if upper && isLower c then byte_of (code c - 32)
        else if negb upper && isUpper c then byte_of (code c + 32)
        else c in
      c' :: canonical (c' =? "-")%char rest
  end.

(** [CanonicalMIMEHeaderKey]: a key with a byte that is not a token byte
    is returned as it is. *)
Definition CanonicalMIMEHeaderKey (s : string) : string :=
  if forallb validHeaderFieldByte (bytes s)
  then text (canonical true (bytes s))
  else s.

End textproto.

(** ** Package [strconv]: [ParseInt(s, 10, 64)] *)

Module strconv.

Fixpoint digits (acc : N) (s : list ascii) : option N :=
  match s with
  | [] => Some acc
  | c :: rest =>
      if isDigit c then digits (acc * 10 + (code c - 48))%N rest else None
  end.

Definition ParseInt10 (s : string) : option Z :=
  let '(neg, ds) :=
    match bytes s with
    | c :: rest =>
        if (c =? "+")%char then (false, rest)
        else if (c =? "-")%char then (true, rest)
        else (false, c :: rest)
    | [] => (false, [])
    end in
  match ds with
  | [] => None
  | _ =>
      match digits 0 ds with
      | Some n =>
          let z := Z.of_N n in
          if neg then (if z <=? 2 ^ 63 then Some (- z) else None)
          else (if z <? 2 ^ 63 then Some z else None)
      | None => None
      end
  end.

End strconv.

(** ** Package [net/http], server side *)

Module http.

Definition StatusOK : Z := 200.
Definition StatusAccepted : Z := 202.
Definition StatusMovedPermanently : Z := 301.
Definition StatusBadRequest : Z := 400.
Definition StatusUnauthorized : Z := 401.
Definition StatusNotFound : Z := 404.

(** *** [http.Header] *)

(** [h.Get(key)]: the first value under the canonical form of [key],
    the empty string when there is none. *)
Definition Header_Get (h : MIMEHeader) (key : string) : string :=
  match h !! textproto.CanonicalMIMEHeaderKey key with
  | Some (v :: _) => v
  | _ => ""
  end.

(** [h.get(key)]: the same for a key that is canonical already. *)
Definition Header_get (h : MIMEHeader) (key : string) : string :=
  match h !! key with
  | Some (v :: _) => v
  | _ => ""
  end.

Definition Header_Set (h : MIMEHeader) (key value : string) : MIMEHeader :=
  <[textproto.CanonicalMIMEHeaderKey key := [value]]> h.

(** *** [http.Request] *)

Record Request : Type := {
  Method : string;
  URL : url.URL;
  ProtoMajor : Z;
  ProtoMinor : Z;
  Header : MIMEHeader;
  Host : string;
  RequestURI : string
}.

Definition ProtoAtLeast (r : Request) (major minor : Z) : bool :=
  (major <? ProtoMajor r)
  || ((ProtoMajor r =? major) && (minor <=? ProtoMinor r)).

(** [r2 := new(Request); *r2 = *r; r2.URL = new(url.URL); *r2.URL = *r.URL;
    r2.URL.Path = p; r2.URL.RawPath = rp] *)
Definition withPath (r : Request) (p rp : string) : Request :=
  {| Method := Method r; URL := url.withPath (URL r) p rp;
     ProtoMajor := ProtoMajor r; ProtoMinor := ProtoMinor r;
     Header := Header r; Host := Host r; RequestURI := RequestURI r |}.

(** *** [http.ResponseWriter], as implemented by [*response] *)

(** The response the server hands to the handler of a request. *)
Definition newResponse (method : string) : response :=
  {| reqMethod := method; handlerHeader := ∅; wroteHeader := false;
     status := 0; contentLength := -1; written := 0; body := "" |}.

(** [w.Header().Set(key, value)] *)
Definition SetHeader (key value : string) : Go unit := fun w =>
  let r := resp w in
  Returned tt (withResp w
    {| reqMethod := reqMethod r;
       handlerHeader := Header_Set (handlerHeader r) key value;
       wroteHeader := wroteHeader r; status := status r;
       contentLength := contentLength r; written := written r;
       body := body r |}).

(** [w.WriteHeader(code)].  A second call changes nothing and is
    reported through [Server.logf], which is [log.Printf] for a server
    without [ErrorLog]; a code outside 100..999 panics
    ([checkWriteHeaderCode]); a [Content-Length] the handler has set is
    taken over when it parses, dropped and reported when it does not. *)
Definition WriteHeader (code : Z) : Go unit := fun w =>
  let r := resp w in
  if wroteHeader r then
    Returned tt (withLog w (stdlog w ++
      [LogPrintf "http: superfluous response.WriteHeader call from %s (%s:%d)"
         [ArgCaller]]))
  else if (code <? 100) || (999 <? code) then
    Panicked "invalid WriteHeader code" w
  else
    let cl := Header_get (handlerHeader r) "Content-Length" in
    let set hdr len :=
      {| reqMethod := reqMethod r; handlerHeader := hdr;
         wroteHeader := true; status := code;
         contentLength := len; written := written r; body := body r |} in
    if String.eqb cl "" then
      Returned tt (withResp w (set (handlerHeader r) (contentLength r)))
    else
      match strconv.ParseInt10 cl with
      | Some v =>
          if 0 <=? v
          then Returned tt (withResp w (set (handlerHeader r) v))
          else Returned tt (withResp
                 (withLog w (stdlog w ++
                    [LogPrintf "http: invalid Content-Length of %q" [ArgString cl]]))
                 (set (delete "Content-Length" (handlerHeader r)) (contentLength r)))
      | None =>
          Returned tt (withResp
            (withLog w (stdlog w ++
               [LogPrintf "http: invalid Content-Length of %q" [ArgString cl]]))
            (set (delete "Content-Length" (handlerHeader r)) (contentLength r)))
      end.

Definition bodyAllowedForStatus (status : Z) : bool :=
  if (100 <=? status) && (status <=? 199) then false
  else if status =? 204 then false
  else if status =? 304 then false
  else true.

(** The part of [response.write] after the header has been written. *)
Definition writeBody (data : string) : Go (Z * option error) := fun w =>
  let r := resp w in
  let len := Z.of_nat (String.length data) in
  if len =? 0 then Returned (0, None) w
  else if negb (bodyAllowedForStatus (status r)) then
    Returned (0, Some ErrBodyNotAllowed) w
  else
    let count b :=
      {| reqMethod := reqMethod r; handlerHeader := handlerHeader r;
         wroteHeader := wroteHeader r; status := status r;
         contentLength := contentLength r; written := written r + len;
         body := b |} in
    if negb (contentLength r =? -1) && (contentLength r <? written r + len)
    then Returned (0, Some ErrContentLength) (withResp w (count (body r)))
    else if String.eqb (reqMethod r) "HEAD"
    then Returned (len, None) (withResp w (count (body r)))
    else Returned (len, None) (withResp w (count (body r +:+ data))).

(** [w.Write(data)]: the first write calls [WriteHeader(StatusOK)] when
    the handler has not written a header itself. *)
Definition Write (data : string) : Go (Z * option error) := fun w =>
  if wroteHeader (resp w) then writeBody data w
  else (WriteHeader StatusOK ;; writeBody data) w.

(** *** Handlers *)

(** [http.Handler]: the method [ServeHTTP(w, r)], with the response
    writer [w] in the state. *)
Definition Handler : Type := Request -> Go unit.

(** [http.Error] and [http.NotFound] *)
Definition Error (message : string) (code : Z) : Go unit :=
  SetHeader "Content-Type" "text/plain; charset=utf-8" ;;
  SetHeader "X-Content-Type-Options" "nosniff" ;;
  WriteHeader code ;;
  _ ← Write (message +:+ LF);
  mret tt.

Definition NotFound : Handler := fun _ => Error "404 page not found" StatusNotFound.

(** What the model takes from the rest of the library as it is:
    [stripHostPort] (it goes through [net.SplitHostPort]) and the handler
    [RedirectHandler(u.String(), code)] for a URL [u]. *)
Class Library : Type := {
  stripHostPort : string -> string;
  RedirectHandler : url.URL -> Z -> Handler
}.

(** [StripPrefix(prefix, h)] *)
Definition StripPrefix (prefix : string) (h : Handler) : Handler :=
  if String.eqb prefix "" then h
  else fun r =>
    let p := strings.TrimPrefix (url.Path (URL r)) prefix in
    let rp := strings.TrimPrefix (url.RawPath (URL r)) prefix in
    if (String.length p <? String.length (url.Path (URL r)))%nat
       && (String.eqb (url.RawPath (URL r)) ""
           || (String.length rp <? String.length (url.RawPath (URL r)))%nat)
    then h (withPath r p rp)
    else NotFound r.

(** *** [http.ServeMux] *)

Record muxEntry : Type := { h : Handler; pattern : string }.

Record ServeMux : Type := {
  m : gmap string muxEntry;
  es : list muxEntry;      (* entries ending in "/", longest first *)
  hosts : bool             (* whether any pattern contains a host name *)
}.

Definition NewServeMux : ServeMux := {| m := ∅; es := []; hosts := false |}.

(** [appendSorted]: [e] goes in front of the first entry with a shorter
    pattern.  (Go finds that entry with [sort.Search]; in a slice kept
    longest first the binary search returns the first such index.) *)
Fixpoint appendSorted (es : list muxEntry) (e : muxEntry) : list muxEntry :=
  match es with
  | [] => [e]
  | x :: rest =>
      if (String.length (pattern x) <? String.length (pattern e))%nat
      then e :: es
      else x :: appendSorted rest e
  end.

(** [mux.Handle(pattern, handler)]; [None] when Go panics (empty
    pattern, pattern registered twice). *)
Definition ServeMux_Handle (pat : string) (handler : Handler) (mux : ServeMux)
    : option ServeMux :=
  if String.eqb pat "" then None
  else
    match m mux !! pat with
    | Some _ => None
    | None =>
        let e := {| h := handler; pattern := pat |} in
        Some {| m := <[pat := e]> (m mux);
                es := if strings.endsWithSlash pat
                      then appendSorted (es mux) e else es mux;
                hosts := hosts mux || negb (strings.startsWithSlash pat) |}
    end.

(** [mux.HandleFunc(pattern, f)] is [mux.Handle(pattern, HandlerFunc(f))]. *)
Definition ServeMux_HandleFunc := ServeMux_Handle.

(** [mux.match(path)] *)
Definition ServeMux_match (mux : ServeMux) (path : string)
    : option (Handler * string) :=
  match m mux !! path with
  | Some v => Some (h v, pattern v)
  | None =>
      match List.find (fun e => strings.HasPrefix path (pattern e)) (es mux) with
      | Some e => Some (h e, pattern e)
      | None => None
      end
  end.

(** [mux.handler(host, path)] *)
Definition ServeMux_handler (mux : ServeMux) (host path : string)
    : Handler * string :=
  let hostMatch :=
    if hosts mux then ServeMux_match mux (host +:+ path) else None in
  match hostMatch with
  | Some hp => hp
  | None =>
      match ServeMux_match mux path with
      | Some hp => hp
      | None => (NotFound, "")
      end
  end.

(** [mux.shouldRedirectRLocked(host, path)] *)
Definition shouldRedirectRLocked (mux : ServeMux) (host path : string) : bool :=
  let p := [path; host +:+ path] in
  if existsb (fun c => bool_decide (is_Some (m mux !! c))) p then false
  else if String.eqb path "" then false
  else if existsb (fun c => bool_decide (is_Some (m mux !! (c +:+ "/")))) p
  then negb (strings.endsWithSlash path)
  else false.

(** [mux.redirectToPathSlash(host, path, u)] *)
Definition redirectToPathSlash (mux : ServeMux) (host path : string)
    (u : url.URL) : option url.URL :=
  if shouldRedirectRLocked mux host path
  then Some {| url.Host := ""; url.Path := path +:+ "/"; url.RawPath := "";
               url.RawQuery := url.RawQuery u |}
  else None.

(** [cleanPath] *)
Definition cleanPath (p : string) : string :=
  if String.eqb p "" then "/"
  else
    let p := if strings.startsWithSlash p then p else "/" +:+ p in
    let np := path.Clean p in
    if strings.endsWithSlash p && negb (String.eqb np "/") then
      if (String.length p =? String.length np + 1)%nat && strings.HasPrefix p np
      then p else np +:+ "/"
    else np.

Section Serving.

Context `{Library}.

(** [mux.Handler(r)] *)
Definition ServeMux_Handler (mux : ServeMux) (r : Request) : Handler * string :=
  if String.eqb (Method r) "CONNECT" then
    match redirectToPathSlash mux (url.Host (URL r)) (url.Path (URL r)) (URL r) with
    | Some u => (RedirectHandler u StatusMovedPermanently, url.Path u)
    | None => ServeMux_handler mux (Host r) (url.Path (URL r))
    end
  else
    let host := stripHostPort (Host r) in
    let path := cleanPath (url.Path (URL r)) in
    match redirectToPathSlash mux host path (URL r) with
    | Some u => (RedirectHandler u StatusMovedPermanently, url.Path u)
    | None =>
        if negb (String.eqb path (url.Path (URL r))) then
          let '(_, pat) := ServeMux_handler mux host path in
          (RedirectHandler
             {| url.Host := ""; url.Path := path; url.RawPath := "";
                url.RawQuery := url.RawQuery (URL r) |}
             StatusMovedPermanently, pat)
        else ServeMux_handler mux host (url.Path (URL r))
    end.

(** [mux.ServeHTTP(w, r)] *)
Definition ServeMux_ServeHTTP (mux : ServeMux) : Handler := fun r =>
  if String.eqb (RequestURI r) "*" then
    (if ProtoAtLeast r 1 1 then SetHeader "Connection" "close" else mret tt) ;;
    WriteHeader StatusBadRequest
  else
    let '(h, _) := ServeMux_Handler mux r in
    h r.

End Serving.

(** *** [http.Server]: the fields the repository sets. *)
Record Server : Type := {
  Addr : string;
  ReadTimeout : Z;
  WriteTimeout : Z;
  IdleTimeout : Z;
  Server_Handler : Handler
}.

End http.

(** ** Package [github.com/justinas/alice]: [alice.New(cs...).Then(h)]
    wraps [h] in the constructors, the first one outermost. *)

Module alice.

Definition Constructor : Type := http.Handler -> http.Handler.

Definition Then (constructors : list Constructor) (h : http.Handler) : http.Handler :=
  fold_right (fun c inner => c inner) h constructors.

End alice.

(** ** The [io] example (package [main], in [concepts/json/json_test.go]
    after the test) *)

(** Go's [int] on a 64-bit platform: the result of an addition wraps. *)
Definition wrap64 (z : Z) : Z := (z + 2 ^ 63) mod 2 ^ 64 - 2 ^ 63.

(** [(b >= 'A' && b <= 'Z') || (b >= 'a' && b <= 'z')] *)
Definition isLetterByte (b : ascii) : bool := between 65 90 b || between 97 122 b.

(** The body of [for _, b := range buf[:n]]: [out[string(b)]++] for a
    letter.  A key that is not in the map reads as 0. *)
Definition countByte (out : gmap string Z) (b : ascii) : gmap string Z :=
  if isLetterByte b
  then <[String b EmptyString := wrap64 (default 0 (out !! String b EmptyString) + 1)]> out
  else out.

(** [func countLetter(r io.Reader) (map[string]int, error)]: the map and
    the error returned ([nil] is [None]) and the state the reader is left
    in; [None] when the loop has not returned after [fuel] rounds. *)
Fixpoint countLetter_loop {R : Type} `{io.Reader R} (fuel : nat) (r : R)
    (out : gmap string Z) : option (option (gmap string Z) * option error * R) :=
  match fuel with
  | O => None
  | S fuel' =>
      let '(chunk, err, r') := io.Read r 2048%nat in
      let out' := fold_left countByte (bytes chunk) out in
      match err with
      | Some io_EOF => Some (Some out', None, r')
      | Some e => Some (None, Some e, r')
      | None => countLetter_loop fuel' r' out'
      end
  end.

Definition countLetter {R : Type} `{io.Reader R} (fuel : nat) (r : R)
    : option (option (gmap string Z) * option error * R) :=
  countLetter_loop fuel r ∅.

(** [type ourReader struct{}] and its [Read], which returns [0, nil]. *)
Inductive ourReader : Type := OurReader.

#[global] Instance ourReader_Read : io.Reader ourReader := fun r _ =>
  (EmptyString, None, r).

(** ** [concepts/net/http/main.go] *)

(** ** [func parseJson(r *http.Response)] *)

(** The variable [data] of [parseJson]:
    [struct { UserID int `json:"userId"`; ID int `json:"id"`;
    Title string `json:"title"`; Complete bool `json:"completed"` }] *)
Record parseJson_data : Type := {
  UserID : Z;
  ID : Z;
  Title : string;
  Complete : bool
}.

Inductive parseJson_field : Type :=
| fieldUserID | fieldID | fieldTitle | fieldComplete.

Definition fieldName (f : parseJson_field) : string :=
  match f with
  | fieldUserID => "userId"
  | fieldID => "id"
  | fieldTitle => "title"
  | fieldComplete => "completed"
  end.

(** The fields in the order of the struct, which is the order of the
    linear search. *)
Definition parseJson_fields : list parseJson_field :=
  [fieldUserID; fieldID; fieldTitle; fieldComplete].

(** [ff.equalFold(ff.nameBytes, key)] *)
Definition equalFold (f : parseJson_field) (key : string) : bool :=
  match fold.foldFunc (bytes (fieldName f)) with
  | Some eq => eq (bytes (fieldName f)) (bytes key)
  | None => false
  end.

(** The field a key selects in [decodeState.object]: the one with that
    name, and otherwise the first one the key is equal to under
    folding. *)
Definition fieldOf (key : string) : option parseJson_field :=
  match List.find (fun f => String.eqb (fieldName f) key) parseJson_fields with
  | Some f => Some f
  | None => List.find (fun f => equalFold f key) parseJson_fields
  end.

(** What [d.value] stores into a destination of kind [int]: a number
    literal that [strconv.ParseInt] accepts; [null] leaves the
    destination alone. *)
Definition storeInt (v : json.Value) (dst : Z) (saved : option error)
    : Z * option error :=
  match v with
  | json.Number s =>
      match strconv.ParseInt10 s with
      | Some n => (n, saved)
      | None => (dst, json.saveError saved (UnmarshalTypeError ("number " +:+ s)))
      end
  | json.Null => (dst, saved)
  | json.Bool _ => (dst, json.saveError saved (UnmarshalTypeError "bool"))
  | json.Str _ => (dst, json.saveError saved (UnmarshalTypeError "string"))
  | json.Array _ => (dst, json.saveError saved (UnmarshalTypeError "array"))
  | json.Object _ => (dst, json.saveError saved (UnmarshalTypeError "object"))
  end.

(** The same for a destination of kind [bool]. *)
Definition storeBool (v : json.Value) (dst : bool) (saved : option error)
    : bool * option error :=
  match v with
  | json.Bool b => (b, saved)
  | json.Null => (dst, saved)
  | json.Number _ => (dst, json.saveError saved (UnmarshalTypeError "number"))
  | json.Str _ => (dst, json.saveError saved (UnmarshalTypeError "string"))
  | json.Array _ => (dst, json.saveError saved (UnmarshalTypeError "array"))
  | json.Object _ => (dst, json.saveError saved (UnmarshalTypeError "object"))
  end.

(** [decodeState.object] with [data] as destination. *)
Fixpoint decodeData (d : json.Decoder) (members : list (string * json.Value))
    (data : parseJson_data) (saved : option error)
    : parseJson_data * option error :=
  match members with
  | [] => (data, saved)
  | (key, v) :: rest =>
      match fieldOf key with
      | Some fieldUserID =>
          let '(n, saved') := storeInt v (UserID data) saved in
          decodeData d rest
            {| UserID := n; ID := ID data; Title := Title data;
               Complete := Complete data |} saved'
      | Some fieldID =>
          let '(n, saved') := storeInt v (ID data) saved in
          decodeData d rest
            {| UserID := UserID data; ID := n; Title := Title data;
               Complete := Complete data |} saved'
      | Some fieldTitle =>
          let '(s, saved') := json.storeString v (Title data) saved in
          decodeData d rest
            {| UserID := UserID data; ID := ID data; Title := s;
               Complete := Complete data |} saved'
      | Some fieldComplete =>
          let '(b, saved') := storeBool v (Complete data) saved in
          decodeData d rest
            {| UserID := UserID data; ID := ID data; Title := Title data;
               Complete := b |} saved'
      | None =>
          if json.disallowUnknownFields d then
            decodeData d rest data (json.saveError saved (UnknownField key))
          else decodeData d rest data saved
      end
  end.

(** [json.NewDecoder(body).Decode(&data)] for a body that delivers the
    bytes [body] and then [io.EOF]: the struct after the call and the
    error returned. *)
Definition Decode_data (d : json.Decoder) (data : parseJson_data)
    : parseJson_data * option error :=
  match json.readValue (json.reader d) with
  | inl e => (data, Some e)
  | inr (json.Object ms) => decodeData d ms data None
  | inr json.Null => (data, None)
  | inr (json.Bool _) => (data, Some (UnmarshalTypeError "bool"))
  | inr (json.Number _) => (data, Some (UnmarshalTypeError "number"))
  | inr (json.Str _) => (data, Some (UnmarshalTypeError "string"))
  | inr (json.Array _) => (data, Some (UnmarshalTypeError "array"))
  end.

(** [parseJson], as a function of the bytes of the response body: the
    error it panics with, [None] when it returns. *)
Definition parseJson (body : string) : option error :=
  let data := {| UserID := 0; ID := 0; Title := ""; Complete := false |} in
  let '(_, err) := Decode_data (json.NewDecoder body) data in
  err.

(** [func (n NewHandler) ServeHTTP(w http.ResponseWriter, r *http.Request)] *)
Definition NewHandler_ServeHTTP : http.Handler := fun r =>
  http.WriteHeader http.StatusAccepted ;;
  _ ← http.Write ("Hello, world!" +:+ LF);
  mret tt.

(** [func newServer() http.Server] *)
Definition newServer : http.Server :=
  {| http.Addr := ":8000";
     http.ReadTimeout := 30 * time.Second;
     http.WriteTimeout := 30 * time.Second;
     http.IdleTimeout := 120 * time.Second;
     http.Server_Handler := NewHandler_ServeHTTP |}.

(** [func RequestTimer(h http.Handler) http.Handler] *)
Definition RequestTimer (h : http.Handler) : http.Handler := fun r =>
  start ← time.Now;
  h r ;;
  end_ ← time.Now;
  log.Printf "request time for %ss: %v"
    [ArgString (url.Path (http.URL r)); ArgDuration (time.Sub end_ start)].

(** [var securityMsg = []byte("You didn't give the secret password\n")] *)
Definition securityMsg : string := "You didn't give the secret password" +:+ LF.

(** [func TerribleSecurityProvider(password string) func(http.Handler) http.Handler] *)
Definition TerribleSecurityProvider (password : string) (h : http.Handler)
    : http.Handler := fun r =>
  if negb (String.eqb (http.Header_Get (http.Header r) "X-Secret-Password") password)
  then
    http.WriteHeader http.StatusUnauthorized ;;
    _ ← http.Write securityMsg;
    mret tt
  else h r.

(** [func helloWorldHandler(w http.ResponseWriter, r *http.Request)] *)
Definition helloWorldHandler : http.Handler := fun r =>
  _ ← http.Write "hello, world!";
  mret tt.

(** The function literals of [newServeMux], [parentChildMux] and
    [muxWithMiddleware], under the names the Go compiler gives them. *)
Definition newServeMux_func1 : http.Handler := fun r =>
  _ ← http.Write ("ok!" +:+ LF);
  mret tt.

Definition newServeMux_func2 : http.Handler := fun r =>
  _ ← http.Write ("always" +:+ LF);
  mret tt.

Definition parentChildMux_func1 : http.Handler := fun r =>
  _ ← http.Write "This is a user!";
  mret tt.

Definition parentChildMux_func2 : http.Handler := fun r =>
  _ ← http.Write "This is a record!";
  mret tt.

Definition muxWithMiddleware_func1 : http.Handler := fun r =>
  _ ← http.Write ("Hello, world!" +:+ LF);
  mret tt.

(** [func muxWithMiddleware()]: the router the function builds ([None] if
    the registration panics). *)
Definition muxWithMiddleware : option http.ServeMux :=
  let ts := TerribleSecurityProvider "PASSWORD" in
  http.ServeMux_Handle "/hello" (ts (RequestTimer muxWithMiddleware_func1))
    http.NewServeMux.

Section Main.

Context `{http.Library}.

(** [func newServeMux()]: the function builds the router [m] and the
    server around it and then serves; the model stops at the server
    value ([None] if a registration panics). *)
Definition newServeMux : option http.Server :=
  m ← http.ServeMux_HandleFunc "/alive" newServeMux_func1 http.NewServeMux;
  m ← http.ServeMux_HandleFunc "ready" newServeMux_func2 m;
  Some {| http.Addr := ":8000";
          http.ReadTimeout := 30 * time.Second;
          http.WriteTimeout := 30 * time.Second;
          http.IdleTimeout := 120 * time.Second;
          http.Server_Handler := http.ServeMux_ServeHTTP m |}.

(** [func parentChildMux()]: the three routers the function builds,
    [user], [record] and [mux], as they are when it returns. *)
Definition parentChildMux : option (http.ServeMux * http.ServeMux * http.ServeMux) :=
  user ← http.ServeMux_HandleFunc "/fetch" parentChildMux_func1 http.NewServeMux;
  record ← http.ServeMux_HandleFunc "/fetch" parentChildMux_func2 http.NewServeMux;
  mux ← http.ServeMux_Handle "/user/"
          (http.StripPrefix "/user" (http.ServeMux_ServeHTTP user)) http.NewServeMux;
  mux ← http.ServeMux_Handle "/record"
          (http.StripPrefix "/record" (http.ServeMux_ServeHTTP record)) mux;
  Some (user, record, mux).

End Main.

(** [func timeoutHandler(h http.Handler) http.Handler] and
    [func aliceWithMiddleWare()], over [http.TimeoutHandler], which the
    model takes as it is; of [aliceWithMiddleWare] the server value it
    serves with. *)
Section Alice.

Variable TimeoutHandler : http.Handler -> Z -> string -> http.Handler.

Definition timeoutHandler (h : http.Handler) : http.Handler :=
  TimeoutHandler h (1 * time.Second) "timed out".

Definition aliceWithMiddleWare : http.Server :=
  let ts := TerribleSecurityProvider "PASSWORD" in
  let handler := helloWorldHandler in
  let a := alice.Then [ts; timeoutHandler] handler in
  {| http.Addr := ":8000";
     http.ReadTimeout := 30 * time.Second;
     http.WriteTimeout := 30 * time.Second;
     http.IdleTimeout := 120 * time.Second;
     http.Server_Handler := a |}.

End Alice.



(** ** Vocabulary of the statements about [marshal] *)

(** An object member that selects no field of [testJSON]. *)
Definition unknownMember (kv : string * json.Value) : bool :=
  negb (isNameKey kv.1).

(** An object member that selects [Name] and holds something that is
    neither a string nor [null]. *)
Definition mismatchedMember (kv : string * json.Value) : bool :=
  isNameKey kv.1
  && match kv.2 with
     | json.Str _ | json.Null => false
     | _ => true
     end.

(** The input does not start with a well-formed JSON value. *)
Definition malformed (b : string) : Prop :=
  ∃ e, json.readValue b = inl e.

(** The input holds a value of the wrong type: at the top level something
    other than an object or [null], or a wrong value for [Name]. *)
Definition mismatched (b : string) : Prop :=
  ∃ v, json.readValue b = inr v ∧
       match v with
       | json.Object ms => existsb mismatchedMember ms = true
       | json.Null => False
       | _ => True
       end.

(** The input is an object with a member that is not a field. *)
Definition hasUnknownField (b : string) : Prop :=
  ∃ ms, json.readValue b = inr (json.Object ms) ∧ existsb unknownMember ms = true.

(** [Name] after the members [ms] have been stored over [old]: the string
    of the last member that selects [Name] and holds a string. *)
Definition populatedName (ms : list (string * json.Value)) (old : string) : string :=
  fold_left
    (fun acc kv =>
       if isNameKey kv.1
       then match kv.2 with json.Str s => s | _ => acc end
       else acc)
    ms old.

Definition populated (b : string) (tj : testJSON) : testJSON :=
  match json.readValue b with
  | inr (json.Object ms) => {| Name := populatedName ms (Name tj) |}
  | _ => tj
  end.

(** ** Vocabulary of the statements about the handlers *)

(** The state an outcome leaves behind. *)
Definition final {A : Type} (o : Outcome A) : World :=
  match o with
  | Returned _ w => w
  | Panicked _ w => w
  end.

(** Nothing of the response has been written yet, no length is declared
    for it, and it does not answer a [HEAD] request: the next [Write] goes
    into the body. *)
Definition pending (rs : response) : Prop :=
  wroteHeader rs = false
  ∧ contentLength rs = -1
  ∧ http.Header_get (handlerHeader rs) "Content-Length" = ""
  ∧ reqMethod rs ≠ "HEAD".

(** The response [rs] after [WriteHeader(code)] has gone through. *)
Definition headed (code : Z) (rs : response) : response :=
  {| reqMethod := reqMethod rs; handlerHeader := handlerHeader rs;
     wroteHeader := true; status := code;
     contentLength := contentLength rs; written := written rs;
     body := body rs |}.

(** The response [rs] after [WriteHeader(code)] and [Write(data)] have
    gone through. *)
Definition answered (code : Z) (data : string) (rs : response) : response :=
  {| reqMethod := reqMethod rs; handlerHeader := handlerHeader rs;
     wroteHeader := true; status := code;
     contentLength := contentLength rs;
     written := written rs + Z.of_nat (String.length data);
     body := body rs +:+ data |}.

(** The state after one more reading of the clock. *)
Definition tick (w : World) : World :=
  {| resp := resp w; stdlog := stdlog w; clock := clock w; reads := S (reads w) |}.

(** The line [RequestTimer] prints for a request [r] that it started at
    clock reading [start] and finished at reading [stop]. *)
Definition timerRecord (r : http.Request) (start stop : Z) : LogEntry :=
  LogPrintf "request time for %ss: %v"
    [ArgString (url.Path (http.URL r)); ArgDuration (time.Sub stop start)].

(** The state [RequestTimer] leaves when the inner handler has left [w2]
    and the timer was entered in [w]. *)
Definition timed (r : http.Request) (w w2 : World) : World :=
  {| resp := resp w2;
     stdlog := stdlog w2 ++ [timerRecord r (clock w (reads w)) (clock w2 (reads w2))];
     clock := clock w2;
     reads := S (reads w2) |}.

(** A middleware with a phase before and a phase after the handler it
    wraps; what the first phase computes is handed to the second. *)
Record Phased : Type := {
  carrier : Type;
  pre : http.Request -> Go carrier;
  post : carrier -> http.Request -> Go unit
}.

Definition around (p : Phased) : alice.Constructor := fun h r =>
  a ← pre p r;
  h r ;;
  post p a r.

(** The first phases of [ps], first to last; the result is the list of
    second phases that are now due, the one of the last middleware first. *)
Fixpoint enter (ps : list Phased) (r : http.Request) : Go (list (Go unit)) :=
  match ps with
  | [] => mret []
  | p :: ps' =>
      a ← pre p r;
      due ← enter ps' r;
      mret (due ++ [post p a r])
  end.

Fixpoint leave (due : list (Go unit)) : Go unit :=
  match due with
  | [] => mret tt
  | c :: due' => c ;; leave due'
  end.

(** [RequestTimer] as a middleware with two phases. *)
Definition timerPhases : Phased :=
  {| carrier := Z;
     pre := fun _ => time.Now;
     post := fun start r =>
       end_ ← time.Now;
       log.Printf "request time for %ss: %v"
         [ArgString (url.Path (http.URL r)); ArgDuration (time.Sub end_ start)] |}.

(** Calls on a response writer, and a handler body that makes them in
    turn. *)
Inductive SinkCall : Type :=
| CallSetHeader (key value : string)
| CallWriteHeader (code : Z)
| CallWrite (data : string).

Definition call (c : SinkCall) : Go unit :=
  match c with
  | CallSetHeader k v => http.SetHeader k v
  | CallWriteHeader code => http.WriteHeader code
  | CallWrite data => _ ← http.Write data; mret tt
  end.

Fixpoint calls (cs : list SinkCall) : Go unit :=
  match cs with
  | [] => mret tt
  | c :: cs' => call c ;; calls cs'
  end.

(** A handler that fails: [w.WriteHeader(0)] panics with "invalid
    WriteHeader code 0". *)
Definition panicking : http.Handler := fun _ => http.WriteHeader 0.

(** A router put together by [NewServeMux] and calls of [Handle]. *)
Inductive registered : http.ServeMux -> Prop :=
| registered_new : registered http.NewServeMux
| registered_Handle pat handler mux mux' :
    registered mux ->
    http.ServeMux_Handle pat handler mux = Some mux' ->
    registered mux'.

(** The order [appendSorted] keeps [es] in, and what holds of a router
    between two registrations. *)
Definition longer_first (a b : http.muxEntry) : Prop :=
  (String.length (http.pattern b) <= String.length (http.pattern a))%nat.

Record consistent (mux : http.ServeMux) : Prop := {
  consistent_key : ∀ pat e, http.m mux !! pat = Some e → http.pattern e = pat;
  consistent_es : ∀ e, In e (http.es mux) →
    http.m mux !! http.pattern e = Some e
    ∧ strings.endsWithSlash (http.pattern e) = true;
  consistent_slash : ∀ pat e, http.m mux !! pat = Some e →
    strings.endsWithSlash pat = true → In e (http.es mux);
  consistent_sorted : StronglySorted longer_first (http.es mux)
}.

(** A request as the server builds it for the request line
    [GET path HTTP/1.1] and the given header. *)
Definition GET (host path : string) (header : MIMEHeader) : http.Request :=
  {| http.Method := "GET";
     http.URL := {| url.Host := ""; url.Path := path; url.RawPath := "";
                    url.RawQuery := "" |};
     http.ProtoMajor := 1; http.ProtoMinor := 1;
     http.Header := header; http.Host := host; http.RequestURI := path |}.

(** The state in which the server calls the handler of a [GET] request:
    a new response, nothing logged, a clock that advances by one
    millisecond per reading. *)
Definition start : World :=
  {| resp := http.newResponse "GET"; stdlog := [];
     clock := fun n => Z.of_nat n * 1000000; reads := 0 |}.

(** A stand-in for the two library functions the model takes as they are,
    for running the model on examples: hosts without ports, and a redirect
    that writes the status only. *)
Definition plainLibrary : http.Library :=
  {| http.stripHostPort := fun host => host;
     http.RedirectHandler := fun _ code _ => http.WriteHeader code |}.

(** The router [newServeMux] has built when it starts the server. *)
Definition aliveReady : http.ServeMux :=
  {| http.m :=
       <["ready" := {| http.h := newServeMux_func2; http.pattern := "ready" |}]>
         (<["/alive" := {| http.h := newServeMux_func1; http.pattern := "/alive" |}]> ∅);
     http.es := [];
     http.hosts := true |}.

(** The routers [parentChildMux] has built when it returns. *)
Definition userMux : http.ServeMux :=
  {| http.m :=
       <["/fetch" := {| http.h := parentChildMux_func1; http.pattern := "/fetch" |}]> ∅;
     http.es := [];
     http.hosts := false |}.

Definition recordMux : http.ServeMux :=
  {| http.m :=
       <["/fetch" := {| http.h := parentChildMux_func2; http.pattern := "/fetch" |}]> ∅;
     http.es := [];
     http.hosts := false |}.

Definition userEntry `{http.Library} : http.muxEntry :=
  {| http.h := http.StripPrefix "/user" (http.ServeMux_ServeHTTP userMux);
     http.pattern := "/user/" |}.

Definition recordEntry `{http.Library} : http.muxEntry :=
  {| http.h := http.StripPrefix "/record" (http.ServeMux_ServeHTTP recordMux);
     http.pattern := "/record" |}.

Definition parentMux `{http.Library} : http.ServeMux :=
  {| http.m := <["/record" := recordEntry]> (<["/user/" := userEntry]> ∅);
     http.es := [userEntry];
     http.hosts := false |}.

(** ** Vocabulary of the statements about [countLetter] *)

(** Reading from [r] until the first error delivers [data] and ends with
    the error [e], leaving the reader in [r']. *)
Inductive reading {R : Type} `{io.Reader R} : R -> string -> error -> R -> Prop :=
| reading_last r chunk e r' :
    io.Read r 2048%nat = (chunk, Some e, r') ->
    reading r chunk e r'
| reading_more r chunk r1 data e r' :
    io.Read r 2048%nat = (chunk, None, r1) ->
    reading r1 data e r' ->
    reading r (chunk +:+ data) e r'.

(** What the map of letter counts of [data] holds under [key]: the number
    of times the letter occurs, for a key that is one letter that occurs. *)
Definition letterCount (data : list ascii) (key : string) : option Z :=
  match key with
  | String c EmptyString =>
      if isLetterByte c && negb (count_occ ascii_dec data c =? 0)%nat
      then Some (Z.of_nat (count_occ ascii_dec data c))
      else None
  | _ => None
  end.

(** A reader that fails at once, like [iotest.ErrReader(e)]. *)
Inductive ErrReader : Type := ErrReaderOf (e : error).

#[global] Instance ErrReader_Read : io.Reader ErrReader := fun r _ =>
  match r with ErrReaderOf e => (EmptyString, Some e, r) end.

(** ** More vocabulary for [marshal] *)

(** A byte that stands for itself between the quotes of a JSON string:
    printable ASCII other than the quote and the backslash. *)
Definition plainByte (c : ascii) : bool :=
  negb (c =? QUOTE)%char && negb (c =? BACKSLASH)%char
  && (32 <=? code c)%N && (code c <? 128)%N.

(** The literal a scanner is in the middle of is [true], [false] or
    [null]. *)
Definition plainLiteral (s : json.scanner) : Prop :=
  match json.step s with
  | json.stateLiteral _ (json.Bool _) | json.stateLiteral _ json.Null => True
  | json.stateLiteral _ _ => False
  | _ => True
  end.

(** The lower-case form of an ASCII letter. *)
Definition asciiLower (c : ascii) : ascii :=
  if isUpper c then byte_of (code c + 32) else c.

(** The error a member of the input object gives rise to, and the first
    such error among the members. *)
Definition memberFault (kv : string * json.Value) : option error :=
  if isNameKey kv.1 then
    match kv.2 with
    | json.Str _ | json.Null => None
    | json.Bool _ => Some (UnmarshalTypeError "bool")
    | json.Number _ => Some (UnmarshalTypeError "number")
    | json.Array _ => Some (UnmarshalTypeError "array")
    | json.Object _ => Some (UnmarshalTypeError "object")
    end
  else Some (UnknownField kv.1).

Fixpoint firstFault (ms : list (string * json.Value)) : option error :=
  match ms with
  | [] => None
  | kv :: rest =>
      match memberFault kv with
      | Some e => Some e
      | None => firstFault rest
      end
  end.

(** ** Vocabulary of the further statements *)

(** The router [NewServeMux] and one [Handle] build for a rooted
    pattern [pat] that does not end in a slash. *)
Definition single (pat : string) (handler : http.Handler) : http.ServeMux :=
  {| http.m := <[pat := {| http.h := handler; http.pattern := pat |}]> ∅;
     http.es := [];
     http.hosts := false |}.

(** The URL the router redirects a request [r] to when it sends it to the
    path [p]: the path and the query of the request, nothing else. *)
Definition movedTo (p : string) (r : http.Request) : url.URL :=
  {| url.Host := ""; url.Path := p; url.RawPath := "";
     url.RawQuery := url.RawQuery (http.URL r) |}.

(** A request as the server builds it for the request line
    [CONNECT host HTTP/1.1]. *)
Definition CONNECT (host : string) : http.Request :=
  {| http.Method := "CONNECT";
     http.URL := {| url.Host := host; url.Path := ""; url.RawPath := "";
                    url.RawQuery := "" |};
     http.ProtoMajor := 1; http.ProtoMinor := 1;
     http.Header := ∅; http.Host := host; http.RequestURI := host |}.



(** A stand-in for [http.TimeoutHandler], for running the model on
    examples: the handler itself, as when it returns in time. *)
Definition inTime (h : http.Handler) (dt : Z) (msg : string) : http.Handler := h.

(** A value a field of [data] takes: [null] for every field, a number
    within the range of [int], written without fraction and exponent,
    for the two numbers, a string for the title, a boolean for
    [Complete]. *)
Definition fits (f : parseJson_field) (v : json.Value) : bool :=
  match v with
  | json.Null => true
  | json.Number s =>
      match f with
      | fieldUserID | fieldID => bool_decide (is_Some (strconv.ParseInt10 s))
      | _ => false
      end
  | json.Str _ => match f with fieldTitle => true | _ => false end
  | json.Bool _ => match f with fieldComplete => true | _ => false end
  | _ => false
  end.

(** A member that selects a field and holds a value the field does not
    take. *)
Definition misfit (kv : string * json.Value) : bool :=
  match fieldOf kv.1 with
  | Some f => negb (fits f kv.2)
  | None => false
  end.

(** The body of the todo the request of [newReq] asks for, as the
    service sends it, on one line. *)
Definition todoBody : string :=
  "{" +:+ quoted "userId" +:+ ": 1, " +:+ quoted "id" +:+ ": 1, "
  +:+ quoted "title" +:+ ": " +:+ quoted "delectus aut autem" +:+ ", "
  +:+ quoted "completed" +:+ ": false}".

(** A key in ASCII, and the UTF-8 encoding of the long s, U+017F. *)
Definition asciiKey (key : string) : bool :=
  forallb (fun c => (code c <? 128)%N) (bytes key).

Definition longEss : string := String (byte_of 197) (String (byte_of 191) "").

(** ** [marshal]: what is stored and when it fails *)

Section MarshalFacts.

Implicit Types (ms : list (string * json.Value)) (tj : testJSON).

Lemma saveError_is_Some saved e : is_Some (json.saveError saved e).
Proof. destruct saved; simpl; eauto. Qed.

Lemma saveError_Some e0 e : json.saveError (Some e0) e = Some e0.
Proof. reflexivity. Qed.

Lemma decodeObject_app d ms1 ms2 tj saved :
  decodeObject d (ms1 ++ ms2) tj saved =
  decodeObject d ms2 (decodeObject d ms1 tj saved).1 (decodeObject d ms1 tj saved).2.
Proof.
  revert tj saved.
  induction ms1 as [|[k v] ms1 IH]; intros tj saved; simpl; [done|].
  destruct (isNameKey k).
  - destruct (json.storeString v (Name tj) saved) as [s saved']. apply IH.
  - destruct (json.disallowUnknownFields d); apply IH.
Qed.

(** The struct after the members have been stored, whatever errors were
    saved on the way. *)
Lemma decodeObject_pointee d ms tj saved :
  (decodeObject d ms tj saved).1 = {| Name := populatedName ms (Name tj) |}.
Proof.
  revert tj saved.
  induction ms as [|[k v] ms IH]; intros [n] saved; simpl; [done|].
  unfold populatedName in *; simpl.
  destruct (isNameKey k).
  - destruct v; simpl; apply IH.
  - destruct (json.disallowUnknownFields d); apply IH.
Qed.

(** Once an error is saved it is the one returned. *)
Lemma decodeObject_saved d ms tj e :
  (decodeObject d ms tj (Some e)).2 = Some e.
Proof.
  revert tj.
  induction ms as [|[k v] ms IH]; intros tj; simpl; [done|].
  destruct (isNameKey k).
  - destruct v; simpl; apply IH.
  - destruct (json.disallowUnknownFields d); simpl; apply IH.
Qed.

Lemma decodeObject_error d ms tj :
  json.disallowUnknownFields d = true →
  is_Some (decodeObject d ms tj None).2 ↔
  existsb mismatchedMember ms = true ∨ existsb unknownMember ms = true.
Proof.
  intros Hd. revert tj.
  induction ms as [|[k v] ms IH]; intros tj; simpl.
  - split; [intros [e He]; discriminate | intros [?|?]; discriminate].
  - unfold mismatchedMember at 1, unknownMember at 1; simpl.
    destruct (isNameKey k) eqn:Hk; simpl.
    + destruct v; simpl;
        try (rewrite decodeObject_saved; split; [intros _; by left | eauto]);
        rewrite IH; tauto.
    + rewrite Hd; simpl. rewrite decodeObject_saved.
      split; [intros _; by right | eauto].
Qed.

Lemma marshal_returned b tj :
  returned (marshal b tj)
  = (Decode (json.DisallowUnknownFields (json.NewDecoder b)) tj).2.
Proof. unfold marshal. by destruct (Decode _ tj) as [tj' [e|]]. Qed.

Lemma marshal_pointee b tj :
  pointee (marshal b tj)
  = (Decode (json.DisallowUnknownFields (json.NewDecoder b)) tj).1.
Proof. unfold marshal. by destruct (Decode _ tj) as [tj' [e|]]. Qed.

(** The struct [marshal] leaves behind, error or not. *)
Lemma marshal_pointee_populated b tj : pointee (marshal b tj) = populated b tj.
Proof.
  rewrite marshal_pointee. unfold Decode, populated; simpl.
  destruct (json.readValue b) as [e|v]; [done|].
  destruct v; simpl; try done. apply decodeObject_pointee.
Qed.

Lemma marshal_error_iff b tj :
  is_Some (returned (marshal b tj)) ↔
  malformed b ∨ mismatched b ∨ hasUnknownField b.
Proof.
  rewrite marshal_returned. unfold Decode, malformed, mismatched, hasUnknownField.
  simpl. destruct (json.readValue b) as [e|v] eqn:E; simpl.
  - split; [intros _; left; eauto | eauto].
  - destruct v; simpl.
    + split; [intros [e He]; discriminate|].
      intros [[e He]|[(v & Hv & F)|(ms & Hms & _)]]; try discriminate.
      injection Hv as <-. destruct F.
    + split; [intros _; right; left; by eexists | eauto].
    + split; [intros _; right; left; by eexists | eauto].
    + split; [intros _; right; left; by eexists | eauto].
    + split; [intros _; right; left; by eexists | eauto].
    + rewrite decodeObject_error by done. split.
      * intros [Hm|Hu]; right; [left|right]; eauto.
      * intros [[e He]|[(v & Hv & F)|(ms & Hms & F)]]; try discriminate.
        -- injection Hv as <-. by left.
        -- injection Hms as <-. by right.
Qed.

End MarshalFacts.

(** ** Strings *)

Section StringFacts.

Implicit Types (s t p : string) (c : ascii).

Lemma length_append s t :
  String.length (s +:+ t) = (String.length s + String.length t)%nat.
Proof. induction s as [|c s IH]; simpl; [done | by rewrite IH]. Qed.

Lemma bytes_append s t : bytes (s +:+ t) = bytes s ++ bytes t.
Proof. induction s as [|c s IH]; simpl; [done | by rewrite IH]. Qed.

Lemma append_cons c s t : String c s +:+ t = String c (s +:+ t).
Proof. reflexivity. Qed.

Lemma append_nil_r s : s +:+ "" = s.
Proof. induction s as [|c s IH]; [done|]. by rewrite append_cons, IH. Qed.

Lemma append_assoc s t p : (s +:+ t) +:+ p = s +:+ (t +:+ p).
Proof. induction s as [|c s IH]; [done|]. by rewrite !append_cons, IH. Qed.

Lemma ascii_eqb_refl c : (c =? c)%char = true.
Proof. apply Ascii.eqb_refl. Qed.

Lemma HasPrefix_append p t : strings.HasPrefix (p +:+ t) p = true.
Proof.
  induction p as [|c p IH]; [reflexivity|].
  rewrite append_cons. simpl. by rewrite ascii_eqb_refl, IH.
Qed.

Lemma HasPrefix_inv s p :
  strings.HasPrefix s p = true → ∃ t, s = p +:+ t.
Proof.
  revert s. induction p as [|c p IH]; intros s Hs.
  - by exists s.
  - destruct s as [|d s]; [discriminate|]. simpl in Hs.
    apply andb_true_iff in Hs as [Hc Hp].
    apply Ascii.eqb_eq in Hc as ->.
    destruct (IH _ Hp) as [t ->]. by exists t.
Qed.

Lemma HasPrefix_length s p :
  strings.HasPrefix s p = true → (String.length p <= String.length s)%nat.
Proof.
  intros Hs. destruct (HasPrefix_inv _ _ Hs) as [t ->].
  rewrite length_append. lia.
Qed.

Lemma drop_append p t : strings.drop (String.length p) (p +:+ t) = t.
Proof.
  induction p as [|c p IH]; [reflexivity|].
  rewrite append_cons. simpl. apply IH.
Qed.

Lemma TrimPrefix_append p t : strings.TrimPrefix (p +:+ t) p = t.
Proof. unfold strings.TrimPrefix. by rewrite HasPrefix_append, drop_append. Qed.

Lemma last_append_char s c : strings.last (s +:+ String c "") = Some c.
Proof.
  induction s as [|d s IH]; [reflexivity|].
  rewrite append_cons. simpl. rewrite IH.
  destruct s; by rewrite ?append_cons.
Qed.

Lemma endsWithSlash_append_slash s : strings.endsWithSlash (s +:+ "/") = true.
Proof. unfold strings.endsWithSlash. by rewrite last_append_char. Qed.

Lemma startsWithSlash_inv s :
  strings.startsWithSlash s = true → ∃ t, s = String "/" t.
Proof.
  destruct s as [|c s]; [discriminate|]. unfold strings.startsWithSlash; simpl.
  intros Hc. apply Ascii.eqb_eq in Hc as ->. by exists s.
Qed.

(** A string that has a slash in it is not a suffix of one that has
    none. *)
Lemma append_slash_bytes s t p :
  s +:+ String "/" t = p → In "/"%char (bytes p).
Proof.
  intros <-. rewrite bytes_append. apply in_or_app. right. by left.
Qed.

End StringFacts.

(** ** [path.Clean] and [cleanPath] give rooted paths *)

Lemma cleanPath_rooted p : strings.startsWithSlash (http.cleanPath p) = true.
Proof.
  unfold http.cleanPath.
  destruct (String.eqb p "") eqn:Ep; [done|].
  set (p' := if strings.startsWithSlash p then p else "/" +:+ p).
  assert (Hp' : strings.startsWithSlash p' = true).
  { subst p'. by destruct (strings.startsWithSlash p) eqn:E. }
  assert (Hnp : strings.startsWithSlash (path.Clean p') = true).
  { unfold path.Clean. rewrite Hp'.
    destruct (String.eqb p' "") eqn:E'; [|done].
    apply String.eqb_eq in E'. by rewrite E' in Hp'. }
  destruct (strings.endsWithSlash p' && negb (String.eqb (path.Clean p') "/")); [|done].
  destruct ((String.length p' =? String.length (path.Clean p') + 1)%nat
            && strings.HasPrefix p' (path.Clean p')); [done|].
  destruct (startsWithSlash_inv _ Hnp) as [t ->]. done.
Qed.

(** ** The router: what [Handle] keeps and what [match] finds *)

Section RouterFacts.

Implicit Types (mux : http.ServeMux) (e x : http.muxEntry).

Lemma appendSorted_In es e x :
  In x (http.appendSorted es e) ↔ x = e ∨ In x es.
Proof.
  induction es as [|y es IH]; simpl.
  - intuition congruence.
  - destruct (_ <? _)%nat; simpl; [|rewrite IH]; intuition congruence.
Qed.

Lemma appendSorted_sorted es e :
  StronglySorted longer_first es →
  StronglySorted longer_first (http.appendSorted es e).
Proof.
  induction 1 as [|y es Hs IH Hall]; simpl.
  - repeat constructor.
  - destruct (Nat.ltb_spec (String.length (http.pattern y))
                           (String.length (http.pattern e))) as [Hlt|Hge].
    + constructor; [by constructor|].
      constructor; [unfold longer_first; lia|].
      eapply List.Forall_impl; [|exact Hall].
      unfold longer_first; intros; lia.
    + constructor; [exact IH|].
      apply List.Forall_forall. intros x Hx.
      apply appendSorted_In in Hx as [->|Hx]; [exact Hge|].
      rewrite List.Forall_forall in Hall. by apply Hall.
Qed.

(** In a list that is sorted, [find] returns an element that comes
    before every other element with the property. *)
Lemma find_first {A} (R : A → A → Prop) (f : A → bool) (l : list A) (a : A) :
  StronglySorted R l →
  List.find f l = Some a →
  In a l ∧ f a = true ∧ ∀ b : A, In b l → f b = true → b = a ∨ R a b.
Proof.
  induction 1 as [|y l Hs IH Hall]; simpl; [discriminate|].
  destruct (f y) eqn:Hy.
  - intros [= <-]. split; [by left|]. split; [done|].
    intros b [<-|Hb] _; [by left|]. right.
    rewrite List.Forall_forall in Hall. by apply Hall.
  - intros Hf. destruct (IH Hf) as (Hin & Ha & Hmin).
    split; [by right|]. split; [done|].
    intros b [<-|Hb] Hfb; [congruence|]. by apply Hmin.
Qed.

Lemma NewServeMux_consistent : consistent http.NewServeMux.
Proof.
  split; simpl.
  - intros pat e. by rewrite lookup_empty.
  - intros e [].
  - intros pat e. by rewrite lookup_empty.
  - constructor.
Qed.

Lemma Handle_consistent pat handler mux mux' :
  consistent mux →
  http.ServeMux_Handle pat handler mux = Some mux' →
  consistent mux'.
Proof.
  intros [Hk He Hs Hso]. unfold http.ServeMux_Handle.
  destruct (String.eqb pat ""); [discriminate|].
  destruct (http.m mux !! pat) eqn:Hl; [discriminate|].
  intros [= <-]. split; simpl.
  - intros pat' e. rewrite lookup_insert. case_decide as Hp.
    + subst pat'. by intros [= <-].
    + apply Hk.
  - intros e Hin.
    assert (Hcase : e = {| http.h := handler; http.pattern := pat |}
                    ∧ strings.endsWithSlash pat = true
                    ∨ In e (http.es mux)).
    { destruct (strings.endsWithSlash pat); [|by right].
      apply appendSorted_In in Hin as [->|Hin]; [by left | by right]. }
    destruct Hcase as [[-> Hsl]|Hin']; simpl.
    + by rewrite lookup_insert_eq.
    + destruct (He _ Hin') as [H1 H2]. split; [|done].
      rewrite lookup_insert_ne; [done|].
      intros ->. rewrite H1 in Hl. discriminate.
  - intros pat' e. rewrite lookup_insert. case_decide as Hp.
    + subst pat'. intros [= <-] Hsl. rewrite Hsl.
      apply appendSorted_In. by left.
    + intros Hl' Hsl. specialize (Hs _ _ Hl' Hsl).
      destruct (strings.endsWithSlash pat); [|done].
      apply appendSorted_In. by right.
  - destruct (strings.endsWithSlash pat); [|done].
    by apply appendSorted_sorted.
Qed.

Lemma registered_consistent mux : registered mux → consistent mux.
Proof.
  induction 1 as [|pat handler mux mux' Hreg IH HH].
  - apply NewServeMux_consistent.
  - eapply Handle_consistent; eauto.
Qed.

(** [match] finds the entry registered under the path itself, and
    otherwise the longest registered pattern that ends in a slash and
    starts the path. *)
Lemma match_found mux path handler pat :
  consistent mux →
  http.ServeMux_match mux path = Some (handler, pat) →
  http.m mux !! pat = Some {| http.h := handler; http.pattern := pat |}
  ∧ (pat = path
     ∨ (http.m mux !! path = None
        ∧ strings.endsWithSlash pat = true
        ∧ strings.HasPrefix path pat = true
        ∧ ∀ pat' e', http.m mux !! pat' = Some e' →
            strings.endsWithSlash pat' = true →
            strings.HasPrefix path pat' = true →
            (String.length pat' <= String.length pat)%nat)).
Proof.
  intros [Hk He Hs Hso]. unfold http.ServeMux_match.
  destruct (http.m mux !! path) as [v|] eqn:E.
  - intros [= <- <-]. pose proof (Hk _ _ E) as Hv.
    destruct v as [hv pv]; simpl in *; subst pv. split; [done | by left].
  - destruct (List.find _ (http.es mux)) as [e|] eqn:F; [|discriminate].
    intros [= <- <-].
    destruct (find_first _ _ _ _ Hso F) as (Hin & Hpre & Hmin).
    destruct (He _ Hin) as [Hm Hsl].
    split; [rewrite Hm; by destruct e|]. right.
    repeat split; try done.
    intros pat' e' Hl' Hsl' Hpre'.
    pose proof (Hk _ _ Hl') as <-.
    destruct (Hmin e' (Hs _ _ Hl' Hsl') Hpre') as [->|Hle]; [done|exact Hle].
Qed.

Lemma match_none mux path :
  consistent mux →
  http.ServeMux_match mux path = None →
  http.m mux !! path = None
  ∧ ∀ pat' e', http.m mux !! pat' = Some e' →
      strings.endsWithSlash pat' = true →
      strings.HasPrefix path pat' = false.
Proof.
  intros [Hk He Hs Hso]. unfold http.ServeMux_match.
  destruct (http.m mux !! path) as [v|] eqn:E; [discriminate|].
  destruct (List.find _ (http.es mux)) as [e|] eqn:F; [discriminate|].
  intros _. split; [done|]. intros pat' e' Hl' Hsl'.
  pose proof (Hk _ _ Hl') as <-.
  exact (List.find_none _ _ F e' (Hs _ _ Hl' Hsl')).
Qed.

End RouterFacts.

(** ** The response writer *)

Section ResponseFacts.

Implicit Types (w : World) (rs : response).

Lemma bind_Returned {A B} (c : Go A) (f : A → Go B) w a w' :
  c w = Returned a w' → (c ≫= f) w = f a w'.
Proof. intros Hc. unfold mbind, Go_bind. by rewrite Hc. Qed.

Lemma bind_Panicked {A B} (c : Go A) (f : A → Go B) w v w' :
  c w = Panicked v w' → (c ≫= f) w = Panicked v w'.
Proof. intros Hc. unfold mbind, Go_bind. by rewrite Hc. Qed.

Lemma length_nonempty (data : string) :
  data ≠ "" → (Z.of_nat (String.length data) =? 0) = false.
Proof. destruct data; [done|]. by intros _. Qed.

Lemma WriteHeader_pending code w :
  pending (resp w) → 100 <= code <= 999 →
  http.WriteHeader code w = Returned tt (withResp w (headed code (resp w))).
Proof.
  intros (Hw & Hc & Hcl & Hm) [Hlo Hhi]. unfold http.WriteHeader.
  rewrite Hw, Hcl. simpl.
  destruct (Z.ltb_spec code 100); [lia|].
  destruct (Z.ltb_spec 999 code); [lia|]. done.
Qed.

(** A second [WriteHeader] leaves the response as it is. *)
Lemma WriteHeader_again code w :
  wroteHeader (resp w) = true →
  ∃ l, http.WriteHeader code w = Returned tt (withLog w (stdlog w ++ [l])).
Proof. intros Hw. unfold http.WriteHeader. rewrite Hw. eauto. Qed.

Lemma writeBody_status data w n w' :
  http.writeBody data w = Returned n w' →
  status (resp w') = status (resp w)
  ∧ wroteHeader (resp w') = wroteHeader (resp w)
  ∧ stdlog w' = stdlog w.
Proof.
  unfold http.writeBody.
  repeat match goal with |- context [if ?b then _ else _] => destruct b end;
    intros [= <- <-]; done.
Qed.

Lemma Write_pending data w :
  pending (resp w) → data ≠ "" →
  http.Write data w
  = Returned (Z.of_nat (String.length data), None)
      (withResp w (answered http.StatusOK data (resp w))).
Proof.
  intros Hp Hd. pose proof Hp as (Hw & Hc & Hcl & Hm).
  unfold http.Write. rewrite Hw.
  erewrite bind_Returned; [|by apply WriteHeader_pending].
  unfold http.writeBody; simpl. rewrite length_nonempty by done.
  rewrite Hc; simpl. apply String.eqb_neq in Hm. rewrite Hm.
  unfold answered, withResp; simpl. by rewrite Hc.
Qed.

Lemma answer_pending code data w :
  pending (resp w) → 100 <= code <= 999 →
  http.bodyAllowedForStatus code = true → data ≠ "" →
  (http.WriteHeader code ;; _ ← http.Write data; mret tt) w
  = Returned tt (withResp w (answered code data (resp w))).
Proof.
  intros Hp Hcode Hb Hd. pose proof Hp as (Hw & Hc & Hcl & Hm).
  erewrite bind_Returned; [|by apply WriteHeader_pending].
  unfold http.Write; simpl.
  unfold http.writeBody, mbind, Go_bind; simpl.
  rewrite length_nonempty by done. rewrite Hb, Hc; simpl.
  apply String.eqb_neq in Hm. rewrite Hm.
  unfold answered, withResp; simpl. by rewrite Hc.
Qed.

Lemma newResponse_pending method :
  method ≠ "HEAD" → pending (http.newResponse method).
Proof. intros Hm. by repeat split. Qed.

End ResponseFacts.

(** ** The two middlewares *)

Section MiddlewareFacts.

Implicit Types (h : http.Handler) (r : http.Request) (w : World).

Lemma RequestTimer_returned h r w w2 :
  h r (tick w) = Returned tt w2 →
  RequestTimer h r w = Returned tt (timed r w w2).
Proof.
  intros Hh. unfold RequestTimer, mbind, Go_bind, time.Now.
  fold (tick w). by rewrite Hh.
Qed.

Lemma RequestTimer_panicked h r w v w2 :
  h r (tick w) = Panicked v w2 →
  RequestTimer h r w = Panicked v w2.
Proof.
  intros Hh. unfold RequestTimer, mbind, Go_bind, time.Now.
  fold (tick w). by rewrite Hh.
Qed.

Lemma RequestTimer_phases h : RequestTimer h = around timerPhases h.
Proof. reflexivity. Qed.

Lemma TerribleSecurityProvider_rejects password h r w :
  http.Header_Get (http.Header r) "X-Secret-Password" ≠ password →
  TerribleSecurityProvider password h r w
  = (http.WriteHeader http.StatusUnauthorized ;;
     _ ← http.Write securityMsg; mret tt) w.
Proof.
  intros Hne. unfold TerribleSecurityProvider.
  apply String.eqb_neq in Hne. by rewrite Hne.
Qed.

Lemma TerribleSecurityProvider_accepts password h r w :
  http.Header_Get (http.Header r) "X-Secret-Password" = password →
  TerribleSecurityProvider password h r w = h r w.
Proof.
  intros He. unfold TerribleSecurityProvider.
  apply String.eqb_eq in He. by rewrite He.
Qed.

Lemma TerribleSecurityProvider_rejects_pending password h r w :
  http.Header_Get (http.Header r) "X-Secret-Password" ≠ password →
  pending (resp w) →
  TerribleSecurityProvider password h r w
  = Returned tt (withResp w (answered http.StatusUnauthorized securityMsg (resp w))).
Proof.
  intros Hne Hp. rewrite TerribleSecurityProvider_rejects by done.
  by apply answer_pending.
Qed.

Lemma canonical_secret_key :
  textproto.CanonicalMIMEHeaderKey "X-Secret-Password" = "X-Secret-Password".
Proof. reflexivity. Qed.

Lemma Header_Get_missing (hdr : MIMEHeader) :
  hdr !! "X-Secret-Password" = None →
  http.Header_Get hdr "X-Secret-Password" = "".
Proof.
  intros Hn. unfold http.Header_Get. by rewrite canonical_secret_key, Hn.
Qed.

Lemma leave_app (due : list (Go unit)) (c : Go unit) w :
  leave (due ++ [c]) w = (leave due ;; c) w.
Proof.
  revert w. induction due as [|d due IH]; intros w; simpl.
  - unfold mbind, Go_bind, mret, Go_ret. destruct (c w) as [[] ?|]; done.
  - unfold mbind, Go_bind. destruct (d w) as [[] w1|]; [|done].
    rewrite IH. done.
Qed.

(** Wrapping a handler in middlewares with two phases runs the first
    phases in the order of the list, then the handler, then the second
    phases in the opposite order. *)
Lemma Then_phases (ps : list Phased) h r w :
  alice.Then (map around ps) h r w = (due ← enter ps r; h r ;; leave due) w.
Proof.
  revert w. induction ps as [|p ps IH]; intros w; simpl.
  - unfold mbind, Go_bind, mret, Go_ret; simpl.
    destruct (h r w) as [[] ?|]; done.
  - unfold around at 1. unfold mbind, Go_bind, mret, Go_ret.
    destruct (pre p r w) as [a w1|]; [|done].
    rewrite IH. unfold mbind, Go_bind.
    destruct (enter ps r w1) as [due w2|]; [|done].
    destruct (h r w2) as [[] w3|]; [|done].
    rewrite leave_app. done.
Qed.

(** The first [WriteHeader] settles the status. *)
Lemma WriteHeader_first code w :
  wroteHeader (resp w) = false → 100 <= code <= 999 →
  ∃ w', http.WriteHeader code w = Returned tt w'
        ∧ wroteHeader (resp w') = true ∧ status (resp w') = code.
Proof.
  intros Hw [Hlo Hhi]. unfold http.WriteHeader. rewrite Hw.
  destruct (Z.ltb_spec code 100); [lia|].
  destruct (Z.ltb_spec 999 code); [lia|]. simpl.
  destruct (String.eqb _ ""); [eauto|].
  destruct (strconv.ParseInt10 _) as [v|]; [destruct (0 <=? v)|]; eauto.
Qed.

Lemma writeBody_returns data w :
  ∃ n w', http.writeBody data w = Returned n w'.
Proof.
  unfold http.writeBody.
  repeat match goal with |- context [if ?b then _ else _] => destruct b end;
    eauto.
Qed.

Lemma call_keeps_status c w :
  wroteHeader (resp w) = true →
  ∃ w', call c w = Returned tt w'
        ∧ wroteHeader (resp w') = true ∧ status (resp w') = status (resp w).
Proof.
  intros Hw. destruct c as [k v|code|data]; simpl.
  - eexists. split; [reflexivity|]. by simpl.
  - destruct (WriteHeader_again code w Hw) as [l Hl]. rewrite Hl.
    eexists. split; [reflexivity|]. by simpl.
  - unfold http.Write, mbind, Go_bind. rewrite Hw.
    destruct (writeBody_returns data w) as (n & w' & Hb). rewrite Hb.
    destruct (writeBody_status _ _ _ _ Hb) as (Hs & Hwr & _).
    eexists. split; [reflexivity|]. by rewrite Hs, Hwr.
Qed.

End MiddlewareFacts.

(** ** The routers of [newServeMux] and [parentChildMux] *)

Section ServeFacts.

Context `{http.Library}.

Implicit Types (r : http.Request) (w : World) (host path k : string).

Lemma newServeMux_router :
  newServeMux =
  Some {| http.Addr := ":8000";
          http.ReadTimeout := 30 * time.Second;
          http.WriteTimeout := 30 * time.Second;
          http.IdleTimeout := 120 * time.Second;
          http.Server_Handler := http.ServeMux_ServeHTTP aliveReady |}.
Proof. reflexivity. Qed.

Lemma parentChildMux_routers :
  parentChildMux = Some (userMux, recordMux, parentMux).
Proof. reflexivity. Qed.

Lemma aliveReady_lookup k :
  http.m aliveReady !! k =
  if decide ("ready" = k)
  then Some {| http.h := newServeMux_func2; http.pattern := "ready" |}
  else if decide ("/alive" = k)
  then Some {| http.h := newServeMux_func1; http.pattern := "/alive" |}
  else None.
Proof.
  unfold aliveReady; simpl. rewrite lookup_insert. case_decide; [done|].
  rewrite lookup_insert. case_decide; [done|]. apply lookup_empty.
Qed.

Lemma rooted_not_ready host path :
  strings.startsWithSlash path = true → "ready" ≠ host +:+ path.
Proof.
  intros Hr Heq. destruct (startsWithSlash_inv _ Hr) as [t ->].
  symmetry in Heq. apply append_slash_bytes in Heq.
  vm_compute in Heq. intuition discriminate.
Qed.

Lemma rooted_alive host path :
  strings.startsWithSlash path = true →
  "/alive" = host +:+ path → path = "/alive".
Proof.
  intros Hr Heq. destruct host as [|c host]; [done|].
  rewrite append_cons in Heq. injection Heq as _ Heq.
  destruct (startsWithSlash_inv _ Hr) as [t ->].
  symmetry in Heq. apply append_slash_bytes in Heq.
  vm_compute in Heq. intuition discriminate.
Qed.

Lemma aliveReady_handler host path :
  strings.startsWithSlash path = true →
  http.ServeMux_handler aliveReady host path =
  if decide (path = "/alive") then (newServeMux_func1, "/alive")
  else (http.NotFound, "").
Proof.
  intros Hr. unfold http.ServeMux_handler, http.ServeMux_match.
  change (http.hosts aliveReady) with true.
  change (http.es aliveReady) with (@nil http.muxEntry). simpl.
  rewrite !aliveReady_lookup.
  destruct (decide ("ready" = host +:+ path)) as [E|_];
    [by apply rooted_not_ready in E|].
  destruct (decide ("/alive" = host +:+ path)) as [E|_].
  { apply rooted_alive in E; [|done]. subst path. by rewrite decide_True. }
  destruct (decide ("ready" = path)) as [<-|_]; [discriminate|].
  destruct (decide ("/alive" = path)) as [<-|Hn]; [done|].
  by rewrite decide_False.
Qed.

Lemma slash_not_registered k :
  http.m aliveReady !! (k +:+ "/") = None.
Proof.
  rewrite aliveReady_lookup.
  pose proof (endsWithSlash_append_slash k) as Hs.
  destruct (decide ("ready" = k +:+ "/")) as [E|_];
    [rewrite <- E in Hs; discriminate|].
  destruct (decide ("/alive" = k +:+ "/")) as [E|_];
    [rewrite <- E in Hs; discriminate|]. done.
Qed.

Lemma aliveReady_no_redirect host path u :
  http.redirectToPathSlash aliveReady host path u = None.
Proof.
  unfold http.redirectToPathSlash, http.shouldRedirectRLocked.
  destruct (existsb _ [path; host +:+ path]); [done|].
  destruct (String.eqb path ""); [done|].
  cbn [existsb]. rewrite !slash_not_registered. reflexivity.
Qed.

Lemma aliveReady_Handler r :
  http.Method r ≠ "CONNECT" →
  http.cleanPath (url.Path (http.URL r)) = url.Path (http.URL r) →
  http.ServeMux_Handler aliveReady r =
  if decide (url.Path (http.URL r) = "/alive")
  then (newServeMux_func1, "/alive") else (http.NotFound, "").
Proof.
  intros Hm Hc. unfold http.ServeMux_Handler.
  apply String.eqb_neq in Hm. rewrite Hm, Hc.
  rewrite aliveReady_no_redirect, String.eqb_refl. simpl.
  apply aliveReady_handler. rewrite <- Hc. apply cleanPath_rooted.
Qed.

(** What the two handlers the router can reach do to a new response. *)
Lemma func1_new r w :
  resp w = http.newResponse "GET" →
  newServeMux_func1 r w
  = Returned tt (withResp w (answered 200 ("ok!" +:+ LF) (http.newResponse "GET"))).
Proof.
  intros Hw. unfold newServeMux_func1.
  erewrite bind_Returned;
    [|apply Write_pending; [rewrite Hw; by apply newResponse_pending | done]].
  by rewrite Hw.
Qed.

Lemma NotFound_new r w :
  resp w = http.newResponse "GET" →
  ∃ w', http.NotFound r w = Returned tt w'
        ∧ status (resp w') = 404
        ∧ body (resp w') = "404 page not found" +:+ LF
        ∧ stdlog w' = stdlog w.
Proof.
  destruct w as [rs lg ck rd]; simpl. intros ->.
  exists (final (http.NotFound r
            {| resp := http.newResponse "GET"; stdlog := lg; clock := ck; reads := rd |})).
  split; [|split; [|split]]; vm_compute; reflexivity.
Qed.

Lemma aliveReady_serves r w :
  http.Method r = "GET" → http.RequestURI r ≠ "*" →
  http.cleanPath (url.Path (http.URL r)) = url.Path (http.URL r) →
  http.ServeMux_ServeHTTP aliveReady r w =
  if decide (url.Path (http.URL r) = "/alive")
  then newServeMux_func1 r w else http.NotFound r w.
Proof.
  intros Hm Hu Hc. unfold http.ServeMux_ServeHTTP.
  apply String.eqb_neq in Hu. rewrite Hu.
  rewrite aliveReady_Handler; [|by rewrite Hm|done].
  by case_decide.
Qed.

End ServeFacts.

Section NestedFacts.

Context `{http.Library}.

Implicit Types (r : http.Request) (w : World) (host path k : string).

(** [StripPrefix] cuts off the prefix it was given. *)
Lemma StripPrefix_strips prefix rest (h : http.Handler) r :
  prefix ≠ "" →
  url.Path (http.URL r) = prefix +:+ rest →
  url.RawPath (http.URL r) = "" →
  http.StripPrefix prefix h r = h (http.withPath r rest "").
Proof.
  intros Hp HP HR. unfold http.StripPrefix.
  apply String.eqb_neq in Hp as Hp'. rewrite Hp', HP, HR.
  rewrite TrimPrefix_append, length_append.
  assert (strings.TrimPrefix "" prefix = "") as ->.
  { by destruct prefix. }
  destruct prefix as [|c prefix]; [done|]. simpl.
  destruct (Nat.ltb_spec (String.length rest)
              (S (String.length prefix + String.length rest))); [done|lia].
Qed.

Lemma parentMux_lookup k :
  http.m parentMux !! k =
  if decide ("/record" = k) then Some recordEntry
  else if decide ("/user/" = k) then Some userEntry
  else None.
Proof.
  unfold parentMux; simpl. rewrite lookup_insert. case_decide; [done|].
  rewrite lookup_insert. case_decide; [done|]. apply lookup_empty.
Qed.

Lemma parentMux_no_redirect host u :
  http.redirectToPathSlash parentMux host "/user/fetch" u = None.
Proof.
  unfold http.redirectToPathSlash, http.shouldRedirectRLocked.
  destruct (existsb _ ["/user/fetch"; host +:+ "/user/fetch"]); [done|].
  change (String.eqb "/user/fetch" "") with false.
  cbn [existsb]. rewrite !parentMux_lookup.
  destruct (decide ("/record" = (host +:+ "/user/fetch") +:+ "/")) as [E|_].
  { apply (f_equal String.length) in E. rewrite !length_append in E.
    simpl in E. lia. }
  destruct (decide ("/user/" = (host +:+ "/user/fetch") +:+ "/")) as [E|_].
  { apply (f_equal String.length) in E. rewrite !length_append in E.
    simpl in E. lia. }
  reflexivity.
Qed.

Lemma parentMux_Handler r :
  http.Method r ≠ "CONNECT" →
  url.Path (http.URL r) = "/user/fetch" →
  http.ServeMux_Handler parentMux r = (http.h userEntry, "/user/").
Proof.
  intros Hm Hp. unfold http.ServeMux_Handler.
  apply String.eqb_neq in Hm. rewrite Hm, Hp.
  change (http.cleanPath "/user/fetch") with "/user/fetch".
  rewrite parentMux_no_redirect. simpl.
  unfold http.ServeMux_handler, http.ServeMux_match.
  change (http.hosts parentMux) with false. cbn iota.
  rewrite parentMux_lookup. reflexivity.
Qed.

Lemma userMux_serves r w :
  http.Method r ≠ "CONNECT" → http.RequestURI r ≠ "*" →
  url.Path (http.URL r) = "/fetch" →
  http.ServeMux_ServeHTTP userMux r w = parentChildMux_func1 r w.
Proof.
  intros Hm Hu Hp. unfold http.ServeMux_ServeHTTP, http.ServeMux_Handler.
  apply String.eqb_neq in Hm, Hu. rewrite Hm, Hu, Hp.
  change (http.cleanPath "/fetch") with "/fetch".
  unfold http.redirectToPathSlash, http.shouldRedirectRLocked.
  cbn [existsb].
  assert (http.m userMux !! "/fetch"
          = Some {| http.h := parentChildMux_func1; http.pattern := "/fetch" |})
    as Hl by apply lookup_insert_eq.
  rewrite Hl. simpl.
  unfold http.ServeMux_handler, http.ServeMux_match.
  change (http.hosts userMux) with false. cbn iota. by rewrite Hl.
Qed.

Lemma func1_user r w :
  resp w = http.newResponse "GET" →
  parentChildMux_func1 r w
  = Returned tt (withResp w (answered 200 "This is a user!" (http.newResponse "GET"))).
Proof.
  intros Hw. unfold parentChildMux_func1.
  erewrite bind_Returned;
    [|apply Write_pending; [rewrite Hw; by apply newResponse_pending | done]].
  by rewrite Hw.
Qed.

(** A request for [/user/fetch] goes through the [/user/] registration
    to the router [user], which gets it with the path [/fetch]. *)
Lemma parentMux_user_fetch r w :
  http.Method r ≠ "CONNECT" → http.RequestURI r ≠ "*" →
  url.Path (http.URL r) = "/user/fetch" →
  url.RawPath (http.URL r) = "" →
  http.ServeMux_ServeHTTP parentMux r w
  = http.ServeMux_ServeHTTP userMux (http.withPath r "/fetch" "") w.
Proof.
  intros Hm Hu Hp Hrp. unfold http.ServeMux_ServeHTTP at 1.
  apply String.eqb_neq in Hu as Hu'. rewrite Hu'.
  rewrite parentMux_Handler by done. simpl.
  by rewrite (StripPrefix_strips "/user" "/fetch").
Qed.

Lemma parentMux_no_redirect_record host u :
  http.redirectToPathSlash parentMux host "/record/fetch" u = None.
Proof.
  unfold http.redirectToPathSlash, http.shouldRedirectRLocked.
  destruct (existsb _ ["/record/fetch"; host +:+ "/record/fetch"]); [done|].
  change (String.eqb "/record/fetch" "") with false.
  cbn [existsb]. rewrite !parentMux_lookup.
  destruct (decide ("/record" = (host +:+ "/record/fetch") +:+ "/")) as [E|_].
  { apply (f_equal String.length) in E. rewrite !length_append in E.
    simpl in E. lia. }
  destruct (decide ("/user/" = (host +:+ "/record/fetch") +:+ "/")) as [E|_].
  { apply (f_equal String.length) in E. rewrite !length_append in E.
    simpl in E. lia. }
  reflexivity.
Qed.

(** No registration of [mux] matches [/record/fetch]: it is not the path
    [/record], and it does not start with [/user/]. *)
Lemma parentMux_Handler_record r :
  http.Method r ≠ "CONNECT" →
  url.Path (http.URL r) = "/record/fetch" →
  http.ServeMux_Handler parentMux r = (http.NotFound, "").
Proof.
  intros Hm Hp. unfold http.ServeMux_Handler.
  apply String.eqb_neq in Hm. rewrite Hm, Hp.
  change (http.cleanPath "/record/fetch") with "/record/fetch".
  rewrite parentMux_no_redirect_record. simpl.
  unfold http.ServeMux_handler, http.ServeMux_match.
  change (http.hosts parentMux) with false. cbn iota.
  rewrite parentMux_lookup. reflexivity.
Qed.

Lemma recordMux_serves r w :
  http.Method r ≠ "CONNECT" → http.RequestURI r ≠ "*" →
  url.Path (http.URL r) = "/fetch" →
  http.ServeMux_ServeHTTP recordMux r w = parentChildMux_func2 r w.
Proof.
  intros Hm Hu Hp. unfold http.ServeMux_ServeHTTP, http.ServeMux_Handler.
  apply String.eqb_neq in Hm, Hu. rewrite Hm, Hu, Hp.
  change (http.cleanPath "/fetch") with "/fetch".
  unfold http.redirectToPathSlash, http.shouldRedirectRLocked.
  cbn [existsb].
  assert (http.m recordMux !! "/fetch"
          = Some {| http.h := parentChildMux_func2; http.pattern := "/fetch" |})
    as Hl by apply lookup_insert_eq.
  rewrite Hl. simpl.
  unfold http.ServeMux_handler, http.ServeMux_match.
  change (http.hosts recordMux) with false. cbn iota. by rewrite Hl.
Qed.

Lemma func2_record r w :
  resp w = http.newResponse "GET" →
  parentChildMux_func2 r w
  = Returned tt (withResp w (answered 200 "This is a record!" (http.newResponse "GET"))).
Proof.
  intros Hw. unfold parentChildMux_func2.
  erewrite bind_Returned;
    [|apply Write_pending; [rewrite Hw; by apply newResponse_pending | done]].
  by rewrite Hw.
Qed.

End NestedFacts.

(** * The claims *)

(** C1, as amended.  In the scenario [newServeMux] builds, a [GET] request
    for [/alive] gets status 200 and the body "ok!" followed by a newline
    (the four bytes the handler writes); a [GET] request for any other clean
    path, [/missing] for one, gets status 404 and the body of
    [http.NotFound].  This holds for every [Host] the request names, and
    nothing is logged. *)
Theorem newServeMux_alive_and_unmatched `{http.Library} r w :
  http.Method r = "GET" →
  http.RequestURI r ≠ "*" →
  http.cleanPath (url.Path (http.URL r)) = url.Path (http.URL r) →
  resp w = http.newResponse "GET" →
  ∃ srv w',
    newServeMux = Some srv
    ∧ http.Server_Handler srv r w = Returned tt w'
    ∧ stdlog w' = stdlog w
    ∧ (url.Path (http.URL r) = "/alive" →
         status (resp w') = 200 ∧ body (resp w') = "ok!" +:+ LF)
    ∧ (url.Path (http.URL r) ≠ "/alive" →
         status (resp w') = 404 ∧ body (resp w') = "404 page not found" +:+ LF).
Proof.
  intros Hm Hu Hc Hw. eexists.
  pose proof (aliveReady_serves r w Hm Hu Hc) as Hserve.
  destruct (decide (url.Path (http.URL r) = "/alive")) as [Hp|Hp].
  - rewrite func1_new in Hserve by done. eexists.
    split; [apply newServeMux_router|]. split; [exact Hserve|].
    split; [by destruct w|]. split; [done|]. by intros Hn.
  - destruct (NotFound_new r w Hw) as (w' & Hnf & Hs & Hb & Hl).
    exists w'. split; [apply newServeMux_router|].
    split; [simpl; by rewrite Hserve|]. by repeat split.
Qed.

Lemma newServeMux_alive_and_unmatched_witness :
  ∃ srv w1 w2,
    @newServeMux plainLibrary = Some srv
    ∧ http.Server_Handler srv (GET "localhost:8000" "/alive" ∅) start = Returned tt w1
    ∧ status (resp w1) = 200
    ∧ http.Server_Handler srv (GET "localhost:8000" "/missing" ∅) start = Returned tt w2
    ∧ status (resp w2) = 404.
Proof.
  destruct (@newServeMux_alive_and_unmatched plainLibrary
              (GET "localhost:8000" "/alive" ∅) start)
    as (srv & w1 & Hsrv & H1 & _ & Ha & _);
    [reflexivity | discriminate | reflexivity | reflexivity |].
  destruct (@newServeMux_alive_and_unmatched plainLibrary
              (GET "localhost:8000" "/missing" ∅) start)
    as (srv' & w2 & Hsrv' & H2 & _ & _ & Hb);
    [reflexivity | discriminate | reflexivity | reflexivity |].
  exists srv, w1, w2.
  assert (srv' = srv) as -> by congruence.
  split; [exact Hsrv|]. split; [exact H1|].
  split; [apply Ha; reflexivity|]. split; [exact H2|].
  apply Hb. discriminate.
Defined.

(** C1, as the specification states it, fails: the body of the response to
    [GET /alive] is not the three bytes "ok!". *)
Lemma alive_body_is_not_ok :
  ∃ srv,
    @newServeMux plainLibrary = Some srv
    ∧ body (resp (final (http.Server_Handler srv
                           (GET "localhost:8000" "/alive" ∅) start))) ≠ "ok!".
Proof. eexists. split; [reflexivity|]. vm_compute. discriminate. Qed.

(** C7, on the code.  [newServeMux] registers the second handler under the
    pattern [ready], without the slash; a [GET] request for [/ready] is
    answered by [http.NotFound], with status 404, whatever its [Host]. *)
Theorem newServeMux_ready_is_not_found `{http.Library} r w :
  http.Method r = "GET" →
  http.RequestURI r ≠ "*" →
  url.Path (http.URL r) = "/ready" →
  resp w = http.newResponse "GET" →
  ∃ srv w',
    newServeMux = Some srv
    ∧ http.Server_Handler srv r w = Returned tt w'
    ∧ http.Server_Handler srv r w = http.NotFound r w
    ∧ status (resp w') = 404
    ∧ body (resp w') = "404 page not found" +:+ LF.
Proof.
  intros Hm Hu Hp Hw. eexists.
  assert (http.cleanPath (url.Path (http.URL r)) = url.Path (http.URL r)) as Hc
    by (by rewrite Hp).
  pose proof (aliveReady_serves r w Hm Hu Hc) as Hserve.
  rewrite decide_False in Hserve by (rewrite Hp; discriminate).
  destruct (NotFound_new r w Hw) as (w' & Hnf & Hs & Hb & Hl).
  exists w'. split; [apply newServeMux_router|]. simpl.
  rewrite Hserve. by repeat split.
Qed.

Lemma newServeMux_ready_is_not_found_witness :
  ∃ srv w',
    @newServeMux plainLibrary = Some srv
    ∧ http.Server_Handler srv (GET "localhost:8000" "/ready" ∅) start = Returned tt w'
    ∧ status (resp w') = 404.
Proof.
  destruct (@newServeMux_ready_is_not_found plainLibrary
              (GET "localhost:8000" "/ready" ∅) start)
    as (srv & w' & Hsrv & H1 & _ & Hs & _);
    [reflexivity | discriminate | reflexivity | reflexivity |].
  exists srv, w'. split; [exact Hsrv|]. split; [exact H1 | exact Hs].
Defined.

(** C2.  The handler [TerribleSecurityProvider(password)(h)] compares the
    request's [X-Secret-Password] header with [password].  When they
    differ, it returns without a call of [h]: the outcome is the same for
    every inner handler, and on a response nothing has been written to it
    is status 401 and the body [securityMsg].  When they agree, it is the
    call [h.ServeHTTP(w, r)] with the same request and the same writer. *)
Theorem TerribleSecurityProvider_guards password (h : http.Handler) r w :
  (http.Header_Get (http.Header r) "X-Secret-Password" ≠ password →
     (∀ h' : http.Handler,
        TerribleSecurityProvider password h' r w
        = TerribleSecurityProvider password h r w)
     ∧ (∃ w', TerribleSecurityProvider password h r w = Returned tt w')
     ∧ (pending (resp w) →
        TerribleSecurityProvider password h r w
        = Returned tt
            (withResp w (answered http.StatusUnauthorized securityMsg (resp w)))))
  ∧ (http.Header_Get (http.Header r) "X-Secret-Password" = password →
     TerribleSecurityProvider password h r w = h r w).
Proof.
  split.
  - intros Hne. split; [|split].
    + intros h'. by rewrite !TerribleSecurityProvider_rejects.
    + rewrite TerribleSecurityProvider_rejects by done.
      unfold mbind, Go_bind, mret, Go_ret.
      destruct (wroteHeader (resp w)) eqn:Hw.
      * destruct (WriteHeader_again http.StatusUnauthorized w Hw) as [l ->].
        unfold http.Write. simpl. rewrite Hw.
        destruct (writeBody_returns securityMsg (withLog w (stdlog w ++ [l])))
          as (n & w' & ->). eauto.
      * destruct (WriteHeader_first http.StatusUnauthorized w Hw)
          as (w1 & -> & Hw1 & _); [done|].
        unfold http.Write. rewrite Hw1.
        destruct (writeBody_returns securityMsg w1) as (n & w' & ->). eauto.
    + intros Hp. by apply TerribleSecurityProvider_rejects_pending.
  - apply TerribleSecurityProvider_accepts.
Qed.

Lemma TerribleSecurityProvider_guards_witness :
  TerribleSecurityProvider "PASSWORD" helloWorldHandler
    (GET "localhost:8000" "/hello" {[ "X-Secret-Password" := ["guess"] ]}) start
  = Returned tt (withResp start (answered 401 securityMsg (resp start)))
  ∧ TerribleSecurityProvider "PASSWORD" helloWorldHandler
      (GET "localhost:8000" "/hello" {[ "X-Secret-Password" := ["PASSWORD"] ]}) start
    = helloWorldHandler
        (GET "localhost:8000" "/hello" {[ "X-Secret-Password" := ["PASSWORD"] ]}) start.
Proof.
  split.
  - apply (TerribleSecurityProvider_guards "PASSWORD" helloWorldHandler
             (GET "localhost:8000" "/hello" {[ "X-Secret-Password" := ["guess"] ]})
             start).
    + vm_compute. discriminate.
    + apply newResponse_pending. discriminate.
  - apply (TerribleSecurityProvider_guards "PASSWORD" helloWorldHandler
             (GET "localhost:8000" "/hello" {[ "X-Secret-Password" := ["PASSWORD"] ]})
             start).
    vm_compute. reflexivity.
Defined.

(** C3, as amended.  [RequestTimer(h)] reads the clock, then calls [h],
    and when [h] returns it reads the clock again and prints one line with
    the difference of the two readings: the log is the log [h] left plus
    that line, whatever [h] wrote to the response.  When [h] panics the
    panic goes on to the caller and no line is printed. *)
Theorem RequestTimer_records_returning_requests (h : http.Handler) r w :
  (∀ w2, h r (tick w) = Returned tt w2 →
     RequestTimer h r w = Returned tt (timed r w w2)
     ∧ stdlog (final (RequestTimer h r w))
       = stdlog w2 ++ [timerRecord r (clock w (reads w)) (clock w2 (reads w2))])
  ∧ (∀ v w2, h r (tick w) = Panicked v w2 →
     RequestTimer h r w = Panicked v w2
     ∧ stdlog (final (RequestTimer h r w)) = stdlog w2).
Proof.
  split.
  - intros w2 Hh. by rewrite (RequestTimer_returned _ _ _ _ Hh).
  - intros v w2 Hh. by rewrite (RequestTimer_panicked _ _ _ _ _ Hh).
Qed.

Lemma RequestTimer_records_returning_requests_witness :
  RequestTimer NewHandler_ServeHTTP (GET "localhost:8000" "/" ∅) start
  = Returned tt
      (timed (GET "localhost:8000" "/" ∅) start
         (withResp (tick start)
            (answered 202 ("Hello, world!" +:+ LF) (resp start))))
  ∧ RequestTimer panicking (GET "localhost:8000" "/" ∅) start
    = Panicked "invalid WriteHeader code" (tick start).
Proof.
  split.
  - apply (RequestTimer_records_returning_requests NewHandler_ServeHTTP
             (GET "localhost:8000" "/" ∅) start).
    vm_compute. reflexivity.
  - apply (RequestTimer_records_returning_requests panicking
             (GET "localhost:8000" "/" ∅) start).
    vm_compute. reflexivity.
Defined.

(** C3, as the specification states it, fails: around a handler that
    panics, [RequestTimer] prints nothing. *)
Lemma RequestTimer_silent_when_inner_panics :
  panicking (GET "localhost:8000" "/" ∅) (tick start)
  = Panicked "invalid WriteHeader code" (tick start)
  ∧ RequestTimer panicking (GET "localhost:8000" "/" ∅) start
    = Panicked "invalid WriteHeader code" (tick start)
  ∧ stdlog (final (RequestTimer panicking (GET "localhost:8000" "/" ∅) start)) = [].
Proof. repeat split. Qed.

(** C4.  With the check outermost, as [muxWithMiddleware] composes the
    two, a request the check rejects ends at the check: the timer does not
    read the clock and prints nothing, and [inner] does not run.  With the
    timer outermost, the timer still takes both readings around the
    rejection and prints its line.  A request the check accepts goes on
    to what the check wraps, unchanged.  In general, handlers wrapped as
    [M1(M2(...Mn(h)))] run the first phases of [M1], ..., [Mn] in that
    order, then [h], then the second phases in the opposite order; and
    [RequestTimer] is such a middleware. *)
Theorem middleware_ordering password (inner : http.Handler) r w :
  pending (resp w) →
  (http.Header_Get (http.Header r) "X-Secret-Password" ≠ password →
     TerribleSecurityProvider password (RequestTimer inner) r w
     = Returned tt
         (withResp w (answered http.StatusUnauthorized securityMsg (resp w)))
     ∧ RequestTimer (TerribleSecurityProvider password inner) r w
       = Returned tt
           (timed r w
              (withResp (tick w)
                 (answered http.StatusUnauthorized securityMsg (resp w)))))
  ∧ (http.Header_Get (http.Header r) "X-Secret-Password" = password →
     TerribleSecurityProvider password (RequestTimer inner) r w
     = RequestTimer inner r w
     ∧ RequestTimer (TerribleSecurityProvider password inner) r w
       = RequestTimer inner r w)
  ∧ (∀ (ps : list Phased) (h : http.Handler),
       alice.Then (map around ps) h r w
       = (due ← enter ps r; h r ;; leave due) w)
  ∧ (∀ h : http.Handler, RequestTimer h = around timerPhases h)
  ∧ alice.Then [TerribleSecurityProvider password; RequestTimer] inner
    = TerribleSecurityProvider password (RequestTimer inner).
Proof.
  intros Hp. split; [|split; [|split; [|split]]].
  - intros Hne. split.
    + by apply TerribleSecurityProvider_rejects_pending.
    + apply RequestTimer_returned.
      by apply (TerribleSecurityProvider_rejects_pending password inner r (tick w)).
  - intros He. split.
    + by apply TerribleSecurityProvider_accepts.
    + unfold RequestTimer, mbind, Go_bind.
      destruct (time.Now w) as [start0 w1|]; [|done].
      by rewrite TerribleSecurityProvider_accepts.
  - intros ps h. apply Then_phases.
  - apply RequestTimer_phases.
  - reflexivity.
Qed.

Lemma middleware_ordering_witness :
  TerribleSecurityProvider "PASSWORD" (RequestTimer muxWithMiddleware_func1)
    (GET "localhost:8000" "/hello" ∅) start
  = Returned tt (withResp start (answered 401 securityMsg (resp start)))
  ∧ stdlog (final (RequestTimer
                     (TerribleSecurityProvider "PASSWORD" muxWithMiddleware_func1)
                     (GET "localhost:8000" "/hello" ∅) start))
    = [timerRecord (GET "localhost:8000" "/hello" ∅) 0 1000000]
  ∧ TerribleSecurityProvider "PASSWORD" (RequestTimer muxWithMiddleware_func1)
      (GET "localhost:8000" "/hello" {[ "X-Secret-Password" := ["PASSWORD"] ]}) start
    = RequestTimer muxWithMiddleware_func1
        (GET "localhost:8000" "/hello" {[ "X-Secret-Password" := ["PASSWORD"] ]}) start.
Proof.
  assert (Hp : pending (resp start)) by (apply newResponse_pending; discriminate).
  split; [|split].
  - apply (middleware_ordering "PASSWORD" muxWithMiddleware_func1
             (GET "localhost:8000" "/hello" ∅) start Hp).
    vm_compute. discriminate.
  - destruct (middleware_ordering "PASSWORD" muxWithMiddleware_func1
                (GET "localhost:8000" "/hello" ∅) start Hp) as (Hrej & _).
    destruct Hrej as [_ Ht]; [vm_compute; discriminate|].
    rewrite Ht. reflexivity.
  - apply (middleware_ordering "PASSWORD" muxWithMiddleware_func1
             (GET "localhost:8000" "/hello" {[ "X-Secret-Password" := ["PASSWORD"] ]})
             start Hp).
    vm_compute. reflexivity.
Defined.

(** C8.  A [Write] on a response whose status has not been written sets
    the status to 200 first; after the status has been written, no call on
    the response writer changes it.  So the handler of [/alive], which
    only writes a body, answers with status 200. *)
Theorem status_defaults_to_200_and_is_final :
  (∀ data w, wroteHeader (resp w) = false →
     ∃ n w', http.Write data w = Returned n w'
             ∧ wroteHeader (resp w') = true
             ∧ status (resp w') = 200)
  ∧ (∀ code w, wroteHeader (resp w) = false → 100 <= code <= 999 →
     ∃ w', http.WriteHeader code w = Returned tt w'
           ∧ wroteHeader (resp w') = true
           ∧ status (resp w') = code)
  ∧ (∀ cs w, wroteHeader (resp w) = true →
     ∃ w', calls cs w = Returned tt w'
           ∧ wroteHeader (resp w') = true
           ∧ status (resp w') = status (resp w))
  ∧ (∀ r w, resp w = http.newResponse "GET" →
     status (resp (final (newServeMux_func1 r w))) = 200).
Proof.
  split; [|split; [|split]].
  - intros data w Hw. unfold http.Write. rewrite Hw.
    destruct (WriteHeader_first http.StatusOK w Hw) as (w1 & H1 & Hw1 & Hs1);
      [done|].
    erewrite bind_Returned by exact H1.
    destruct (writeBody_returns data w1) as (n & w' & Hb).
    destruct (writeBody_status _ _ _ _ Hb) as (Hs & Hwr & _).
    exists n, w'. by rewrite Hb, Hs, Hwr.
  - intros code w Hw Hc. by apply WriteHeader_first.
  - induction cs as [|c cs IH]; intros w Hw; simpl.
    + by exists w.
    + destruct (call_keeps_status c w Hw) as (w1 & Hc & Hw1 & Hs1).
      erewrite bind_Returned by exact Hc.
      destruct (IH w1 Hw1) as (w' & Hcs & Hw' & Hs').
      exists w'. rewrite Hcs. by rewrite Hs', Hs1.
  - intros r w Hw. by rewrite func1_new.
Qed.

Lemma status_defaults_to_200_and_is_final_witness :
  (∃ n w', http.Write "ok!" start = Returned n w' ∧ status (resp w') = 200)
  ∧ (∃ w', calls [CallWriteHeader 500; CallWrite "late"; CallSetHeader "A" "b"]
             (withResp start (headed 404 (resp start))) = Returned tt w'
           ∧ status (resp w') = 404).
Proof.
  destruct status_defaults_to_200_and_is_final as (Hfirst & _ & Hfinal & _).
  split.
  - destruct (Hfirst "ok!" start) as (n & w' & Hw & _ & Hs); [reflexivity|].
    by exists n, w'.
  - destruct (Hfinal [CallWriteHeader 500; CallWrite "late"; CallSetHeader "A" "b"]
                (withResp start (headed 404 (resp start)))) as (w' & Hc & _ & Hs);
      [reflexivity|].
    by exists w'.
Defined.

(** C10.  A request without an [X-Secret-Password] header is checked as
    if it carried the empty string: the lookup gives "", so the request is
    let through exactly when the provider was built with the empty
    password, and with any other password it is turned away with the
    outcome of a request that carries a wrong password. *)
Theorem missing_header_counts_as_empty password (h : http.Handler) r w :
  http.Header r !! "X-Secret-Password" = None →
  http.Header_Get (http.Header r) "X-Secret-Password" = ""
  ∧ ((∀ (h' : http.Handler) w', TerribleSecurityProvider password h' r w' = h' r w')
     ↔ password = "")
  ∧ (password ≠ "" →
     ∀ r', http.Header_Get (http.Header r') "X-Secret-Password" ≠ password →
       TerribleSecurityProvider password h r w
       = TerribleSecurityProvider password h r' w).
Proof.
  intros Hmiss. pose proof (Header_Get_missing _ Hmiss) as Hget.
  split; [done|]. split; [split|].
  - intros Hall. destruct (decide (password = "")) as [|Hne]; [done|].
    specialize (Hall (fun _ => mret tt) start).
    rewrite TerribleSecurityProvider_rejects_pending in Hall;
      [|by rewrite Hget|by apply newResponse_pending].
    discriminate Hall.
  - intros -> h' w'. by apply TerribleSecurityProvider_accepts.
  - intros Hne r' Hr'.
    rewrite !TerribleSecurityProvider_rejects; [done|done|by rewrite Hget].
Qed.

Lemma missing_header_counts_as_empty_witness :
  TerribleSecurityProvider "" helloWorldHandler (GET "localhost:8000" "/" ∅) start
  = helloWorldHandler (GET "localhost:8000" "/" ∅) start
  ∧ TerribleSecurityProvider "PASSWORD" helloWorldHandler
      (GET "localhost:8000" "/" ∅) start
    = TerribleSecurityProvider "PASSWORD" helloWorldHandler
        (GET "localhost:8000" "/" {[ "X-Secret-Password" := ["guess"] ]}) start.
Proof.
  split.
  - destruct (missing_header_counts_as_empty "" helloWorldHandler
                (GET "localhost:8000" "/" ∅) start) as (_ & Hiff & _);
      [reflexivity|].
    by apply Hiff.
  - destruct (missing_header_counts_as_empty "PASSWORD" helloWorldHandler
                (GET "localhost:8000" "/" ∅) start) as (_ & _ & Hsame);
      [reflexivity|].
    apply Hsame; [discriminate | vm_compute; discriminate].
Defined.

(** C5, on the code.  [parentChildMux] registers the router [record]
    under the pattern [/record], without the slash at its end that the
    sibling registration [/user/] has.  A pattern without that slash
    matches the path equal to it and no other, so a [GET] request for
    [/record/fetch] finds no registration: the router [mux] answers it
    with [http.NotFound], status 404.  What the claim says of it is what
    the router [record] does with the path [/fetch], the answer
    "This is a record!" with status 200; and that is what the code does
    for the sibling: a request for [/user/fetch] matches [/user/],
    [StripPrefix] cuts off [/user], and the router [user] answers
    "This is a user!". *)
Theorem parentChildMux_record_fetch_is_not_found `{http.Library} r w :
  http.Method r = "GET" →
  http.RequestURI r ≠ "*" →
  url.Path (http.URL r) = "/record/fetch" →
  resp w = http.newResponse "GET" →
  parentChildMux = Some (userMux, recordMux, parentMux)
  ∧ (∀ mux path handler pat,
       registered mux →
       strings.endsWithSlash pat = false →
       http.ServeMux_match mux path = Some (handler, pat) →
       path = pat)
  ∧ http.ServeMux_Handler parentMux r = (http.NotFound, "")
  ∧ (∃ w',
       http.ServeMux_ServeHTTP parentMux r w = Returned tt w'
       ∧ status (resp w') = 404
       ∧ body (resp w') = "404 page not found" +:+ LF)
  ∧ http.ServeMux_ServeHTTP recordMux (http.withPath r "/fetch" "") w
    = Returned tt
        (withResp w (answered 200 "This is a record!" (http.newResponse "GET")))
  ∧ (∀ r',
       http.Method r' = "GET" →
       http.RequestURI r' ≠ "*" →
       url.Path (http.URL r') = "/user/fetch" →
       url.RawPath (http.URL r') = "" →
       http.ServeMux_ServeHTTP parentMux r' w
       = http.ServeMux_ServeHTTP userMux (http.withPath r' "/fetch" "") w
       ∧ http.ServeMux_ServeHTTP parentMux r' w
         = Returned tt
             (withResp w (answered 200 "This is a user!" (http.newResponse "GET")))).
Proof.
  intros Hm Hu Hp Hw.
  assert (Hc : http.Method r ≠ "CONNECT") by (by rewrite Hm).
  split; [apply parentChildMux_routers|]. split.
  { intros mux path handler pat Hreg Hs Hmatch.
    destruct (match_found mux path handler pat (registered_consistent _ Hreg) Hmatch)
      as (_ & [->|(_ & Hs' & _)]); [done|congruence]. }
  pose proof (parentMux_Handler_record r Hc Hp) as Hh.
  split; [exact Hh|]. split; [|split].
  - destruct (NotFound_new r w Hw) as (w' & Hnf & Hs & Hb & _).
    exists w'. split; [|by split].
    unfold http.ServeMux_ServeHTTP. apply String.eqb_neq in Hu.
    by rewrite Hu, Hh.
  - rewrite recordMux_serves by done. by apply func2_record.
  - intros r' Hm' Hu' Hp' Hrp'.
    assert (Hc' : http.Method r' ≠ "CONNECT") by (by rewrite Hm').
    pose proof (parentMux_user_fetch r' w Hc' Hu' Hp' Hrp') as Hserve.
    split; [exact Hserve|]. rewrite Hserve.
    rewrite userMux_serves by done. by apply func1_user.
Qed.

Lemma parentChildMux_record_fetch_is_not_found_witness :
  status (resp (final (@http.ServeMux_ServeHTTP plainLibrary (@parentMux plainLibrary)
                         (GET "localhost:8000" "/record/fetch" ∅) start))) = 404
  ∧ @http.ServeMux_ServeHTTP plainLibrary (@parentMux plainLibrary)
      (GET "localhost:8000" "/user/fetch" ∅) start
    = Returned tt
        (withResp start (answered 200 "This is a user!" (http.newResponse "GET"))).
Proof.
  destruct (@parentChildMux_record_fetch_is_not_found plainLibrary
              (GET "localhost:8000" "/record/fetch" ∅) start)
    as (_ & _ & _ & (w' & Hserve & Hs & _) & _ & Huser);
    [reflexivity | discriminate | reflexivity | reflexivity |].
  split.
  - rewrite Hserve. exact Hs.
  - apply (Huser (GET "localhost:8000" "/user/fetch" ∅));
      [reflexivity | discriminate | reflexivity | reflexivity].
Defined.

(** C6, as amended.  [marshal] returns an error exactly when the input
    does not start with a well-formed JSON value, or holds a value of the
    wrong type (something other than an object or [null] at the top, or
    something other than a string or [null] for [name]), or is an object
    with a member that is not the field [name].  A missing [name] is not
    an error.  In every case the struct holds the string of the last
    [name] member, and what it held before when there is none.  So
    [{"name":"michael"}] gives [nil] and [Name = "michael"], and the input
    with the member [address] gives an error. *)
Theorem marshal_fails_exactly_when b tj :
  (is_Some (returned (marshal b tj)) ↔
     malformed b ∨ mismatched b ∨ hasUnknownField b)
  ∧ pointee (marshal b tj) = populated b tj
  ∧ marshal goodJSONString tj
    = {| returned := None; pointee := {| Name := "michael" |};
         logged := [LogPrintln [ArgString "no error"]] |}
  ∧ returned (marshal badJSONString tj) = Some (UnknownField "address").
Proof.
  split; [apply marshal_error_iff|].
  split; [apply marshal_pointee_populated|].
  split; by destruct tj.
Qed.

Lemma marshal_fails_exactly_when_witness :
  is_Some (returned (marshal "{" {| Name := "" |}))
  ∧ returned (marshal ("{" +:+ quoted "name" +:+ ":" +:+ quoted "go" +:+ "}")
                {| Name := "" |}) = None.
Proof.
  split.
  - apply (marshal_fails_exactly_when "{" {| Name := "" |}).
    left. exists io_ErrUnexpectedEOF. reflexivity.
  - destruct (marshal_fails_exactly_when
                ("{" +:+ quoted "name" +:+ ":" +:+ quoted "go" +:+ "}")
                {| Name := "" |}) as ([Hfail _] & _).
    destruct (returned _) as [e|] eqn:E; [|reflexivity].
    exfalso. destruct (Hfail (ex_intro _ e eq_refl)) as [[e' He]|[(v & Hv & F)|(ms & Hms & F)]].
    + vm_compute in He. discriminate He.
    + vm_compute in Hv. injection Hv as <-. discriminate F.
    + vm_compute in Hms. injection Hms as <-. discriminate F.
Defined.

(** C6, as the specification states it, fails: an object without the
    field [name] is decoded without an error, and [Name] keeps its
    value. *)
Lemma marshal_accepts_a_missing_name :
  json.readValue "{}" = inr (json.Object [])
  ∧ marshal "{}" {| Name := "before" |}
    = {| returned := None; pointee := {| Name := "before" |};
         logged := [LogPrintln [ArgString "no error"]] |}.
Proof. split; reflexivity. Qed.

(** C9.  When the input is an object in which a member [name] with a
    string is followed by members that are not fields, [marshal] returns
    an error and has stored the string in [Name] all the same: a struct
    that held another name is not what it was before the call. *)
Theorem marshal_stores_before_it_fails b tj before s after :
  json.readValue b = inr (json.Object (before ++ ("name", json.Str s) :: after)) →
  after ≠ [] →
  Forall (fun kv => unknownMember kv = true) after →
  is_Some (returned (marshal b tj))
  ∧ Name (pointee (marshal b tj)) = s
  ∧ (Name tj ≠ s → pointee (marshal b tj) ≠ tj).
Proof.
  intros Hb Hne Hunk.
  cut (is_Some (returned (marshal b tj)) ∧ Name (pointee (marshal b tj)) = s).
  { intros [He Hn]. split; [done|]. split; [done|].
    intros Hold Heq. rewrite Heq in Hn. done. }
  split.
  - apply marshal_error_iff. right. right.
    exists (before ++ ("name", json.Str s) :: after). split; [done|].
    rewrite existsb_app. apply orb_true_iff. right.
    destruct after as [|kv after]; [done|].
    inversion Hunk as [|? ? Hkv _]; subst.
    cbn [existsb]. rewrite Hkv. apply orb_true_r.
  - rewrite marshal_pointee_populated. unfold populated. rewrite Hb. simpl.
    unfold populatedName. rewrite fold_left_app. simpl.
    change (isNameKey "name") with true. cbn iota.
    clear Hb Hne. induction Hunk as [|[k v] after Hkv _ IH]; simpl; [done|].
    unfold unknownMember in Hkv. simpl in Hkv.
    apply negb_true_iff in Hkv. by rewrite Hkv.
Qed.

Lemma marshal_stores_before_it_fails_witness :
  is_Some (returned (marshal badJSONString {| Name := "" |}))
  ∧ Name (pointee (marshal badJSONString {| Name := "" |})) = "michael"
  ∧ (Name {| Name := "" |} ≠ "michael" →
     pointee (marshal badJSONString {| Name := "" |}) ≠ {| Name := "" |}).
Proof.
  apply (marshal_stores_before_it_fails badJSONString {| Name := "" |}
           [] "michael" [("address", json.Str "1234 Shady Lane Boston, MA")]).
  - vm_compute. reflexivity.
  - discriminate.
  - repeat constructor.
Defined.

(** * Further properties of the code *)

(** ** [countLetter] *)

Section CountFacts.

Context {R : Type} `{io.Reader R}.

Implicit Types (out : gmap string Z) (data : list ascii) (b : ascii).

Lemma wrap64_small z : - 2 ^ 63 <= z < 2 ^ 63 → wrap64 z = z.
Proof.
  intros Hz. unfold wrap64. rewrite Z.mod_small; lia.
Qed.

Lemma count_occ_le data b : (count_occ ascii_dec data b <= length data)%nat.
Proof.
  induction data as [|c data IH]; simpl; [lia|].
  destruct (ascii_dec c b); lia.
Qed.

Lemma countByte_counts out data b :
  (∀ key, out !! key = letterCount data key) →
  Z.of_nat (length data) + 1 < 2 ^ 63 →
  ∀ key, countByte out b !! key = letterCount (data ++ [b]) key.
Proof.
  intros Hout Hlen key. unfold countByte.
  assert (Hcount : ∀ c, count_occ ascii_dec (data ++ [b]) c
                        = (count_occ ascii_dec data c
                           + if ascii_dec b c then 1 else 0)%nat).
  { intros c. rewrite count_occ_app. simpl. by destruct (ascii_dec b c). }
  destruct (isLetterByte b) eqn:Hb.
  - rewrite lookup_insert. case_decide as Hk.
    + subst key. simpl. rewrite Hb, Hcount.
      destruct (ascii_dec b b) as [_|]; [|done].
      rewrite Hout. simpl. rewrite Hb. simpl.
      pose proof (count_occ_le data b) as Hle.
      destruct (count_occ ascii_dec data b) as [|n] eqn:Hn; simpl.
      * by rewrite wrap64_small by lia.
      * rewrite wrap64_small by lia.
        replace (n + 1 =? 0)%nat with false
          by (symmetry; apply Nat.eqb_neq; lia).
        simpl. f_equal. lia.
    + rewrite Hout. destruct key as [|c [|? ?]]; simpl; try done.
      rewrite Hcount. destruct (ascii_dec b c) as [->|_]; [done|].
      by rewrite Nat.add_0_r.
  - rewrite Hout. destruct key as [|c [|? ?]]; simpl; try done.
    rewrite Hcount. destruct (ascii_dec b c) as [->|_].
    + by rewrite Hb.
    + by rewrite Nat.add_0_r.
Qed.

Lemma countChunk_counts chunk out data :
  (∀ key, out !! key = letterCount data key) →
  Z.of_nat (length data + length chunk) < 2 ^ 63 →
  ∀ key, fold_left countByte chunk out !! key = letterCount (data ++ chunk) key.
Proof.
  revert out data. induction chunk as [|b chunk IH]; intros out data Hout Hlen.
  - simpl. by rewrite app_nil_r.
  - simpl. intros key.
    replace (data ++ b :: chunk) with ((data ++ [b]) ++ chunk)
      by (by rewrite <- app_assoc).
    apply IH.
    + apply countByte_counts; [done|]. simpl in Hlen. lia.
    + rewrite length_app. simpl in *. lia.
Qed.

Lemma bytes_length (str : string) : length (bytes str) = String.length str.
Proof. induction str as [|c str IH]; simpl; [done | by rewrite IH]. Qed.

(** The loop, started with the counts of what was read before. *)
Lemma countLetter_loop_reading (r r' : R) (str : string) e :
  reading r str e r' →
  ∀ out data,
    (∀ key, out !! key = letterCount data key) →
    Z.of_nat (length data + String.length str) < 2 ^ 63 →
    ∃ rounds out',
      (∀ key, out' !! key = letterCount (data ++ bytes str) key)
      ∧ ∀ fuel, (rounds <= fuel)%nat →
          countLetter_loop fuel r out
          = Some (match e with
                  | io_EOF => (Some out', None, r')
                  | _ => (None, Some e, r')
                  end).
Proof.
  induction 1 as [r chunk e r' Hread | r chunk r1 str e r' Hread Hrest IH];
    intros out data Hout Hlen.
  - exists 1%nat, (fold_left countByte (bytes chunk) out). split.
    + apply countChunk_counts; [done|]. by rewrite bytes_length.
    + intros [|fuel] Hf; [lia|]. simpl. rewrite Hread. by destruct e.
  - rewrite length_append in Hlen.
    destruct (IH (fold_left countByte (bytes chunk) out) (data ++ bytes chunk))
      as (rounds & out' & Hout' & Hrun).
    + apply countChunk_counts; [done|]. rewrite bytes_length. lia.
    + rewrite length_app, bytes_length. lia.
    + exists (S rounds), out'. split.
      * intros key. rewrite bytes_append, app_assoc. apply Hout'.
      * intros [|fuel] Hf; [lia|]. simpl. rewrite Hread.
        apply Hrun. lia.
Qed.

End CountFacts.

Lemma take_drop_append n (str : string) :
  strings.take n str +:+ strings.drop n str = str.
Proof.
  revert str. induction n as [|n IH]; intros [|c str]; simpl; try done.
  by rewrite append_cons, IH.
Qed.

Lemma take_length n (str : string) :
  String.length (strings.take n str) = Nat.min n (String.length str).
Proof.
  revert str. induction n as [|n IH]; intros [|c str]; simpl; try done.
  by rewrite IH.
Qed.

Lemma drop_length n (str : string) :
  String.length (strings.drop n str) = (String.length str - n)%nat.
Proof.
  revert str. induction n as [|n IH]; intros [|c str]; simpl; try done.
Qed.

Lemma drop_drop n k (str : string) :
  strings.drop k (strings.drop n str) = strings.drop (n + k) str.
Proof.
  revert str. induction n as [|n IH]; intros str; simpl; [done|].
  destruct str as [|c str]; [by destruct k|]. apply IH.
Qed.

Lemma drop_all n (str : string) :
  (String.length str <= n)%nat → strings.drop n str = "".
Proof.
  revert str. induction n as [|n IH]; intros [|c str]; simpl; try done; try lia.
  intros Hl. apply IH. lia.
Qed.

Lemma strings_Read_end (str : string) :
  io.Read {| strings.s := str; strings.i := String.length str |} 2048%nat
  = (EmptyString, Some io_EOF,
     {| strings.s := str; strings.i := String.length str |}).
Proof.
  unfold io.Read, strings.Reader_Read. cbn [strings.s strings.i].
  by rewrite Nat.leb_refl.
Qed.

Lemma strings_Read_more (str : string) (k : nat) :
  (k < String.length str)%nat →
  io.Read {| strings.s := str; strings.i := k |} 2048%nat
  = (strings.take 2048 (strings.drop k str), None,
     {| strings.s := str;
        strings.i := k + String.length (strings.take 2048 (strings.drop k str)) |}).
Proof.
  intros Hk. unfold io.Read, strings.Reader_Read. cbn [strings.s strings.i].
  destruct (Nat.leb_spec (String.length str) k); [lia|]. reflexivity.
Qed.

(** A [strings.Reader] delivers the rest of its string and then [io.EOF]. *)
Lemma strings_Reader_reading (str : string) (k : nat) :
  (k <= String.length str)%nat →
  reading {| strings.s := str; strings.i := k |} (strings.drop k str) io_EOF
    {| strings.s := str; strings.i := String.length str |}.
Proof.
  remember (String.length str - k)%nat as rest eqn:Hrest.
  revert k Hrest. induction rest as [rest IH] using lt_wf_ind.
  intros k Hrest Hk.
  destruct (decide (k = String.length str)) as [->|Hne].
  - rewrite drop_all by lia. apply reading_last, strings_Read_end.
  - pose proof (take_length 2048 (strings.drop k str)) as Hchunk.
    rewrite drop_length in Hchunk.
    rewrite <- (take_drop_append 2048 (strings.drop k str)).
    rewrite drop_drop.
    eapply reading_more; [apply strings_Read_more; lia|].
    rewrite Hchunk.
    destruct (Nat.le_gt_cases (k + 2048) (String.length str)) as [Hle|Hlt].
    + rewrite Nat.min_l by lia.
      apply (IH (String.length str - (k + 2048))%nat); lia.
    + rewrite Nat.min_r by lia. rewrite drop_all by lia.
      replace (k + (String.length str - k))%nat with (String.length str) by lia.
      apply reading_last, strings_Read_end.
Qed.

(** X1.  Whatever way the reader cuts the data into chunks, when it ends
    with [io.EOF] (in the same call as the last bytes or in a later one)
    [countLetter] returns a [nil] error and a map that holds, for each
    letter A-Z, a-z that occurs in the data, the number of times it occurs,
    under the one-letter key, and no other key. *)
Theorem countLetter_counts_letters {R : Type} `{io.Reader R} (r r' : R) (data : string) :
  reading r data io_EOF r' →
  Z.of_nat (String.length data) < 2 ^ 63 →
  ∃ rounds out,
    (∀ fuel, (rounds <= fuel)%nat → countLetter fuel r = Some (Some out, None, r'))
    ∧ ∀ key, out !! key = letterCount (bytes data) key.
Proof.
  intros Hread Hlen.
  destruct (countLetter_loop_reading r r' data io_EOF Hread ∅ [])
    as (rounds & out & Hout & Hrun).
  - intros key. rewrite lookup_empty.
    destruct key as [|c [|? ?]]; simpl; try done. by rewrite andb_false_r.
  - simpl. lia.
  - exists rounds, out. split; [exact Hrun | exact Hout].
Qed.

Lemma countLetter_counts_letters_witness :
  ∃ rounds out,
    (∀ fuel, (rounds <= fuel)%nat →
       countLetter fuel (strings.NewReader "io is quite fun, I say!")
       = Some (Some out, None,
               {| strings.s := "io is quite fun, I say!"; strings.i := 23 |}))
    ∧ out !! "i" = Some 3 ∧ out !! "I" = Some 1 ∧ out !! "," = None.
Proof.
  destruct (countLetter_counts_letters
              (strings.NewReader "io is quite fun, I say!")
              {| strings.s := "io is quite fun, I say!"; strings.i := 23 |}
              "io is quite fun, I say!") as (rounds & out & Hrun & Hout).
  - apply (strings_Reader_reading "io is quite fun, I say!" 0). simpl. lia.
  - vm_compute. reflexivity.
  - exists rounds, out. split; [exact Hrun|].
    rewrite !Hout. repeat split.
Defined.

(** X2.  When the reader fails with an error other than [io.EOF],
    [countLetter] returns a [nil] map and that error, whatever it has
    counted before. *)
Theorem countLetter_returns_the_error {R : Type} `{io.Reader R} (r r' : R)
    (data : string) (e : error) :
  reading r data e r' →
  e ≠ io_EOF →
  ∃ rounds, ∀ fuel, (rounds <= fuel)%nat →
    countLetter fuel r = Some (None, Some e, r').
Proof.
  intros Hread He. unfold countLetter. generalize (∅ : gmap string Z).
  induction Hread as [r chunk e r' Hr | r chunk r1 data e r' Hr Hrest IH];
    intros out.
  - exists 1%nat. intros [|fuel] Hf; [lia|]. simpl. rewrite Hr.
    by destruct e.
  - destruct (IH He (fold_left countByte (bytes chunk) out)) as [rounds Hrun].
    exists (S rounds). intros [|fuel] Hf; [lia|]. simpl. rewrite Hr.
    apply Hrun. lia.
Qed.

Lemma countLetter_returns_the_error_witness :
  ∃ rounds, ∀ fuel, (rounds <= fuel)%nat →
    countLetter fuel (ErrReaderOf io_ErrUnexpectedEOF)
    = Some (None, Some io_ErrUnexpectedEOF, ErrReaderOf io_ErrUnexpectedEOF).
Proof.
  apply (countLetter_returns_the_error (ErrReaderOf io_ErrUnexpectedEOF)
           (ErrReaderOf io_ErrUnexpectedEOF) "" io_ErrUnexpectedEOF).
  - apply reading_last. reflexivity.
  - discriminate.
Defined.

(** X3.  On a [strings.Reader] [countLetter] always returns: it reads the
    string to its end, in chunks of 2048 bytes, and returns the counts of
    its letters. *)
Theorem countLetter_of_a_string (str : string) :
  Z.of_nat (String.length str) < 2 ^ 63 →
  ∃ rounds out,
    (∀ fuel, (rounds <= fuel)%nat →
       countLetter fuel (strings.NewReader str)
       = Some (Some out, None,
               {| strings.s := str; strings.i := String.length str |}))
    ∧ ∀ key, out !! key = letterCount (bytes str) key.
Proof.
  intros Hlen.
  pose proof (strings_Reader_reading str 0 ltac:(lia)) as Hread.
  destruct (countLetter_loop_reading _ _ _ _ Hread ∅ [])
    as (rounds & out & Hout & Hrun).
  - intros key. rewrite lookup_empty.
    destruct key as [|c [|? ?]]; simpl; try done. by rewrite andb_false_r.
  - simpl in *. lia.
  - exists rounds, out. split; [exact Hrun | exact Hout].
Qed.

Lemma countLetter_of_a_string_witness :
  ∃ rounds out,
    (∀ fuel, (rounds <= fuel)%nat →
       countLetter fuel (strings.NewReader "Go, gopher!")
       = Some (Some out, None, {| strings.s := "Go, gopher!"; strings.i := 11 |}))
    ∧ out !! "o" = Some 2 ∧ out !! "G" = Some 1 ∧ out !! "!" = None.
Proof.
  destruct (countLetter_of_a_string "Go, gopher!") as (rounds & out & Hrun & Hout).
  - vm_compute. reflexivity.
  - exists rounds, out. split; [exact Hrun|].
    rewrite !Hout. repeat split.
Defined.

(** X4.  On an [ourReader], whose [Read] returns no bytes and no error,
    [countLetter] never returns. *)
Theorem countLetter_of_ourReader_runs_forever (fuel : nat) :
  countLetter fuel OurReader = None.
Proof.
  unfold countLetter. generalize (∅ : gmap string Z).
  induction fuel as [|fuel IH]; intros out; [done|]. simpl. apply IH.
Qed.

(** ** More about [marshal] *)

Section ScanFacts.

Implicit Types (s : json.scanner) (l rest : list ascii) (c : ascii).

Lemma scan_app s l rest :
  json.scan s (l ++ rest)
  = match json.scan s l with
    | json.scanContinue s' => json.scan s' rest
    | r => r
    end.
Proof.
  revert s. induction l as [|c l IH]; intros s; [reflexivity|].
  cbn [app json.scan]. destruct (json.stepOn s c); [apply IH | done | done].
Qed.

Lemma stepOn_space_begin c :
  json.isSpace c = true →
  json.stepOn {| json.step := json.stateBeginValue; json.parseState := [] |} c
  = json.scanContinue {| json.step := json.stateBeginValue; json.parseState := [] |}.
Proof.
  intros Hc. unfold json.stepOn, json.stepBeginValue.
  cbn [json.step json.parseState]. by rewrite Hc.
Qed.

Lemma scan_spaces l :
  forallb json.isSpace l = true →
  json.scan {| json.step := json.stateBeginValue; json.parseState := [] |} l
  = json.scanContinue {| json.step := json.stateBeginValue; json.parseState := [] |}.
Proof.
  induction l as [|c l IH]; [done|]. cbn [forallb json.scan].
  intros Hl. apply andb_true_iff in Hl as [Hc Hl].
  rewrite stepOn_space_begin by done. by apply IH.
Qed.

Lemma plainByte_inv c :
  plainByte c = true →
  (c =? QUOTE)%char = false ∧ (c =? BACKSLASH)%char = false
  ∧ (code c <? 32)%N = false ∧ (code c <? 128)%N = true.
Proof.
  unfold plainByte. intros Hc.
  apply andb_true_iff in Hc as [Hc H4]. apply andb_true_iff in Hc as [Hc H3].
  apply andb_true_iff in Hc as [H1 H2].
  apply negb_true_iff in H1, H2. repeat split; try done.
  apply N.ltb_ge. by apply N.leb_le.
Qed.

Lemma stepOn_plain c acc ps :
  plainByte c = true →
  json.stepOn {| json.step := json.stateInString acc; json.parseState := ps |} c
  = json.scanContinue {| json.step := json.stateInString (c :: acc);
                         json.parseState := ps |}.
Proof.
  intros Hc. destruct (plainByte_inv c Hc) as (H1 & H2 & H3 & _).
  unfold json.stepOn. cbn [json.step json.parseState]. by rewrite H1, H2, H3.
Qed.

(** Plain bytes are taken into the string literal as they are. *)
Lemma scan_plain l acc ps rest :
  forallb plainByte l = true →
  json.scan {| json.step := json.stateInString acc; json.parseState := ps |}
    (l ++ rest)
  = json.scan {| json.step := json.stateInString (rev l ++ acc);
                 json.parseState := ps |} rest.
Proof.
  revert acc. induction l as [|c l IH]; intros acc Hl; [done|].
  cbn [forallb] in Hl. apply andb_true_iff in Hl as [Hc Hl].
  cbn [app json.scan rev]. rewrite stepOn_plain by done.
  rewrite IH by done. by rewrite <- app_assoc.
Qed.

Lemma unquote_plain l :
  forallb plainByte l = true → json.unquote_from 0 l = Some l.
Proof.
  induction l as [|c l IH]; [done|]. cbn [forallb].
  intros Hl. apply andb_true_iff in Hl as [Hc Hl].
  destruct (plainByte_inv c Hc) as (H1 & H2 & H3 & H4).
  cbn [json.unquote_from]. rewrite H2, H1, H3, H4.
  cbn [orb]. by rewrite IH.
Qed.

End ScanFacts.

(** ** The scanner on literals, and [marshal] on what it reads *)

Ltac split_step H :=
  repeat match type of H with
         | context [if ?b then _ else _] => destruct b
         | context [match ?x with _ => _ end] => destruct x
         end.

Lemma endValue_plainLiteral v ps s' :
  json.endValue v ps = json.scanContinue s' → plainLiteral s'.
Proof.
  unfold json.endValue, plainLiteral. intros Hstep. split_step Hstep;
    try discriminate Hstep; by injection Hstep as <-.
Qed.

Lemma stepEndValue_plainLiteral c ps s' :
  json.stepEndValue c ps = json.scanContinue s' → plainLiteral s'.
Proof.
  unfold json.stepEndValue. intros Hstep.
  split_step Hstep; try discriminate Hstep;
    try (by injection Hstep as <-);
    by apply endValue_plainLiteral in Hstep.
Qed.

(** The scanner never leaves the literals [true], [false] and [null]. *)
Lemma stepOn_plainLiteral s c s' :
  plainLiteral s → json.stepOn s c = json.scanContinue s' → plainLiteral s'.
Proof.
  destruct s as [st ps]. unfold json.stepOn, json.stepBeginValue,
    json.stepBeginString, json.endNumber, json.endString, json.pushParseState.
  cbn [json.step json.parseState]. intros Hs Hstep.
  destruct st; try (unfold plainLiteral in Hs; cbn [json.step] in Hs; destruct v);
    split_step Hstep; try discriminate Hstep; try done;
    try (by injection Hstep as <-);
    try (by apply stepEndValue_plainLiteral in Hstep);
    try (by apply endValue_plainLiteral in Hstep).
Qed.

Lemma endValue_space_number (v : json.Value) ps w :
  json.endValue v ps = json.scanEnd w → w = v.
Proof.
  unfold json.endValue. intros Hstep. split_step Hstep;
    try discriminate Hstep; by injection Hstep as <-.
Qed.

Lemma stepEndValue_space ps v :
  json.stepEndValue " "%char ps ≠ json.scanEnd v.
Proof.
  unfold json.stepEndValue. destruct ps as [|top ps]; [done|].
  change (json.isSpace " ") with true. done.
Qed.

Ltac eval_space H :=
  repeat match type of H with
         | context [Ascii.eqb " "%char ?x] =>
             let b := eval vm_compute in (Ascii.eqb " "%char x) in
             change (Ascii.eqb " "%char x) with b in H
         | context [N.ltb (code " "%char) ?n] =>
             let b := eval vm_compute in (N.ltb (code " "%char) n) in
             change (N.ltb (code " "%char) n) with b in H
         end.

Lemma endNumber_space acc ps v :
  json.endNumber acc " "%char ps = json.scanEnd v → ∃ lit, v = json.Number lit.
Proof.
  unfold json.endNumber.
  destruct (json.endValue _ ps) as [s|w|e] eqn:E.
  - intros Hstep. by apply stepEndValue_space in Hstep.
  - apply endValue_space_number in E. intros [= <-]. subst. eauto.
  - done.
Qed.

(** At the end of the input only a number, or a literal, can still be
    completed. *)
Lemma stepOn_space_end s v :
  plainLiteral s → json.stepOn s " "%char = json.scanEnd v →
  match v with
  | json.Object _ | json.Array _ | json.Str _ => False
  | _ => True
  end.
Proof.
  destruct s as [st ps]. unfold json.stepOn, json.stepBeginValue,
    json.stepBeginString, json.endString, json.pushParseState.
  cbn [json.step json.parseState].
  change (json.isSpace " ") with true. cbn iota.
  intros Hs Hstep. eval_space Hstep. cbn iota in Hstep.
  destruct st; try (unfold plainLiteral in Hs; cbn [json.step] in Hs; destruct v0);
    split_step Hstep; try discriminate Hstep; try done;
    try (by apply stepEndValue_space in Hstep);
    try (apply endValue_space_number in Hstep; by subst);
    try (apply endNumber_space in Hstep as [lit ->]; done).
Qed.

Lemma scan_plainLiteral s l s' :
  plainLiteral s → json.scan s l = json.scanContinue s' → plainLiteral s'.
Proof.
  revert s. induction l as [|c l IH]; intros s Hs; cbn [json.scan].
  - by intros [= <-].
  - destruct (json.stepOn s c) as [s1| |] eqn:Hstep; try done.
    apply IH. by eapply stepOn_plainLiteral.
Qed.

(** An object, an array or a string that [readValue] returns was complete
    before the end of the input. *)
Lemma readValue_complete (b : string) v :
  json.readValue b = inr v →
  match v with
  | json.Object _ | json.Array _ | json.Str _ => True
  | _ => False
  end →
  json.scan {| json.step := json.stateBeginValue; json.parseState := [] |} (bytes b)
  = json.scanEnd v.
Proof.
  unfold json.readValue.
  destruct (json.scan _ (bytes b)) as [s| |] eqn:Hscan.
  - destruct (json.stepOn s " ") as [|w|] eqn:Hstep; try done.
    intros [= <-] Hv. exfalso.
    apply scan_plainLiteral in Hscan; [|exact I].
    pose proof (stepOn_space_end _ _ Hscan Hstep). by destruct w.
  - by intros [= <-].
  - done.
Qed.

Lemma readValue_prefix (b rest : string) v :
  json.scan {| json.step := json.stateBeginValue; json.parseState := [] |} (bytes b)
  = json.scanEnd v →
  json.readValue (b +:+ rest) = inr v.
Proof.
  intros Hscan. unfold json.readValue.
  by rewrite bytes_append, scan_app, Hscan.
Qed.

Lemma decodeObject_decoder d d' ms tj saved :
  json.disallowUnknownFields d = json.disallowUnknownFields d' →
  decodeObject d ms tj saved = decodeObject d' ms tj saved.
Proof.
  intros Hd. revert tj saved.
  induction ms as [|[k v] ms IH]; intros tj saved; simpl; [done|].
  destruct (isNameKey k).
  - destruct (json.storeString v (Name tj) saved). apply IH.
  - rewrite Hd. destruct (json.disallowUnknownFields d'); apply IH.
Qed.

Lemma marshal_of_readValue b b' tj :
  json.readValue b = json.readValue b' → marshal b tj = marshal b' tj.
Proof.
  intros Hb. unfold marshal, Decode.
  change (json.reader (json.DisallowUnknownFields (json.NewDecoder b))) with b.
  change (json.reader (json.DisallowUnknownFields (json.NewDecoder b'))) with b'.
  rewrite Hb. destruct (json.readValue b') as [e|v]; [done|].
  destruct v; try done. unfold decodeValue.
  by rewrite (decodeObject_decoder _ (json.DisallowUnknownFields (json.NewDecoder b'))).
Qed.

(** X5.  [marshal] decodes the first JSON value of the input and does not
    look at what follows it: when the input starts with a complete object
    (or array, or string), appending anything to the input changes
    neither the error nor the struct. *)
Theorem marshal_ignores_what_follows b rest tj v :
  json.readValue b = inr v →
  match v with
  | json.Object _ | json.Array _ | json.Str _ => True
  | _ => False
  end →
  json.readValue (b +:+ rest) = inr v
  ∧ marshal (b +:+ rest) tj = marshal b tj.
Proof.
  intros Hb Hv.
  assert (json.readValue (b +:+ rest) = inr v) as Hrest
    by (by apply readValue_prefix, readValue_complete).
  split; [done|]. apply marshal_of_readValue. by rewrite Hrest, Hb.
Qed.

Lemma marshal_ignores_what_follows_witness :
  marshal (goodJSONString +:+ "} trailing [") {| Name := "" |}
  = marshal goodJSONString {| Name := "" |}.
Proof.
  apply (marshal_ignores_what_follows goodJSONString "} trailing ["
           {| Name := "" |} (json.Object [("name", json.Str "michael")])).
  - vm_compute. reflexivity.
  - exact I.
Defined.

Lemma name_object_text (name : string) :
  "{" +:+ quoted "name" +:+ ":" +:+ quoted name +:+ "}"
  = ("{" +:+ quoted "name" +:+ ":" +:+ String QUOTE "")
    +:+ (name +:+ String QUOTE "}").
Proof.
  unfold quoted. rewrite !append_cons, !append_assoc. reflexivity.
Qed.

Lemma readValue_name_object (name : string) :
  forallb plainByte (bytes name) = true →
  json.readValue ("{" +:+ quoted "name" +:+ ":" +:+ quoted name +:+ "}")
  = inr (json.Object [("name", json.Str name)]).
Proof.
  intros Hplain. rewrite name_object_text.
  set (pre := "{" +:+ quoted "name" +:+ ":" +:+ String QUOTE "").
  unfold json.readValue. rewrite (bytes_append pre), scan_app.
  assert (json.scan {| json.step := json.stateBeginValue;
                       json.parseState := [] |} (bytes pre)
          = json.scanContinue
              {| json.step := json.stateInString [];
                 json.parseState := [json.parseObjectValue [] (Some "name")] |})
    as -> by (vm_compute; reflexivity).
  rewrite (bytes_append name), scan_plain by done.
  cbn [bytes list_ascii_of_string json.scan].
  unfold json.stepOn at 1. cbn [json.step json.parseState].
  change ((QUOTE =? QUOTE)%char) with true. cbn iota.
  unfold json.endString, json.unquoteBytes.
  rewrite app_nil_r, rev_involutive, unquote_plain by done.
  cbn [fmap option_fmap option_map]. unfold text, bytes.
  rewrite string_of_list_ascii_of_string. reflexivity.
Qed.

(** X6.  A name made of printable ASCII bytes other than the quote and
    the backslash comes back as it went in: [marshal] of the object
    [{"name":"<name>"}] returns [nil] and stores exactly [<name>]. *)
Theorem marshal_stores_a_plain_name (name : string) tj :
  forallb plainByte (bytes name) = true →
  marshal ("{" +:+ quoted "name" +:+ ":" +:+ quoted name +:+ "}") tj
  = {| returned := None; pointee := {| Name := name |};
       logged := [LogPrintln [ArgString "no error"]] |}.
Proof.
  intros Hplain. unfold marshal, Decode.
  match goal with |- context [json.readValue (json.reader ?d)] =>
    change (json.reader d)
      with ("{" +:+ quoted "name" +:+ ":" +:+ quoted name +:+ "}") end.
  by rewrite readValue_name_object.
Qed.

Lemma marshal_stores_a_plain_name_witness :
  marshal ("{" +:+ quoted "name" +:+ ":" +:+ quoted "Ada L., 36 years" +:+ "}")
    {| Name := "michael" |}
  = {| returned := None; pointee := {| Name := "Ada L., 36 years" |};
       logged := [LogPrintln [ArgString "no error"]] |}.
Proof.
  apply (marshal_stores_a_plain_name "Ada L., 36 years" {| Name := "michael" |}).
  vm_compute. reflexivity.
Defined.

(** X7.  From an input that is empty or holds nothing but white space
    [marshal] reads no value: it returns [io.EOF], logs it, and leaves
    the struct as it was. *)
Theorem marshal_of_white_space b tj :
  forallb json.isSpace (bytes b) = true →
  marshal b tj
  = {| returned := Some io_EOF; pointee := tj;
       logged := [LogPrintln [ArgString "got an err "; ArgError io_EOF]] |}.
Proof.
  intros Hsp.
  assert (json.readValue b = inl io_EOF) as Hread.
  { unfold json.readValue. rewrite scan_spaces by done.
    rewrite stepOn_space_begin by done. by rewrite Hsp. }
  unfold marshal, Decode.
  change (json.reader (json.DisallowUnknownFields (json.NewDecoder b))) with b.
  by rewrite Hread.
Qed.

Lemma marshal_of_white_space_witness :
  marshal ("  " +:+ LF) {| Name := "kept" |}
  = {| returned := Some io_EOF; pointee := {| Name := "kept" |};
       logged := [LogPrintln [ArgString "got an err "; ArgError io_EOF]] |}.
Proof.
  apply (marshal_of_white_space ("  " +:+ LF) {| Name := "kept" |}).
  vm_compute. reflexivity.
Defined.

Lemma caseMask_letter b c :
  In b (bytes "name") →
  (json.caseMask b =? json.caseMask c)%N = true ↔ asciiLower c = b.
Proof.
  intros Hb. cbn in Hb.
  destruct Hb as [<-|[<-|[<-|[<-|[]]]]];
    destruct c as [[] [] [] [] [] [] [] []]; vm_compute; split; congruence.
Qed.

Lemma fold_letters s t :
  Forall (λ b, In b (bytes "name")) s →
  json.simpleLetterEqualFold s t = true ↔ map asciiLower t = s.
Proof.
  intros Hs. revert t. induction Hs as [|b s Hb Hs IH]; intros [|c t]; cbn [json.simpleLetterEqualFold map]; try (split; congruence).
  rewrite andb_true_iff, caseMask_letter, IH by done.
  split; [intros [-> ->]; done | intros [= -> ->]; done].
Qed.

Lemma isNameKey_folds key :
  isNameKey key = true ↔ map asciiLower (bytes key) = bytes "name".
Proof.
  unfold isNameKey. rewrite orb_true_iff, fold_letters.
  - split; [intros [Heq%String.eqb_eq|Hf]; [by subst|done] | by right].
  - repeat constructor; cbn; tauto.
Qed.

Lemma decodeObject_fault d ms tj :
  json.disallowUnknownFields d = true →
  (decodeObject d ms tj None).2 = firstFault ms.
Proof.
  intros Hd. revert tj.
  induction ms as [|[k v] ms IH]; intros tj; [done|].
  cbn [decodeObject firstFault]. unfold memberFault. cbn [fst snd].
  destruct (isNameKey k).
  - destruct v; cbn [json.storeString json.saveError];
      first [apply IH | apply decodeObject_saved].
  - rewrite Hd. cbn [json.saveError]. apply decodeObject_saved.
Qed.

Lemma marshal_logged b tj :
  logged (marshal b tj)
  = match returned (marshal b tj) with
    | Some e => [LogPrintln [ArgString "got an err "; ArgError e]]
    | None => [LogPrintln [ArgString "no error"]]
    end.
Proof. unfold marshal. by destruct (Decode _ tj) as [tj' [e|]]. Qed.

Lemma marshalled_eq (x y : marshalled) :
  returned x = returned y → pointee x = pointee y → logged x = logged y →
  x = y.
Proof. destruct x, y; simpl; congruence. Qed.

Lemma marshal_returned_any b tj tj' :
  returned (marshal b tj) = returned (marshal b tj').
Proof.
  rewrite !marshal_returned. unfold Decode.
  change (json.reader (json.DisallowUnknownFields (json.NewDecoder b))) with b.
  destruct (json.readValue b) as [e|v]; [done|].
  destruct v; try done. cbn [decodeValue].
  by rewrite !decodeObject_fault.
Qed.

Lemma populatedName_keeps_or_sets ms :
  (∀ old, populatedName ms old = old) ∨ (∃ s, ∀ old, populatedName ms old = s).
Proof.
  unfold populatedName.
  induction ms as [|[k v] ms [IH|[s IH]]]; [by left| |right; exists s; intros; apply IH].
  cbn [fold_left fst snd].
  destruct (isNameKey k); [|left; intros; apply IH].
  destruct v; try (left; intros; apply IH).
  right. eexists. intros old. apply IH.
Qed.

Lemma populatedName_twice ms old :
  populatedName ms (populatedName ms old) = populatedName ms old.
Proof.
  destruct (populatedName_keeps_or_sets ms) as [H|[s H]]; by rewrite !H.
Qed.

(** X8.  The key of a member is compared with the field name [name]
    without regard to the case of its letters: an object with the one
    member [key: "<s>"] is decoded without an error exactly when the
    lower-case form of [key] is [name], and then [<s>] is stored. *)
Theorem marshal_folds_the_case_of_keys b key s tj :
  json.readValue b = inr (json.Object [(key, json.Str s)]) →
  (returned (marshal b tj) = None ↔ map asciiLower (bytes key) = bytes "name")
  ∧ (map asciiLower (bytes key) = bytes "name" →
     pointee (marshal b tj) = {| Name := s |}).
Proof.
  intros Hb. rewrite <- isNameKey_folds.
  rewrite marshal_returned, marshal_pointee_populated. unfold Decode, populated.
  change (json.reader (json.DisallowUnknownFields (json.NewDecoder b))) with b.
  rewrite Hb. cbn [decodeValue]. rewrite decodeObject_fault by done.
  unfold populatedName. cbn [firstFault fold_left]. unfold memberFault.
  cbn [fst snd].
  destruct (isNameKey key); (split; [split|]); intros; congruence.
Qed.

Lemma marshal_folds_the_case_of_keys_witness :
  returned (marshal ("{" +:+ quoted "NaME" +:+ ":" +:+ quoted "michael" +:+ "}")
              {| Name := "" |}) = None.
Proof.
  apply (marshal_folds_the_case_of_keys
           ("{" +:+ quoted "NaME" +:+ ":" +:+ quoted "michael" +:+ "}")
           "NaME" "michael" {| Name := "" |}).
  - vm_compute. reflexivity.
  - vm_compute. reflexivity.
Defined.

(** X9.  Of an object [marshal] returns the error of the first member at
    fault, in the order of the input: an unknown-field error for a key
    that is not [name], a type error for a [name] that holds neither a
    string nor [null]; [nil] when no member is at fault. *)
Theorem marshal_returns_the_first_fault b ms tj :
  json.readValue b = inr (json.Object ms) →
  returned (marshal b tj) = firstFault ms.
Proof.
  intros Hb. rewrite marshal_returned. unfold Decode.
  change (json.reader (json.DisallowUnknownFields (json.NewDecoder b))) with b.
  rewrite Hb. cbn [decodeValue]. by apply decodeObject_fault.
Qed.

Lemma marshal_returns_the_first_fault_witness :
  returned (marshal ("{" +:+ quoted "name" +:+ ":1," +:+ quoted "age" +:+ ":2}")
              {| Name := "" |})
  = Some (UnmarshalTypeError "number").
Proof.
  apply (marshal_returns_the_first_fault
           ("{" +:+ quoted "name" +:+ ":1," +:+ quoted "age" +:+ ":2}")
           [("name", json.Number "1"); ("age", json.Number "2")]
           {| Name := "" |}).
  vm_compute. reflexivity.
Defined.

(** X10.  Decoding the same input a second time into the struct the
    first call left behind changes nothing: the same error, the same
    struct, the same log line. *)
Theorem marshal_twice_changes_nothing b tj :
  marshal b (pointee (marshal b tj)) = marshal b tj.
Proof.
  apply marshalled_eq.
  - apply marshal_returned_any.
  - rewrite !marshal_pointee_populated. unfold populated.
    destruct (json.readValue b) as [e|v]; [done|].
    destruct v; try done. cbn [Name]. by rewrite populatedName_twice.
  - rewrite !marshal_logged. by rewrite (marshal_returned_any b _ tj).
Qed.

(** X11.  The error [marshal] returns, and the line it logs, depend on
    the input alone, not on what the struct held before the call. *)
Theorem marshal_error_ignores_the_struct b tj tj' :
  returned (marshal b tj) = returned (marshal b tj')
  ∧ logged (marshal b tj) = logged (marshal b tj').
Proof.
  split; [apply marshal_returned_any|].
  rewrite !marshal_logged. by rewrite (marshal_returned_any b tj tj').
Qed.

(** ** Routers with one pattern, and the routers of [main.go] on every request *)

Section SingleFacts.

Context `{http.Library}.

Implicit Types (r : http.Request) (w : World) (host path pat k : string).

Lemma last_append host s :
  s ≠ "" → strings.last (host +:+ s) = strings.last s.
Proof.
  intros Hs. induction host as [|c host IH]; [done|].
  rewrite append_cons. cbn [strings.last]. rewrite IH.
  destruct (host +:+ s) eqn:E; [|done].
  destruct host; [by subst|discriminate].
Qed.

Lemma append_slash_inj s t : s +:+ "/" = t +:+ "/" → s = t.
Proof.
  revert t. induction s as [|c s IH]; intros [|d t]; rewrite ?append_cons; cbn.
  - done.
  - intros [= <- E]. destruct t; discriminate.
  - intros [= -> E]. destruct s; discriminate.
  - intros [= -> E]. f_equal. by apply IH.
Qed.

(** A rooted path after a host name is a text with one slash at the
    front only when the host name is empty. *)
Lemma rooted_suffix host path t :
  strings.startsWithSlash path = true →
  ¬ In "/"%char (bytes t) →
  String "/" t = host +:+ path → path = String "/" t.
Proof.
  intros Hr Ht Heq. destruct host as [|c host]; [done|].
  rewrite append_cons in Heq. injection Heq as _ Heq.
  destruct (startsWithSlash_inv _ Hr) as [t' ->].
  symmetry in Heq. apply append_slash_bytes in Heq. done.
Qed.

Lemma single_lookup pat handler k :
  http.m (single pat handler) !! k =
  if decide (pat = k) then Some {| http.h := handler; http.pattern := pat |}
  else None.
Proof.
  unfold single; simpl. rewrite lookup_insert. case_decide; [done|].
  apply lookup_empty.
Qed.

Lemma single_no_redirect pat handler host path u :
  strings.endsWithSlash pat = false →
  http.redirectToPathSlash (single pat handler) host path u = None.
Proof.
  intros Hs. unfold http.redirectToPathSlash, http.shouldRedirectRLocked.
  destruct (existsb _ [path; host +:+ path]); [done|].
  destruct (String.eqb path ""); [done|].
  cbn [existsb]. rewrite !single_lookup.
  rewrite !decide_False; [reflexivity| |];
    intros E; rewrite E, endsWithSlash_append_slash in Hs; discriminate.
Qed.

Lemma single_handler pat handler host path :
  http.ServeMux_handler (single pat handler) host path =
  if decide (pat = path) then (handler, pat) else (http.NotFound, "").
Proof.
  unfold http.ServeMux_handler, http.ServeMux_match.
  change (http.hosts (single pat handler)) with false.
  change (http.es (single pat handler)) with (@nil http.muxEntry).
  cbn iota. rewrite single_lookup. by case_decide.
Qed.

(** A request that is not a [CONNECT] is sent to the clean form of its
    path when the path is not clean, and is otherwise served by the
    handler when the path is the pattern and by [NotFound] when it is
    not. *)
Lemma single_serves pat handler r w :
  strings.endsWithSlash pat = false →
  http.Method r ≠ "CONNECT" → http.RequestURI r ≠ "*" →
  http.ServeMux_ServeHTTP (single pat handler) r w =
  if decide (http.cleanPath (url.Path (http.URL r)) = url.Path (http.URL r))
  then if decide (pat = url.Path (http.URL r)) then handler r w
       else http.NotFound r w
  else http.RedirectHandler
         (movedTo (http.cleanPath (url.Path (http.URL r))) r)
         http.StatusMovedPermanently r w.
Proof.
  intros Hs Hm Hu. unfold http.ServeMux_ServeHTTP, http.ServeMux_Handler.
  apply String.eqb_neq in Hm, Hu. rewrite Hm, Hu.
  rewrite single_no_redirect by done.
  destruct (String.eqb_spec (http.cleanPath (url.Path (http.URL r)))
              (url.Path (http.URL r))) as [Hc|Hc]; cbn [negb].
  - rewrite decide_True by done. rewrite single_handler. by case_decide.
  - rewrite decide_False by done. rewrite single_handler. by case_decide.
Qed.

Lemma Handle_single pat handler :
  pat ≠ "" → strings.startsWithSlash pat = true →
  strings.endsWithSlash pat = false →
  http.ServeMux_Handle pat handler http.NewServeMux = Some (single pat handler).
Proof.
  intros Hp Hr Hs. unfold http.ServeMux_Handle.
  apply String.eqb_neq in Hp. rewrite Hp.
  change (http.m http.NewServeMux) with (∅ : gmap string http.muxEntry).
  rewrite lookup_empty, Hs, Hr. reflexivity.
Qed.

End SingleFacts.

Section AliveFacts.

Context `{http.Library}.

Implicit Types (r : http.Request) (w : World) (host path k : string).

Lemma aliveReady_handler_any host path :
  http.ServeMux_handler aliveReady host path =
  if decide ("ready" = host +:+ path) then (newServeMux_func2, "ready")
  else if decide ("/alive" = host +:+ path) then (newServeMux_func1, "/alive")
  else if decide ("ready" = path) then (newServeMux_func2, "ready")
  else if decide ("/alive" = path) then (newServeMux_func1, "/alive")
  else (http.NotFound, "").
Proof.
  unfold http.ServeMux_handler, http.ServeMux_match.
  change (http.hosts aliveReady) with true.
  change (http.es aliveReady) with (@nil http.muxEntry). cbn iota.
  rewrite !aliveReady_lookup. cbn [List.find].
  repeat case_decide; reflexivity.
Qed.

End AliveFacts.

(** X12.  The server of [newServeMux] never gives a request that is not a
    [CONNECT] to the handler registered under [ready]: whatever the
    method, the host and the path, the request is redirected to the
    clean form of its path when the path is not clean, served by the
    handler of [/alive] when the path is [/alive], and answered by
    [http.NotFound] otherwise. *)
Theorem newServeMux_routes `{http.Library} r w :
  http.Method r ≠ "CONNECT" →
  http.RequestURI r ≠ "*" →
  ∃ srv,
    newServeMux = Some srv
    ∧ http.Server_Handler srv r w
      = if decide (http.cleanPath (url.Path (http.URL r)) = url.Path (http.URL r))
        then if decide (url.Path (http.URL r) = "/alive")
             then newServeMux_func1 r w
             else http.NotFound r w
        else http.RedirectHandler
               (movedTo (http.cleanPath (url.Path (http.URL r))) r)
               http.StatusMovedPermanently r w.
Proof.
  intros Hm Hu. eexists. split; [apply newServeMux_router|].
  cbn [http.Server_Handler].
  unfold http.ServeMux_ServeHTTP, http.ServeMux_Handler.
  apply String.eqb_neq in Hm, Hu. rewrite Hm, Hu.
  rewrite aliveReady_no_redirect.
  destruct (String.eqb_spec (http.cleanPath (url.Path (http.URL r)))
              (url.Path (http.URL r))) as [Hc|Hc]; cbn [negb].
  - rewrite decide_True by done.
    rewrite aliveReady_handler by (rewrite <- Hc; apply cleanPath_rooted).
    by case_decide.
  - rewrite decide_False by done.
    by destruct (http.ServeMux_handler aliveReady _ _).
Qed.

Lemma newServeMux_routes_witness :
  ∃ srv,
    @newServeMux plainLibrary = Some srv
    ∧ http.Server_Handler srv (GET "localhost:8000" "/x/../ready" ∅) start
      = Returned tt (withResp start (headed 301 (resp start))).
Proof.
  destruct (@newServeMux_routes plainLibrary
              (GET "localhost:8000" "/x/../ready" ∅) start)
    as (srv & Hsrv & Hserve); [discriminate | discriminate |].
  exists srv. split; [exact Hsrv|]. rewrite Hserve. vm_compute. reflexivity.
Defined.

(** X13.  A [CONNECT] request is matched as it is, the path without
    cleaning and the host in front of it, so the handler registered
    under [ready] does answer the request [CONNECT ready]: the server of
    [newServeMux] looks up the host followed by the path, then the path,
    among [ready] and [/alive], and answers with [http.NotFound] when
    neither is registered. *)
Theorem newServeMux_CONNECT_reaches_ready `{http.Library} r w :
  http.Method r = "CONNECT" →
  http.RequestURI r ≠ "*" →
  ∃ srv,
    newServeMux = Some srv
    ∧ http.Server_Handler srv r w
      = (if decide ("ready" = http.Host r +:+ url.Path (http.URL r))
         then newServeMux_func2
         else if decide ("/alive" = http.Host r +:+ url.Path (http.URL r))
         then newServeMux_func1
         else if decide ("ready" = url.Path (http.URL r)) then newServeMux_func2
         else if decide ("/alive" = url.Path (http.URL r)) then newServeMux_func1
         else http.NotFound) r w.
Proof.
  intros Hm Hu. eexists. split; [apply newServeMux_router|].
  cbn [http.Server_Handler].
  unfold http.ServeMux_ServeHTTP, http.ServeMux_Handler.
  apply String.eqb_neq in Hu. rewrite Hm, Hu. cbn [String.eqb Ascii.eqb].
  change (String.eqb "CONNECT" "CONNECT") with true. cbn iota.
  rewrite aliveReady_no_redirect, aliveReady_handler_any.
  repeat case_decide; reflexivity.
Qed.

Lemma newServeMux_CONNECT_reaches_ready_witness :
  ∃ srv,
    @newServeMux plainLibrary = Some srv
    ∧ http.Server_Handler srv (CONNECT "ready")
        (withResp start (http.newResponse "CONNECT"))
      = Returned tt
          (withResp start
             (answered 200 ("always" +:+ LF) (http.newResponse "CONNECT"))).
Proof.
  destruct (@newServeMux_CONNECT_reaches_ready plainLibrary (CONNECT "ready")
              (withResp start (http.newResponse "CONNECT")))
    as (srv & Hsrv & Hserve); [reflexivity | discriminate |].
  exists srv. split; [exact Hsrv|]. rewrite Hserve. vm_compute. reflexivity.
Defined.

Section ParentFacts.

Context `{http.Library}.

Implicit Types (r : http.Request) (w : World) (host path k : string).

Lemma userMux_single : userMux = single "/fetch" parentChildMux_func1.
Proof. reflexivity. Qed.

Lemma recordMux_single : recordMux = single "/fetch" parentChildMux_func2.
Proof. reflexivity. Qed.

Lemma not_registered_after_host host s k :
  s ≠ "" → strings.last k ≠ strings.last s → k ≠ host +:+ s.
Proof. intros Hs Hl ->. by rewrite last_append in Hl. Qed.

(** The one redirect the router [mux] of [parentChildMux] makes on its
    own: [/user] goes to [/user/]. *)
Lemma parentMux_redirect host path u :
  strings.startsWithSlash path = true →
  http.redirectToPathSlash parentMux host path u =
  if decide (path = "/user")
  then Some {| url.Host := ""; url.Path := "/user/"; url.RawPath := "";
               url.RawQuery := url.RawQuery u |}
  else None.
Proof.
  intros Hr. unfold http.redirectToPathSlash, http.shouldRedirectRLocked.
  case_decide as Hp.
  - subst path. cbn [existsb]. rewrite !parentMux_lookup.
    rewrite (decide_False (P := "/record" = "/user")) by discriminate.
    rewrite (decide_False (P := "/user/" = "/user")) by discriminate.
    rewrite (decide_False (P := "/record" = host +:+ "/user"))
      by (apply not_registered_after_host; [done | cbn; congruence]).
    rewrite (decide_False (P := "/user/" = host +:+ "/user"))
      by (apply not_registered_after_host; [done | cbn; congruence]).
    reflexivity.
  - destruct (existsb _ [path; host +:+ path]); [done|].
    destruct (String.eqb path ""); [done|].
    cbn [existsb]. rewrite !parentMux_lookup.
    rewrite (decide_False (P := "/record" = path +:+ "/"))
      by (apply not_registered_after_host; [done | cbn; congruence]).
    rewrite (decide_False (P := "/user/" = path +:+ "/"))
      by (intros E; apply Hp; symmetry; by apply append_slash_inj).
    rewrite (decide_False (P := "/record" = (host +:+ path) +:+ "/"))
      by (apply not_registered_after_host; [done | cbn; congruence]).
    rewrite (decide_False (P := "/user/" = (host +:+ path) +:+ "/")); [reflexivity|].
    intros E. apply Hp.
    apply (append_slash_inj "/user") in E.
    apply rooted_suffix in E; [done | done |].
    vm_compute. intuition discriminate.
Qed.

Lemma parentMux_handler host path :
  http.ServeMux_handler parentMux host path =
  if decide (path = "/record") then (http.h recordEntry, "/record")
  else if strings.HasPrefix path "/user/" then (http.h userEntry, "/user/")
  else (http.NotFound, "").
Proof.
  unfold http.ServeMux_handler, http.ServeMux_match.
  change (http.hosts parentMux) with false.
  change (http.es parentMux) with [userEntry]. cbn iota.
  rewrite parentMux_lookup.
  destruct (decide ("/record" = path)) as [<-|Hrec]; [done|].
  rewrite (decide_False (P := path = "/record")) by congruence.
  destruct (decide ("/user/" = path)) as [<-|Huser]; [done|].
  cbn [List.find]. change (http.pattern userEntry) with "/user/".
  by destruct (strings.HasPrefix path "/user/").
Qed.

(** What [StripPrefix("/record", record)] does with the one path that
    reaches it. *)
Lemma recordEntry_redirects r w :
  http.Method r ≠ "CONNECT" → http.RequestURI r ≠ "*" →
  url.Path (http.URL r) = "/record" → url.RawPath (http.URL r) = "" →
  http.h recordEntry r w
  = http.RedirectHandler (movedTo "/" r) http.StatusMovedPermanently
      (http.withPath r "" "") w.
Proof.
  intros Hm Hu Hp Hrp. change (http.h recordEntry)
    with (http.StripPrefix "/record" (http.ServeMux_ServeHTTP recordMux)).
  rewrite (StripPrefix_strips "/record" "") by done.
  rewrite recordMux_single, single_serves by done.
  reflexivity.
Qed.

Lemma userEntry_strips r w :
  strings.HasPrefix (url.Path (http.URL r)) "/user/" = true →
  url.RawPath (http.URL r) = "" →
  http.h userEntry r w
  = http.ServeMux_ServeHTTP userMux
      (http.withPath r (strings.TrimPrefix (url.Path (http.URL r)) "/user") "") w.
Proof.
  intros Hp Hrp. destruct (HasPrefix_inv _ _ Hp) as [rest Hrest].
  change (http.h userEntry)
    with (http.StripPrefix "/user" (http.ServeMux_ServeHTTP userMux)).
  rewrite (StripPrefix_strips "/user" ("/" +:+ rest)); [|done|by rewrite Hrest|done].
  rewrite Hrest. change ("/user/" +:+ rest) with ("/user" +:+ ("/" +:+ rest)).
  by rewrite TrimPrefix_append.
Qed.

End ParentFacts.

(** X14.  No request that is not a [CONNECT] and has no encoded form of
    its path reaches the handler [parentChildMux] registers for records.
    The router [mux] redirects
    [/user] to [/user/] and a path that is not clean to its clean form;
    it hands a path under [/user/] to the router [user], with [/user]
    cut off; the pattern [/record], registered without the slash at its
    end, matches the path [/record] alone, which the router [record]
    gets as the empty path and redirects to [/]; every other path,
    [/record/fetch] among them, is answered by [http.NotFound]. *)
Theorem parentChildMux_routes `{http.Library} r w :
  http.Method r ≠ "CONNECT" →
  http.RequestURI r ≠ "*" →
  url.RawPath (http.URL r) = "" →
  parentChildMux = Some (userMux, recordMux, parentMux)
  ∧ http.ServeMux_ServeHTTP parentMux r w
    = let path := url.Path (http.URL r) in
      if decide (http.cleanPath path = "/user")
      then http.RedirectHandler (movedTo "/user/" r)
             http.StatusMovedPermanently r w
      else if decide (http.cleanPath path = path)
      then if decide (path = "/record")
           then http.RedirectHandler (movedTo "/" r)
                  http.StatusMovedPermanently (http.withPath r "" "") w
           else if strings.HasPrefix path "/user/"
           then http.ServeMux_ServeHTTP userMux
                  (http.withPath r (strings.TrimPrefix path "/user") "") w
           else http.NotFound r w
      else http.RedirectHandler (movedTo (http.cleanPath path) r)
             http.StatusMovedPermanently r w.
Proof.
  intros Hm Hu Hrp. split; [apply parentChildMux_routers|]. cbn zeta.
  unfold http.ServeMux_ServeHTTP at 1. unfold http.ServeMux_Handler.
  apply String.eqb_neq in Hm as Hm', Hu as Hu'. rewrite Hm', Hu'.
  rewrite parentMux_redirect by apply cleanPath_rooted.
  case_decide as Huser; [reflexivity|].
  destruct (String.eqb_spec (http.cleanPath (url.Path (http.URL r)))
              (url.Path (http.URL r))) as [Hc|Hc]; cbn [negb].
  - rewrite decide_True by done. rewrite parentMux_handler.
    case_decide as Hrec; [by apply recordEntry_redirects|].
    destruct (strings.HasPrefix _ "/user/") eqn:Hpre; [|done].
    by apply userEntry_strips.
  - rewrite decide_False by done.
    by destruct (http.ServeMux_handler parentMux _ _).
Qed.

Lemma parentChildMux_routes_witness :
  @http.ServeMux_ServeHTTP plainLibrary (@parentMux plainLibrary)
    (GET "localhost:8000" "/record/fetch" ∅) start
  = http.NotFound (GET "localhost:8000" "/record/fetch" ∅) start.
Proof.
  destruct (@parentChildMux_routes plainLibrary
              (GET "localhost:8000" "/record/fetch" ∅) start)
    as [_ Hserve]; [discriminate | discriminate | reflexivity |].
  rewrite Hserve. vm_compute. reflexivity.
Defined.

(** X15.  The router of [muxWithMiddleware] serves [/hello] through the
    check and the timer: on a response nothing has been written to, a
    request with the password [PASSWORD] gets status 200, the body
    "Hello, world!" with a newline, and one line of the timer in the
    log; any other request for [/hello] gets status 401 and the message
    of the check, the clock is not read and nothing is logged. *)
Theorem muxWithMiddleware_serves_hello `{http.Library} r w :
  http.Method r ≠ "CONNECT" →
  http.RequestURI r ≠ "*" →
  url.Path (http.URL r) = "/hello" →
  pending (resp w) →
  ∃ mux,
    muxWithMiddleware = Some mux
    ∧ http.ServeMux_ServeHTTP mux r w
      = if decide (http.Header_Get (http.Header r) "X-Secret-Password" = "PASSWORD")
        then Returned tt
               (timed r w
                  (withResp (tick w)
                     (answered 200 ("Hello, world!" +:+ LF) (resp w))))
        else Returned tt
               (withResp w (answered http.StatusUnauthorized securityMsg (resp w))).
Proof.
  intros Hm Hu Hp Hpend. eexists. split; [by apply Handle_single|].
  rewrite single_serves by done. rewrite Hp.
  rewrite decide_True by reflexivity. rewrite decide_True by reflexivity.
  case_decide as Hpw.
  - rewrite TerribleSecurityProvider_accepts by done.
    apply RequestTimer_returned. unfold muxWithMiddleware_func1.
    erewrite bind_Returned by (by apply (Write_pending _ (tick w))).
    reflexivity.
  - by apply TerribleSecurityProvider_rejects_pending.
Qed.

Lemma muxWithMiddleware_serves_hello_witness :
  ∃ mux,
    muxWithMiddleware = Some mux
    ∧ stdlog (final (@http.ServeMux_ServeHTTP plainLibrary mux
                       (GET "localhost:8000" "/hello"
                          {[ "X-Secret-Password" := ["PASSWORD"] ]}) start))
      = [timerRecord (GET "localhost:8000" "/hello"
                        {[ "X-Secret-Password" := ["PASSWORD"] ]}) 0 1000000].
Proof.
  destruct (@muxWithMiddleware_serves_hello plainLibrary
              (GET "localhost:8000" "/hello" {[ "X-Secret-Password" := ["PASSWORD"] ]})
              start)
    as (mux & Hmux & Hserve);
    [discriminate | discriminate | reflexivity
    | apply newResponse_pending; discriminate |].
  exists mux. split; [exact Hmux|]. rewrite Hserve. reflexivity.
Defined.

(** X16.  The handler of [newServer] answers every request alike,
    whatever its method and path: when no status has been written the
    status becomes 202, and on a response nothing has been written to
    the body is "Hello, world!" with a newline. *)
Theorem newServer_answers_202 r w :
  wroteHeader (resp w) = false →
  (∃ w', http.Server_Handler newServer r w = Returned tt w'
         ∧ status (resp w') = 202)
  ∧ (pending (resp w) →
     http.Server_Handler newServer r w
     = Returned tt
         (withResp w (answered 202 ("Hello, world!" +:+ LF) (resp w)))).
Proof.
  intros Hw. cbn [http.Server_Handler newServer]. unfold NewHandler_ServeHTTP.
  split.
  - destruct (WriteHeader_first http.StatusAccepted w Hw)
      as (w1 & H1 & Hw1 & Hs1); [done|].
    erewrite bind_Returned by exact H1.
    unfold http.Write, mbind, Go_bind. rewrite Hw1.
    destruct (writeBody_returns ("Hello, world!" +:+ LF) w1) as (n & w' & Hb).
    rewrite Hb. exists w'. split; [reflexivity|].
    destruct (writeBody_status _ _ _ _ Hb) as (Hs & _). by rewrite Hs.
  - intros Hp. by apply answer_pending.
Qed.

Lemma newServer_answers_202_witness :
  http.Server_Handler newServer (GET "localhost:8000" "/anything" ∅) start
  = Returned tt
      (withResp start (answered 202 ("Hello, world!" +:+ LF) (resp start))).
Proof.
  destruct (newServer_answers_202 (GET "localhost:8000" "/anything" ∅) start)
    as [_ Hp]; [reflexivity|].
  apply Hp. apply newResponse_pending. discriminate.
Defined.

(** X17.  [RequestTimer] does not touch the response: whether the
    handler it wraps returns or panics, the response is left as that
    handler left it, and the handler is given the response the timer was
    given.  The clock is read exactly twice more than the handler reads
    it when the handler returns, once more when it panics. *)
Theorem RequestTimer_leaves_the_response (h : http.Handler) r w :
  resp (tick w) = resp w
  ∧ resp (final (RequestTimer h r w)) = resp (final (h r (tick w)))
  ∧ reads (final (RequestTimer h r w))
    = match h r (tick w) with
      | Returned _ w2 => S (reads w2)
      | Panicked _ w2 => reads w2
      end.
Proof.
  split; [done|].
  destruct (h r (tick w)) as [[] w2|v w2] eqn:Hh.
  - by rewrite (RequestTimer_returned _ _ _ _ Hh).
  - by rewrite (RequestTimer_panicked _ _ _ _ _ Hh).
Qed.

(** X18.  Two checks around a handler: with the same password they are
    one check; with two different passwords no request reaches the
    handler, and on a response nothing has been written to every request
    gets status 401. *)
Theorem TerribleSecurityProvider_twice p1 p2 (h : http.Handler) r w :
  (p1 = p2 →
     TerribleSecurityProvider p1 (TerribleSecurityProvider p2 h) r w
     = TerribleSecurityProvider p1 h r w)
  ∧ (p1 ≠ p2 →
     (∀ h' : http.Handler,
        TerribleSecurityProvider p1 (TerribleSecurityProvider p2 h') r w
        = TerribleSecurityProvider p1 (TerribleSecurityProvider p2 h) r w)
     ∧ (pending (resp w) →
        TerribleSecurityProvider p1 (TerribleSecurityProvider p2 h) r w
        = Returned tt
            (withResp w (answered http.StatusUnauthorized securityMsg (resp w))))).
Proof.
  split.
  - intros <-.
    destruct (decide (http.Header_Get (http.Header r) "X-Secret-Password" = p1)).
    + by rewrite !TerribleSecurityProvider_accepts.
    + by rewrite !TerribleSecurityProvider_rejects.
  - intros Hne.
    destruct (decide (http.Header_Get (http.Header r) "X-Secret-Password" = p1))
      as [He|Hn].
    + assert (http.Header_Get (http.Header r) "X-Secret-Password" ≠ p2) as Hn2
        by congruence.
      split.
      * intros h'. rewrite !(TerribleSecurityProvider_accepts p1) by done.
        by rewrite !TerribleSecurityProvider_rejects.
      * intros Hp. rewrite TerribleSecurityProvider_accepts by done.
        by apply TerribleSecurityProvider_rejects_pending.
    + split.
      * intros h'. by rewrite !(TerribleSecurityProvider_rejects p1).
      * intros Hp. by apply TerribleSecurityProvider_rejects_pending.
Qed.

Lemma TerribleSecurityProvider_twice_witness :
  TerribleSecurityProvider "PASSWORD" (TerribleSecurityProvider "OTHER" helloWorldHandler)
    (GET "localhost:8000" "/" {[ "X-Secret-Password" := ["PASSWORD"] ]}) start
  = Returned tt (withResp start (answered 401 securityMsg (resp start))).
Proof.
  destruct (TerribleSecurityProvider_twice "PASSWORD" "OTHER" helloWorldHandler
              (GET "localhost:8000" "/" {[ "X-Secret-Password" := ["PASSWORD"] ]})
              start) as [_ Hdiff].
  destruct Hdiff as [_ Hp]; [discriminate|].
  apply Hp. apply newResponse_pending. discriminate.
Defined.

(** X19.  In the server of [aliceWithMiddleWare] the check comes before
    the timeout: whatever [http.TimeoutHandler] does, a request without
    the password [PASSWORD] is answered by the check alone, with status
    401 on a response nothing has been written to, and a request with
    the password is handed to the timeout handler around
    [helloWorldHandler]. *)
Theorem aliceWithMiddleWare_checks_first
    (TimeoutHandler : http.Handler → Z → string → http.Handler) r w :
  (http.Header_Get (http.Header r) "X-Secret-Password" ≠ "PASSWORD" →
     (∀ other : http.Handler → Z → string → http.Handler,
        http.Server_Handler (aliceWithMiddleWare other) r w
        = http.Server_Handler (aliceWithMiddleWare TimeoutHandler) r w)
     ∧ (pending (resp w) →
        http.Server_Handler (aliceWithMiddleWare TimeoutHandler) r w
        = Returned tt
            (withResp w (answered http.StatusUnauthorized securityMsg (resp w)))))
  ∧ (http.Header_Get (http.Header r) "X-Secret-Password" = "PASSWORD" →
     http.Server_Handler (aliceWithMiddleWare TimeoutHandler) r w
     = TimeoutHandler helloWorldHandler time.Second "timed out" r w).
Proof.
  cbn [http.Server_Handler aliceWithMiddleWare alice.Then fold_right].
  unfold timeoutHandler. change (1 * time.Second) with time.Second.
  split.
  - intros Hne. split.
    + intros other. by rewrite !TerribleSecurityProvider_rejects.
    + intros Hp. by apply TerribleSecurityProvider_rejects_pending.
  - intros He. by apply TerribleSecurityProvider_accepts.
Qed.

Lemma aliceWithMiddleWare_checks_first_witness :
  http.Server_Handler (aliceWithMiddleWare inTime)
    (GET "localhost:8000" "/" ∅) start
  = Returned tt (withResp start (answered 401 securityMsg (resp start))).
Proof.
  destruct (aliceWithMiddleWare_checks_first inTime
              (GET "localhost:8000" "/" ∅) start) as [Hrej _].
  destruct Hrej as [_ Hp]; [vm_compute; discriminate|].
  apply Hp. apply newResponse_pending. discriminate.
Defined.

(** ** [parseJson] *)

Section ParseFacts.

Implicit Types (ms : list (string * json.Value)) (data : parseJson_data).

Lemma decodeData_saved d ms data e :
  (decodeData d ms data (Some e)).2 = Some e.
Proof.
  revert data. induction ms as [|[k v] ms IH]; intros data; [done|].
  cbn [decodeData]. destruct (fieldOf k) as [[]|].
  - unfold storeInt. destruct v; try destruct (strconv.ParseInt10 _); apply IH.
  - unfold storeInt. destruct v; try destruct (strconv.ParseInt10 _); apply IH.
  - destruct v; apply IH.
  - destruct v; apply IH.
  - destruct (json.disallowUnknownFields d); apply IH.
Qed.

Lemma decodeData_error d ms data :
  json.disallowUnknownFields d = false →
  is_Some (decodeData d ms data None).2 ↔ existsb misfit ms = true.
Proof.
  intros Hd. revert data.
  induction ms as [|[k v] ms IH]; intros data.
  - split; [intros [e He]; discriminate | discriminate].
  - cbn [decodeData existsb]. unfold misfit at 1. cbn [fst snd].
    destruct (fieldOf k) as [[]|]; cbn [orb].
    + unfold storeInt, fits. destruct v; cbn [negb orb json.saveError];
        try (rewrite decodeData_saved; split; [done | eauto]);
        try apply IH.
      destruct (strconv.ParseInt10 literal) as [n|]; cbn [json.saveError].
      * rewrite bool_decide_true by eauto. apply IH.
      * rewrite bool_decide_false by (intros [? ?]; discriminate).
        rewrite decodeData_saved. split; [done | eauto].
    + unfold storeInt, fits. destruct v; cbn [negb orb json.saveError];
        try (rewrite decodeData_saved; split; [done | eauto]);
        try apply IH.
      destruct (strconv.ParseInt10 literal) as [n|]; cbn [json.saveError].
      * rewrite bool_decide_true by eauto. apply IH.
      * rewrite bool_decide_false by (intros [? ?]; discriminate).
        rewrite decodeData_saved. split; [done | eauto].
    + unfold fits. destruct v; cbn [json.storeString negb orb json.saveError];
        try (rewrite decodeData_saved; split; [done | eauto]);
        apply IH.
    + unfold fits. destruct v; cbn [storeBool negb orb json.saveError];
        try (rewrite decodeData_saved; split; [done | eauto]);
        apply IH.
    + rewrite Hd. apply IH.
Qed.

Lemma parseJson_error body :
  parseJson body
  = (Decode_data (json.NewDecoder body)
       {| UserID := 0; ID := 0; Title := ""; Complete := false |}).2.
Proof. unfold parseJson. by destruct (Decode_data _ _). Qed.

Lemma decodeData_skips d ms1 ms2 k v data saved :
  json.disallowUnknownFields d = false →
  fieldOf k = None →
  decodeData d (ms1 ++ (k, v) :: ms2) data saved
  = decodeData d (ms1 ++ ms2) data saved.
Proof.
  intros Hd Hk. revert data saved.
  induction ms1 as [|[k1 v1] ms1 IH]; intros data saved.
  - cbn [app decodeData]. by rewrite Hk, Hd.
  - cbn [app decodeData]. destruct (fieldOf k1) as [[]|].
    + destruct (storeInt _ _ _). apply IH.
    + destruct (storeInt _ _ _). apply IH.
    + destruct (json.storeString _ _ _). apply IH.
    + destruct (storeBool _ _ _). apply IH.
    + rewrite Hd. apply IH.
Qed.

Lemma decodeData_decoder d d' ms data saved :
  json.disallowUnknownFields d = json.disallowUnknownFields d' →
  decodeData d ms data saved = decodeData d' ms data saved.
Proof.
  intros Hd. revert data saved.
  induction ms as [|[k v] ms IH]; intros data saved; [done|].
  cbn [decodeData]. destruct (fieldOf k) as [[]|].
  - destruct (storeInt _ _ _). apply IH.
  - destruct (storeInt _ _ _). apply IH.
  - destruct (json.storeString _ _ _). apply IH.
  - destruct (storeBool _ _ _). apply IH.
  - rewrite Hd. destruct (json.disallowUnknownFields d'); apply IH.
Qed.

End ParseFacts.

(** X20.  [parseJson] panics exactly when the body does not start with a
    well-formed JSON value, or the value is neither an object nor
    [null], or a member of the object selects a field of [data] and
    holds a value the field does not take.  Members that select no
    field are passed over. *)
Theorem parseJson_panics_exactly_when body :
  is_Some (parseJson body) ↔
  malformed body
  ∨ ∃ v, json.readValue body = inr v ∧
         match v with
         | json.Object ms => existsb misfit ms = true
         | json.Null => False
         | _ => True
         end.
Proof.
  rewrite parseJson_error. unfold Decode_data, malformed.
  change (json.reader (json.NewDecoder body)) with body.
  destruct (json.readValue body) as [e|v].
  - split; [intros _; left; eauto | eauto].
  - destruct v.
    + split; [intros [e He]; discriminate|].
      intros [[e He]|(v & Hv & F)]; [discriminate|].
      injection Hv as <-. destruct F.
    + split; [intros _; right; by eexists | eauto].
    + split; [intros _; right; by eexists | eauto].
    + split; [intros _; right; by eexists | eauto].
    + split; [intros _; right; by eexists | eauto].
    + rewrite decodeData_error by done. split.
      * intros Hm. right. eauto.
      * intros [[e He]|(v & Hv & F)]; [discriminate|].
        by injection Hv as <-.
Qed.

Lemma parseJson_panics_exactly_when_witness :
  parseJson todoBody = None
  ∧ is_Some (parseJson ("{" +:+ quoted "id" +:+ ":1.0}")).
Proof.
  split.
  - destruct (parseJson_panics_exactly_when todoBody) as [Hfail _].
    destruct (parseJson todoBody) as [e|] eqn:E; [|reflexivity].
    exfalso. destruct (Hfail (ex_intro _ e eq_refl)) as [[e' He]|(v & Hv & F)].
    + vm_compute in He. discriminate He.
    + vm_compute in Hv. injection Hv as <-. discriminate F.
  - apply (parseJson_panics_exactly_when ("{" +:+ quoted "id" +:+ ":1.0}")).
    right. eexists. split; [vm_compute; reflexivity|]. reflexivity.
Defined.

(** X21.  A member whose key selects no field of [data] has no effect on
    [parseJson], wherever it stands in the object; [marshal], which sets
    [DisallowUnknownFields], returns an error for an object with such a
    member. *)
Theorem parseJson_passes_over_unknown_members body body' ms1 ms2 k v :
  json.readValue body = inr (json.Object (ms1 ++ (k, v) :: ms2)) →
  json.readValue body' = inr (json.Object (ms1 ++ ms2)) →
  fieldOf k = None →
  parseJson body = parseJson body'.
Proof.
  intros Hb Hb' Hk. rewrite !parseJson_error. unfold Decode_data.
  change (json.reader (json.NewDecoder body)) with body.
  change (json.reader (json.NewDecoder body')) with body'.
  rewrite Hb, Hb'. rewrite decodeData_skips by done.
  by rewrite (decodeData_decoder _ (json.NewDecoder body')).
Qed.

Lemma parseJson_passes_over_unknown_members_witness :
  parseJson ("{" +:+ quoted "id" +:+ ":7," +:+ quoted "name" +:+ ":[true]}")
  = parseJson ("{" +:+ quoted "id" +:+ ":7}").
Proof.
  apply (parseJson_passes_over_unknown_members _ _
           [("id", json.Number "7")] [] "name" (json.Array [json.Bool true])).
  - vm_compute. reflexivity.
  - vm_compute. reflexivity.
  - vm_compute. reflexivity.
Defined.

Section FoldFacts.

Implicit Types (s t : list ascii) (b c : ascii) (key : string).

(** The letters of the field names of [data]. *)
Lemma caseMask_lower b c :
  In b (bytes "userIdtlcompi") →
  (json.caseMask b =? json.caseMask c)%N = true ↔ asciiLower c = asciiLower b.
Proof.
  intros Hb. cbn in Hb.
  repeat (destruct Hb as [<-|Hb]; [|]); [..|destruct Hb];
    destruct c as [[] [] [] [] [] [] [] []]; vm_compute; split; congruence.
Qed.

Lemma letter_isUpperCode b :
  In b (bytes "userIdtlcompi") → fold.isUpperCode (json.caseMask b) = true.
Proof.
  intros Hb. cbn in Hb.
  repeat (destruct Hb as [<-|Hb]; [reflexivity|]). destruct Hb.
Qed.

Lemma simpleLetterEqualFold_lower s t :
  Forall (λ b, In b (bytes "userIdtlcompi")) s →
  json.simpleLetterEqualFold s t = true ↔ map asciiLower t = map asciiLower s.
Proof.
  intros Hs. revert t.
  induction Hs as [|b s Hb Hs IH]; intros [|c t];
    cbn [json.simpleLetterEqualFold map]; try (split; congruence).
  rewrite andb_true_iff, caseMask_lower, IH by done.
  split; [intros [-> ->]; done | intros [= -> ->]; done].
Qed.

(** On a key in ASCII [equalFoldRight] is [simpleLetterEqualFold]. *)
Lemma equalFoldRight_ascii s t :
  Forall (λ b, In b (bytes "userIdtlcompi")) s →
  forallb (fun c => (code c <? 128)%N) t = true →
  fold.equalFoldRight s t = json.simpleLetterEqualFold s t.
Proof.
  intros Hs. revert t.
  induction Hs as [|b s Hb Hs IH]; intros [|c t] Ht; try reflexivity.
  cbn [forallb] in Ht. apply andb_true_iff in Ht as [Hc Ht].
  cbn [fold.equalFoldRight json.simpleLetterEqualFold].
  rewrite Hc, letter_isUpperCode, IH by done.
  destruct (Ascii.eqb_spec b c) as [->|Hne].
  - by rewrite N.eqb_refl.
  - by destruct (json.caseMask b =? json.caseMask c)%N.
Qed.

Lemma foldFunc_special s :
  existsb (fun b => (128 <=? code b)%N) s = false →
  existsb (fun b => (json.caseMask b =? 75)%N || (json.caseMask b =? 83)%N) s
  = true →
  fold.foldFunc s = Some fold.equalFoldRight.
Proof. unfold fold.foldFunc. by intros -> ->. Qed.

Lemma foldFunc_letters s :
  existsb (fun b => (128 <=? code b)%N) s = false →
  existsb (fun b => (json.caseMask b =? 75)%N || (json.caseMask b =? 83)%N) s
  = false →
  existsb (fun b => negb (fold.isUpperCode (json.caseMask b))) s = false →
  fold.foldFunc s = Some json.simpleLetterEqualFold.
Proof. unfold fold.foldFunc. by intros -> -> ->. Qed.

Lemma fieldName_letters f :
  Forall (λ b, In b (bytes "userIdtlcompi")) (bytes (fieldName f)).
Proof.
  destruct f; cbn [fieldName bytes list_ascii_of_string];
    repeat (apply List.Forall_cons;
            [cbn [In bytes list_ascii_of_string];
             repeat first [by left | right]|]);
    apply List.Forall_nil.
Qed.

Lemma equalFold_lower f key :
  asciiKey key = true →
  equalFold f key = true
  ↔ map asciiLower (bytes key) = map asciiLower (bytes (fieldName f)).
Proof.
  intros Ha. unfold equalFold. pose proof (fieldName_letters f) as Hf.
  destruct f; cbn [fieldName] in *.
  - rewrite foldFunc_special by (vm_compute; reflexivity).
    rewrite equalFoldRight_ascii by done.
    by apply simpleLetterEqualFold_lower.
  - rewrite foldFunc_letters by (vm_compute; reflexivity).
    by apply simpleLetterEqualFold_lower.
  - rewrite foldFunc_letters by (vm_compute; reflexivity).
    by apply simpleLetterEqualFold_lower.
  - rewrite foldFunc_letters by (vm_compute; reflexivity).
    by apply simpleLetterEqualFold_lower.
Qed.

Lemma lower_cases b c :
  In b (bytes "uerid") → asciiLower c = b →
  c = b ∨ c = byte_of (code b - 32).
Proof.
  intros Hb. cbn in Hb.
  repeat (destruct Hb as [<-|Hb]; [|]); [..|destruct Hb];
    destruct c as [[] [] [] [] [] [] [] []]; vm_compute;
    intros E; try discriminate E; auto.
Qed.

End FoldFacts.

(** X22.  The keys of the body select the fields of [data] without
    regard to the case of their letters: a key in ASCII selects the
    field whose name is, in lower case, the lower-case form of the key,
    and no field when there is none.  The field [userId], the one name
    with an [s], is also selected when the long s (U+017F) stands for
    the [s]. *)
Theorem fieldOf_folds_the_case key f :
  asciiKey key = true →
  (fieldOf key = Some f
   ↔ map asciiLower (bytes key) = map asciiLower (bytes (fieldName f)))
  ∧ ∀ u rest,
      asciiLower u = "u"%char →
      map asciiLower (bytes rest) = bytes "erid" →
      fieldOf (String u (longEss +:+ rest)) = Some fieldUserID.
Proof.
  intros Ha. split.
  - pose proof (equalFold_lower fieldUserID key Ha) as H1.
    pose proof (equalFold_lower fieldID key Ha) as H2.
    pose proof (equalFold_lower fieldTitle key Ha) as H3.
    pose proof (equalFold_lower fieldComplete key Ha) as H4.
    unfold fieldOf, parseJson_fields. cbn [List.find fieldName].
    cbn [fieldName] in H1, H2, H3, H4.
    destruct (String.eqb_spec "userId" key) as [<-|_].
    { destruct f; split; intros E;
        first [reflexivity | vm_compute in E; discriminate E]. }
    destruct (String.eqb_spec "id" key) as [<-|_].
    { destruct f; split; intros E;
        first [reflexivity | vm_compute in E; discriminate E]. }
    destruct (String.eqb_spec "title" key) as [<-|_].
    { destruct f; split; intros E;
        first [reflexivity | vm_compute in E; discriminate E]. }
    destruct (String.eqb_spec "completed" key) as [<-|_].
    { destruct f; split; intros E;
        first [reflexivity | vm_compute in E; discriminate E]. }
    set (L := map asciiLower (bytes key)) in *.
    destruct (equalFold fieldUserID key).
    { assert (L = map asciiLower (bytes "userId")) as -> by (by apply H1).
      destruct f; split; intros E;
        first [reflexivity | vm_compute in E; discriminate E]. }
    destruct (equalFold fieldID key).
    { assert (L = map asciiLower (bytes "id")) as -> by (by apply H2).
      destruct f; split; intros E;
        first [reflexivity | vm_compute in E; discriminate E]. }
    destruct (equalFold fieldTitle key).
    { assert (L = map asciiLower (bytes "title")) as -> by (by apply H3).
      destruct f; split; intros E;
        first [reflexivity | vm_compute in E; discriminate E]. }
    destruct (equalFold fieldComplete key).
    { assert (L = map asciiLower (bytes "completed")) as -> by (by apply H4).
      destruct f; split; intros E;
        first [reflexivity | vm_compute in E; discriminate E]. }
    split; [discriminate|]. intros E.
    destruct f; [apply H1 in E|apply H2 in E|apply H3 in E|apply H4 in E];
      discriminate E.
  - intros u rest Hu Hrest.
    destruct rest as [|e [|r [|i [|d [|? ?]]]]]; try discriminate Hrest.
    injection Hrest as He Hr Hi Hd.
    apply lower_cases in Hu as [->| ->]; [| |cbn; tauto].
    all: apply lower_cases in He as [->| ->]; [| |cbn; tauto].
    all: apply lower_cases in Hr as [->| ->]; [| |cbn; tauto].
    all: apply lower_cases in Hi as [->| ->]; [| |cbn; tauto].
    all: apply lower_cases in Hd as [->| ->]; [| |cbn; tauto].
    all: vm_compute; reflexivity.
Qed.

Lemma fieldOf_folds_the_case_witness :
  fieldOf "USERID" = Some fieldUserID.
Proof.
  destruct (fieldOf_folds_the_case "USERID" fieldUserID) as [Hiff _];
    [reflexivity|].
  apply Hiff. vm_compute. reflexivity.
Defined.
